(** * expense-bot: a shallow embedding of [bot.py]

    The bot keeps one row per expense in a PostgreSQL table and fills a row
    through a four-step Telegram conversation (amount, category,
    subcategory, optional label).  This development embeds the handlers of
    [bot.py] together with the parts of their libraries they rely on
    (Python's [str] and [decimal], the [expenses] table, the dispatch of
    python-telegram-bot's [ConversationHandler]) and proves the properties
    of the specification against them.

    Layout: text and characters; [Decimal]; the ledger store; the handler
    monad and the handlers; the dispatcher; then the lemmas and theorems. *)

From Stdlib Require Import String Ascii.
From Stdlib Require Import List NArith ZArith Lia Bool Permutation.
Import ListNotations.

Local Open Scope N_scope.

(* ================================================================== *)
(** * Text *)
(* ================================================================== *)

(** A Python [str] is a sequence of Unicode code points. *)
Abbreviation char := N.
Abbreviation text := (list char).

Fixpoint text_eqb (a b : text) : bool :=
  match a, b with
  | [], [] => true
  | x :: a', y :: b' => (x =? y) && text_eqb a' b'
  | _, _ => false
  end.

(** Literals are written as Rocq strings and decoded from UTF-8, so that
    they read as in the source. *)
Fixpoint utf8_decode (bs : list N) : text :=
  match bs with
  | [] => []
  | b0 :: r0 =>
    if b0 <? 128 then b0 :: utf8_decode r0
    else match r0 with
    | b1 :: r1 =>
      if b0 <? 224 then ((b0 - 192) * 64 + (b1 - 128)) :: utf8_decode r1
      else match r1 with
      | b2 :: r2 =>
        if b0 <? 240
        then ((b0 - 224) * 4096 + (b1 - 128) * 64 + (b2 - 128)) :: utf8_decode r2
        else match r2 with
        | b3 :: r3 =>
          ((b0 - 240) * 262144 + (b1 - 128) * 4096 + (b2 - 128) * 64 + (b3 - 128))
            :: utf8_decode r3
        | [] => []
        end
      | [] => []
      end
    | [] => []
    end
  end.

Definition T (s : String.string) : text :=
  utf8_decode (map Ascii.N_of_ascii (String.list_ascii_of_string s)).

(** [str.isspace] on one character (CPython's [_PyUnicode_IsWhitespace],
    Unicode 14). *)
Definition isspace (c : char) : bool :=
  ((9 <=? c) && (c <=? 13)) || ((28 <=? c) && (c <=? 32))
  || (c =? 133) || (c =? 160) || (c =? 5760)
  || ((8192 <=? c) && (c <=? 8202))
  || (c =? 8232) || (c =? 8233) || (c =? 8239) || (c =? 8287) || (c =? 12288).

(** [str.lstrip], [str.rstrip], [str.strip] without argument. *)
Fixpoint lstrip (s : text) : text :=
  match s with
  | c :: s' => if isspace c then lstrip s' else s
  | [] => []
  end.

Definition rstrip (s : text) : text := rev (lstrip (rev s)).

Definition strip (s : text) : text := rstrip (lstrip s).

(** [str.lower].  Only the ASCII letters are mapped; the result is compared
    with ASCII words only, and no character outside ASCII lowers to one of
    their letters (the two that lower into ASCII at all are U+212A, to k,
    and U+0130, to i followed by U+0307). *)
Definition isupper (c : char) : bool := (65 <=? c) && (c <=? 90).
Definition islower (c : char) : bool := (97 <=? c) && (c <=? 122).

Definition lower_char (c : char) : char := if isupper c then c + 32 else c.
Definition upper_char (c : char) : char := if islower c then c - 32 else c.

Definition lower (s : text) : text := map lower_char s.

(** [str.title]: a cased character is upper-cased when the previous one is
    not cased and lower-cased otherwise (ASCII casing). *)
Fixpoint title_from (prev_cased : bool) (s : text) : text :=
  match s with
  | [] => []
  | c :: s' =>
    (if prev_cased then lower_char c else upper_char c)
      :: title_from (isupper c || islower c) s'
  end.

Definition title (s : text) : text := title_from false s.

(** [str.startswith]. *)
Fixpoint startswith (s p : text) : bool :=
  match p, s with
  | [], _ => true
  | x :: p', y :: s' => (x =? y) && startswith s' p'
  | _ :: _, [] => false
  end.

(** [x in xs] for a list (or set) of strings. *)
Definition text_in (x : text) (xs : list text) : bool := existsb (text_eqb x) xs.

(** [sep.join(parts)]. *)
Fixpoint join (sep : text) (parts : list text) : text :=
  match parts with
  | [] => []
  | [p] => p
  | p :: ps => p ++ sep ++ join sep ps
  end.

(* ================================================================== *)
(** * Exceptions and results *)
(* ================================================================== *)

(** The exceptions the handlers can meet.  [DatabaseError] stands for every
    error psycopg raises ([OperationalError] when the server cannot be
    reached, [DataError] when a value does not fit its column, ...). *)
Inductive exn : Type :=
| InvalidOperation
| Overflow
| KeyError (key : text)
| DatabaseError.

Inductive res (A : Type) : Type :=
| Ret (a : A)
| Raise (e : exn).
Arguments Ret {A} a.
Arguments Raise {A} e.

(* ================================================================== *)
(** * Python's [decimal.Decimal] *)
(* ================================================================== *)

Inductive Decimal : Type :=
| Fin (neg : bool) (coeff : N) (exp : Z)
| Inf (neg : bool)
| NaN (neg : bool) (signaling : bool) (payload : N).

(** ** Decimal digits *)

Definition isdigit (c : char) : bool := (48 <=? c) && (c <=? 57).

(** [int(ds)] for a string of ASCII digits. *)
Definition digits_val (ds : text) : N :=
  fold_left (fun acc d => 10 * acc + (d - 48)) ds 0.

(** [str(n)] for a natural number; the fuel is the binary size of [n]. *)
Fixpoint digits_fuel (fuel : nat) (n : N) : text :=
  match fuel with
  | O => []
  | S f =>
    if n <? 10 then [48 + n]
    else digits_fuel f (n / 10) ++ [48 + n mod 10]
  end.

Definition str_N (n : N) : text := digits_fuel (S (N.to_nat (N.log2 n))) n.

(** [len(str(n))]. *)
Definition ndigits (n : N) : Z := Z.of_nat (length (str_N n)).

Definition pow10 (k : Z) : N := Z.to_N (10 ^ k).

(** Longest prefix of ASCII digits, and the rest. *)
Fixpoint span_digits (s : text) : text * text :=
  match s with
  | c :: s' =>
    if isdigit c then let (ds, r) := span_digits s' in (c :: ds, r)
    else ([], s)
  | [] => ([], [])
  end.

(** ** Construction from a string

    [Decimal(s)] as CPython's [_decimal] does it on a 64-bit build: the
    string is first brought to ASCII ([numeric_as_ascii]), then read by
    libmpdec's [mpd_qset_string] in the maximal context, and the result
    must be exact there. *)

(** The code points that are the digit zero of a Unicode decimal-digit
    block ([Nd], Unicode 14); each block holds the digits 0 to 9 in order. *)
Definition decimal_zeros : list N :=
  [48; 1632; 1776; 1984; 2406; 2534; 2662; 2790; 2918; 3046; 3174; 3302;
   3430; 3558; 3664; 3792; 3872; 4160; 4240; 6112; 6160; 6470; 6608; 6784;
   6800; 6992; 7088; 7232; 7248; 42528; 43216; 43264; 43472; 43504; 43600;
   44016; 65296; 66720; 68912; 69734; 69872; 69942; 70096; 70384; 70736;
   70864; 71248; 71360; 71472; 71904; 72016; 72784; 73040; 73120; 92768;
   92864; 93008; 120782; 120792; 120802; 120812; 120822; 123200; 123632;
   125264; 130032].

(** [Py_UNICODE_TODECIMAL]. *)
Definition todecimal (c : char) : option N :=
  match find (fun z => (z <=? c) && (c <? z + 10)) decimal_zeros with
  | Some z => Some (c - z)
  | None => None
  end.

Fixpoint ascii_chars (s : text) : option text :=
  match s with
  | [] => Some []
  | c :: s' =>
    if c =? 95 then ascii_chars s'                         (* '_' is skipped *)
    else
      let out :=
        if (0 <? c) && (c <=? 127) then Some c
        else if isspace c then Some 32
        else match todecimal c with
             | Some d => Some (48 + d)
             | None => None
             end in
      match out, ascii_chars s' with
      | Some a, Some r => Some (a :: r)
      | _, _ => None
      end
  end.

Definition numeric_as_ascii (u : text) : option text := ascii_chars (strip u).

(** The limits of the maximal context ([decimal.MAX_EMAX],
    [decimal.MIN_ETINY]). *)
Definition MAX_EMAX : Z := 999999999999999999.
Definition MIN_ETINY : Z := -1999999999999999997.

(** A finite value is exact in the maximal context when its exponent is
    not below [MIN_ETINY] and it does not overflow [MAX_EMAX]. *)
Definition in_maxcontext (c : N) (e : Z) : bool :=
  ((MIN_ETINY <=? e) &&
   (if (c =? 0)%N then e <=? MAX_EMAX else e + ndigits c - 1 <=? MAX_EMAX))%Z.

(** An optional sign. *)
Definition scan_sign (s : text) : bool * text :=
  match s with
  | c :: r =>
    if c =? 43 then (false, r)          (* '+' *)
    else if c =? 45 then (true, r)      (* '-' *)
    else (false, s)
  | [] => (false, s)
  end.

(** The exponent part: nothing, or [e] or [E], an optional sign and at
    least one digit up to the end of the string. *)
Definition scan_exponent (s : text) : option Z :=
  match s with
  | [] => Some 0%Z
  | c :: r =>
    if (c =? 101) || (c =? 69) then
      let (neg, r') := scan_sign r in
      match span_digits r' with
      | ((_ :: _) as ds, []) =>
        let x := Z.of_N (digits_val ds) in Some (if neg then - x else x)%Z
      | _ => None
      end
    else None
  end.

(** The payload of a NaN: digits up to the end of the string. *)
Definition scan_payload (s : text) : option N :=
  match span_digits s with
  | (ds, []) => Some (digits_val ds)
  | _ => None
  end.

(** The fraction: a point and digits, or nothing. *)
Definition scan_fraction (r1 : text) : text * text :=
  match r1 with
  | c :: r => if c =? 46 then span_digits r else ([], r1)
  | [] => ([], r1)
  end.

(** A finite number: digits with at most one point among them, at least
    one digit, then the exponent part. *)
Definition scan_number (neg : bool) (s1 : text) : option Decimal :=
  let (ip, r1) := span_digits s1 in
  let (fp, r2) := scan_fraction r1 in
  match ip ++ fp, scan_exponent r2 with
  | (_ :: _) as ds, Some x =>
    let c := digits_val ds in
    let e := (x - Z.of_nat (length fp))%Z in
    if in_maxcontext c e then Some (Fin neg c e) else None
  | _, _ => None
  end.

(** What follows the sign: a NaN, an infinity, or a finite number. *)
Definition scan_value (neg : bool) (s1 : text) : option Decimal :=
  let l := lower s1 in
  if startswith l (T "nan") then
    option_map (NaN neg false) (scan_payload (skipn 3 s1))
  else if startswith l (T "snan") then
    option_map (NaN neg true) (scan_payload (skipn 4 s1))
  else if text_eqb l (T "inf") || text_eqb l (T "infinity") then
    Some (Inf neg)
  else scan_number neg s1.

Definition Decimal_of_ascii (s : text) : option Decimal :=
  let (neg, s1) := scan_sign s in scan_value neg s1.

(** [Decimal(u)]; every failure is [ConversionSyntax] or an inexact result,
    both raised as [InvalidOperation]. *)
Definition Decimal_of_text (u : text) : res Decimal :=
  match numeric_as_ascii u with
  | Some s =>
    match Decimal_of_ascii s with
    | Some d => Ret d
    | None => Raise InvalidOperation
    end
  | None => Raise InvalidOperation
  end.

(** ** The default context *)

Definition prec : Z := 28.
Definition Emax : Z := 999999.
Definition Emin : Z := -999999.
Definition Etiny : Z := Emin - prec + 1.
Definition Etop : Z := Emax - prec + 1.

(** ** Comparison with zero: [d <= 0]

    An ordering comparison with a NaN signals [InvalidOperation], which the
    default context traps. *)
Definition Decimal_le_0 (d : Decimal) : res bool :=
  match d with
  | NaN _ _ _ => Raise InvalidOperation
  | Inf neg => Ret neg
  | Fin neg c _ => Ret ((c =? 0) || neg)
  end.

(** ** Rounding *)

(** The coefficient of [c * 10^e] at exponent [e'], rounded half to even
    ([ROUND_HALF_EVEN]) when digits are dropped ([Decimal._rescale]; when
    more digits are dropped than [c] has, the result is 0). *)
Definition rescale_half_even (c : N) (e e' : Z) : N :=
  if (e' <=? e)%Z then c * pow10 (e - e')
  else if (ndigits c <? e' - e)%Z then 0
  else
    let p := pow10 (e' - e) in
    let q := c / p in
    let r := c mod p in
    if 2 * r <? p then q
    else if p <? 2 * r then q + 1
    else if N.even q then q else q + 1.

(** The same with ties away from zero, PostgreSQL's rounding of [numeric]. *)
Definition rescale_half_up (c : N) (e e' : Z) : N :=
  if (e' <=? e)%Z then c * pow10 (e - e')
  else if (ndigits c <? e' - e)%Z then 0
  else
    let p := pow10 (e' - e) in
    if 2 * (c mod p) <? p then c / p else c / p + 1.

(** [Decimal._fix]: round a finite result to the context. *)
Definition fix_ (neg : bool) (c : N) (e : Z) : res Decimal :=
  if c =? 0 then Ret (Fin neg 0 (Z.min (Z.max e Etiny) Emax))
  else
    let exp_min := (ndigits c + e - prec)%Z in
    if (Etop <? exp_min)%Z then Raise Overflow
    else
      let exp_min := Z.max exp_min Etiny in
      if (e <? exp_min)%Z then
        let coeff := rescale_half_even c e exp_min in
        let '(coeff, exp_min) :=
          if (prec <? ndigits coeff)%Z then (coeff / 10, (exp_min + 1)%Z)
          else (coeff, exp_min) in
        if (Etop <? exp_min)%Z then Raise Overflow
        else Ret (Fin neg coeff exp_min)
      else Ret (Fin neg c e).

(** A NaN result keeps at most [prec] digits of payload. *)
Definition fix_nan (neg : bool) (payload : N) : Decimal :=
  NaN neg false (payload mod pow10 prec).

(** ** [self.quantize(exp)] *)
Definition quantize (self exp : Decimal) : res Decimal :=
  match self, exp with
  | NaN _ true _, _ => Raise InvalidOperation
  | _, NaN _ true _ => Raise InvalidOperation
  | NaN neg false p, _ => Ret (fix_nan neg p)
  | _, NaN neg false p => Ret (fix_nan neg p)
  | Inf neg, Inf _ => Ret (Inf neg)
  | Inf _, Fin _ _ _ => Raise InvalidOperation
  | Fin _ _ _, Inf _ => Raise InvalidOperation
  | Fin neg c x, Fin _ _ e =>
    if negb ((Etiny <=? e) && (e <=? Emax))%Z then Raise InvalidOperation
    else if c =? 0 then Ret (Fin neg 0 e)
    else
      let adjusted := (x + ndigits c - 1)%Z in
      if (Emax <? adjusted)%Z then Raise InvalidOperation
      else if (prec <? adjusted - e + 1)%Z then Raise InvalidOperation
      else
        let ans := rescale_half_even c x e in
        if (Emax <? e + ndigits ans - 1)%Z then Raise InvalidOperation
        else if (prec <? ndigits ans)%Z then Raise InvalidOperation
        else Ret (Fin neg ans e)
  end.

(** ** Addition: [x + y] *)
Definition signed (neg : bool) (c : N) : Z :=
  if neg then (- Z.of_N c)%Z else Z.of_N c.

Definition Decimal_add (x y : Decimal) : res Decimal :=
  match x, y with
  | NaN _ true _, _ => Raise InvalidOperation
  | _, NaN _ true _ => Raise InvalidOperation
  | NaN neg false p, _ => Ret (fix_nan neg p)
  | _, NaN neg false p => Ret (fix_nan neg p)
  | Inf s1, Inf s2 => if Bool.eqb s1 s2 then Ret (Inf s1) else Raise InvalidOperation
  | Inf s1, Fin _ _ _ => Ret (Inf s1)
  | Fin _ _ _, Inf s2 => Ret (Inf s2)
  | Fin s1 c1 e1, Fin s2 c2 e2 =>
    let e := Z.min e1 e2 in
    let v := (signed s1 (c1 * pow10 (e1 - e)) + signed s2 (c2 * pow10 (e2 - e)))%Z in
    let neg :=
      if (v =? 0)%Z then (c1 =? 0) && (c2 =? 0) && s1 && s2
      else (v <? 0)%Z in
    fix_ neg (Z.abs_N v) e
  end.

(** [sum(ds)]: the built-in starts from the integer 0, which the first
    addition converts to [Decimal(0)]. *)
Fixpoint sum_from (acc : Decimal) (ds : list Decimal) : res Decimal :=
  match ds with
  | [] => Ret acc
  | d :: ds' =>
    match Decimal_add acc d with
    | Ret a => sum_from a ds'
    | Raise e => Raise e
    end
  end.

Definition sum (ds : list Decimal) : res Decimal := sum_from (Fin false 0 0) ds.

(** ** [str(d)] *)

Definition zeros (n : Z) : text := repeat 48 (Z.to_nat n).

(** ["%+d" % n]. *)
Definition str_signed (n : Z) : text :=
  (if (n <? 0)%Z then 45 else 43) :: str_N (Z.abs_N n).

Definition Decimal_str (d : Decimal) : text :=
  match d with
  | Inf neg => (if neg then [45] else []) ++ T "Infinity"
  | NaN neg sig p =>
    (if neg then [45] else []) ++ (if sig then T "sNaN" else T "NaN")
      ++ (if p =? 0 then [] else str_N p)
  | Fin neg c e =>
    let digits := str_N c in
    let len := Z.of_nat (length digits) in
    let leftdigits := (e + len)%Z in
    let dotplace :=
      if ((e <=? 0) && (-6 <? leftdigits))%Z then leftdigits else 1%Z in
    let '(intpart, fracpart) :=
      if (dotplace <=? 0)%Z then
        ([48], 46 :: zeros (- dotplace) ++ digits)
      else if (len <=? dotplace)%Z then
        (digits ++ zeros (dotplace - len), [])
      else
        (firstn (Z.to_nat dotplace) digits,
         46 :: skipn (Z.to_nat dotplace) digits) in
    let exp :=
      if (leftdigits =? dotplace)%Z then []
      else 69 :: str_signed (leftdigits - dotplace) in
    (if neg then [45] else []) ++ intpart ++ fracpart ++ exp
  end.

(* ================================================================== *)
(** * Constants of [bot.py] *)
(* ================================================================== *)

Definition NEEDS_TARGET : Decimal := Fin false 500 0.   (* Decimal("500") *)
Definition WANTS_TARGET : Decimal := Fin false 300 0.   (* Decimal("300") *)

Definition NEEDS_SUBCATS : list text :=
  [T "Food"; T "Subscription"; T "Transport"; T "Groceries"; T "Misc Needs"].
Definition WANTS_SUBCATS : list text :=
  [T "Dining Out"; T "Alcohol"; T "Dates"; T "Gifts"; T "Clothes"; T "Misc Wants"].

Definition nl : text := [10].

Definition MENU_TEXT : text :=
  T "Here’s what I can do:" ++ nl ++
  T "/start → log an expense" ++ nl ++
  T "/needs → see Needs totals" ++ nl ++
  T "/wants → see Wants totals" ++ nl ++
  T "/undo → undo last entry" ++ nl ++
  T "/restart → clear all your data".

(** The conversation states, [range(4)], and [ConversationHandler.END]. *)
Inductive state : Type := AMOUNT | CATEGORY | SUBCATEGORY | LABEL | END.

(** [_fmt_money]: the f-string renders the quantized value with [str]. *)
Definition _fmt_money (x : Decimal) : res text :=
  match quantize x (Fin false 1 (-2)) with
  | Ret q => Ret (T "$" ++ Decimal_str q)
  | Raise e => Raise e
  end.

(* ================================================================== *)
(** * The ledger: the [expenses] table *)
(* ================================================================== *)

(** A value of the column type [NUMERIC(10,2)]: a number of cents of
    absolute value below [10^10], or NaN (which PostgreSQL admits in every
    [numeric] column). *)
Inductive numeric : Type :=
| Cents (z : Z)
| NumNaN.

(** The rows of the table.  [created_at] is left out: no query reads it. *)
Module expenses.

Record row : Type := mk {
  id : Z;                    (* SERIAL PRIMARY KEY *)
  user_id : Z;               (* BIGINT NOT NULL *)
  category : text;           (* TEXT NOT NULL *)
  subcategory : text;        (* TEXT NOT NULL *)
  amount : numeric;          (* NUMERIC(10,2) NOT NULL *)
  label : option text        (* TEXT *)
}.

End expenses.

(** The table in insertion order and the next value of the [SERIAL]
    sequence. *)
Record Store : Type := mkStore {
  rows : list expenses.row;
  next_id : Z
}.

Definition empty_store : Store := mkStore [] 1.

(** The largest value of a [SERIAL] column. *)
Definition SERIAL_MAX : Z := 2147483647.

(** What the server reads of a [Decimal] parameter.  psycopg sends the
    parameter as the text [str(d)] with the type [numeric]; the server
    reads it as a [numeric] without precision before it assigns it to the
    column.  A [numeric] holds at most 16383 digits after the point
    ([NUMERIC_DSCALE_MAX]), and [str(d)] has [-e] of them when the exponent
    [e] is negative; an exponent that does not stay below [INT_MAX / 2] is
    refused as well. *)
Definition NUMERIC_DSCALE_MAX : Z := 16383.

Definition numeric_in (e : Z) : bool :=
  ((- NUMERIC_DSCALE_MAX <=? e) && (e <? 1073741823))%Z.

(** The assignment of a [Decimal] parameter to the column [amount]: once
    read, the value is rounded to two fractional digits, ties away from
    zero; a value with more than eight digits before the point, or an
    infinity, is an error.  Of the NaNs only the plain one, whose text is
    [NaN], is read; a sign, a payload or a signaling NaN is no [numeric]. *)
Definition numeric_10_2 (d : Decimal) : option numeric :=
  match d with
  | NaN false false 0 => Some NumNaN
  | NaN _ _ _ => None
  | Inf _ => None
  | Fin neg c e =>
    if numeric_in e then
      let z := rescale_half_up c e (-2) in
      if z <? 10 ^ 10 then Some (Cents (signed neg z)) else None
    else None
  end.

(** What the server takes for the other columns.  A [TEXT] holds no NUL,
    and psycopg encodes the string as UTF-8, which a surrogate does not
    have; a [BIGINT] is a 64-bit integer. *)
Definition storable_char (c : char) : bool :=
  (0 <? c) && ((c <? 55296) || (57343 <? c)) && (c <=? 1114111).

Definition storable (s : text) : bool := forallb storable_char s.

Definition bigint (z : Z) : bool := ((- 2 ^ 63 <=? z) && (z <? 2 ^ 63))%Z.

Definition label_fits (label : option text) : bool :=
  match label with
  | Some l => storable l
  | None => true                      (* NULL *)
  end.

Definition row_fits (uid : Z) (cat subcat : text) (label : option text) : bool :=
  bigint uid && storable cat && storable subcat && label_fits label.

(** A [numeric] of scale 2 as psycopg loads it. *)
Definition Decimal_of_numeric (n : numeric) : Decimal :=
  match n with
  | Cents z => Fin (z <? 0)%Z (Z.abs_N z) (-2)
  | NumNaN => NaN false false 0
  end.

(** [SUM] adds exactly; NaN absorbs. *)
Definition numeric_add (a b : numeric) : numeric :=
  match a, b with
  | Cents x, Cents y => Cents (x + y)
  | _, _ => NumNaN
  end.

(** [GROUP BY subcategory] with [SUM(amount)]: one group per subcategory,
    here in the order in which the subcategories first occur. *)
Fixpoint group_add (k : text) (v : numeric) (acc : list (text * numeric))
  : list (text * numeric) :=
  match acc with
  | [] => [(k, v)]
  | (k', v') :: acc' =>
    if text_eqb k k' then (k', numeric_add v' v) :: acc'
    else (k', v') :: group_add k v acc'
  end.

Definition group_sum (rs : list expenses.row) : list (text * numeric) :=
  fold_left
    (fun acc r => group_add (expenses.subcategory r) (expenses.amount r) acc)
    rs [].

(** Without [ORDER BY] the server returns the groups in an order of its
    choosing.  A plan names one: [arrange plan l] inserts the elements of
    [l], last to first, at the positions the plan gives. *)
Fixpoint insert_at {A : Type} (n : nat) (x : A) (l : list A) : list A :=
  match n, l with
  | S n', y :: l' => y :: insert_at n' x l'
  | _, _ => x :: l
  end.

Fixpoint arrange {A : Type} (plan : list nat) (l : list A) : list A :=
  match l with
  | [] => []
  | x :: l' => insert_at (hd O plan) x (arrange (tl plan) l')
  end.

(** [ORDER BY id DESC LIMIT 1]. *)
Fixpoint last_by_id (rs : list expenses.row) : option expenses.row :=
  match rs with
  | [] => None
  | r :: rs' =>
    match last_by_id rs' with
    | Some m => if (expenses.id m <? expenses.id r)%Z then Some r else Some m
    | None => Some r
    end
  end.

(** The five statements of [bot.py], indexed by what [db_exec] returns for
    them: the fetched rows for the two [SELECT]s (called with
    [fetch=True]), nothing for the others. *)
Inductive Query : Type -> Type :=
| INSERT (uid : Z) (cat subcat : text) (amt : Decimal) (label : option text)
  : Query unit
| SELECT_SUM (uid : Z) (cat : text) : Query (list (text * Decimal))
| SELECT_LAST (uid : Z) : Query (list (Z * text * text * Decimal))
| DELETE_ID (id : Z) : Query unit
| DELETE_USER (uid : Z) : Query unit.

Definition of_user (uid : Z) (r : expenses.row) : bool :=
  (expenses.user_id r =? uid)%Z.

Definition of_category (cat : text) (r : expenses.row) : bool :=
  text_eqb (expenses.category r) cat.

(** The effect of a statement on the table; [None] is an error raised by
    psycopg or by the server for the data at hand, and leaves the rows as
    they were. *)
Definition execute {A : Type} (q : Query A) (plan : list nat) (st : Store)
  : option (A * Store) :=
  match q in Query A return option (A * Store) with
  | INSERT uid cat subcat amt label =>
    if row_fits uid cat subcat label then
      match numeric_10_2 amt with
      | Some n =>
        if (next_id st <=? SERIAL_MAX)%Z then
          Some (tt, mkStore
                      (rows st
                         ++ [expenses.mk (next_id st) uid cat subcat n label])
                      (next_id st + 1))
        else None
      | None => None
      end
    else None
  | SELECT_SUM uid cat =>
    let groups :=
      group_sum (filter (fun r => of_user uid r && of_category cat r) (rows st)) in
    Some (map (fun g => (fst g, Decimal_of_numeric (snd g))) (arrange plan groups),
          st)
  | SELECT_LAST uid =>
    Some (match last_by_id (filter (of_user uid) (rows st)) with
          | Some r => [(expenses.id r, expenses.category r,
                        expenses.subcategory r,
                        Decimal_of_numeric (expenses.amount r))]
          | None => []
          end, st)
  | DELETE_ID i =>
    Some (tt, mkStore (filter (fun r => negb (expenses.id r =? i)%Z) (rows st))
                      (next_id st))
  | DELETE_USER uid =>
    Some (tt, mkStore (filter (fun r => negb (of_user uid r)) (rows st))
                      (next_id st))
  end.

(* ================================================================== *)
(** * The world of the handlers *)
(* ================================================================== *)

(** [context.user_data]: the dictionary of one user, with the four keys the
    handlers use. *)
Record Session : Type := mkSession {
  amount : option Decimal;     (* user_data["amount"] *)
  cat : option text;           (* user_data["cat"] *)
  subcat : option text;        (* user_data["subcat"] *)
  label : option text          (* user_data["label"] *)
}.

Definition empty_session : Session := mkSession None None None None.

(** What a database call meets: the call fails outright (the server cannot
    be reached, the connection drops before the commit, ...), or it is
    served, with the plan the server follows for an unordered result. *)
Inductive db_event : Type :=
| Fault
| Served (plan : list nat).

(** A reply: its text and its [reply_markup]. *)
Inductive markup : Type :=
| NoMarkup
| ReplyKeyboardMarkup (keyboard : list (list text))
| ReplyKeyboardRemove.

Record Reply : Type := mkReply {
  chat : Z;
  body : text;
  reply_markup : markup
}.

Record World : Type := mkWorld {
  user_data : Z -> Session;        (* one dictionary per user *)
  conv : Z -> option state;        (* the conversations in progress *)
  db : Store;
  sched : list db_event;           (* what the coming database calls meet *)
  sent : list Reply                (* the replies so far, oldest first *)
}.

Definition set_user_data (w : World) (uid : Z) (s : Session) : World :=
  mkWorld (fun u => if (u =? uid)%Z then s else user_data w u)
          (conv w) (db w) (sched w) (sent w).

Definition set_conv (w : World) (uid : Z) (s : option state) : World :=
  mkWorld (user_data w) (fun u => if (u =? uid)%Z then s else conv w u)
          (db w) (sched w) (sent w).

Definition set_db (w : World) (st : Store) : World :=
  mkWorld (user_data w) (conv w) st (sched w) (sent w).

Definition set_sched (w : World) (s : list db_event) : World :=
  mkWorld (user_data w) (conv w) (db w) s (sent w).

Definition add_sent (w : World) (r : Reply) : World :=
  mkWorld (user_data w) (conv w) (db w) (sched w) (sent w ++ [r]).

(** Handlers run in a state monad over the world; an exception ends the
    handler and keeps the effects made so far. *)
Definition M (A : Type) : Type := World -> res A * World.

Definition ret {A : Type} (a : A) : M A := fun w => (Ret a, w).

Definition raise {A : Type} (e : exn) : M A := fun w => (Raise e, w).

Definition bind {A B : Type} (m : M A) (k : A -> M B) : M B :=
  fun w =>
    match m w with
    | (Ret a, w') => k a w'
    | (Raise e, w') => (Raise e, w')
    end.

Notation "x <- m ;; k" := (bind m (fun x => k))
  (at level 61, m at next level, right associativity).
Notation "m ;; k" := (bind m (fun _ => k))
  (at level 61, right associativity).

Definition lift {A : Type} (r : res A) : M A := fun w => (r, w).

(** [update.message.reply_text(body, reply_markup=...)]. *)
Definition reply_text (uid : Z) (body : text) (k : markup) : M unit :=
  fun w => (Ret tt, add_sent w (mkReply uid body k)).

(** [context.user_data[key]], which raises [KeyError] on a missing key. *)
Definition getitem {A : Type} (uid : Z) (field : Session -> option A)
  (key : text) : M A :=
  fun w =>
    match field (user_data w uid) with
    | Some v => (Ret v, w)
    | None => (Raise (KeyError key), w)
    end.

(** [context.user_data.get(key)]. *)
Definition get {A : Type} (uid : Z) (field : Session -> option A)
  : M (option A) :=
  fun w => (Ret (field (user_data w uid)), w).

(** [context.user_data[key] = v], one definition per key. *)
Definition modify (uid : Z) (f : Session -> Session) : M unit :=
  fun w => (Ret tt, set_user_data w uid (f (user_data w uid))).

Definition set_amount (v : Decimal) (s : Session) : Session :=
  mkSession (Some v) (cat s) (subcat s) (label s).
Definition set_cat (v : text) (s : Session) : Session :=
  mkSession (amount s) (Some v) (subcat s) (label s).
Definition set_subcat (v : text) (s : Session) : Session :=
  mkSession (amount s) (cat s) (Some v) (label s).
Definition set_label (v : text) (s : Session) : Session :=
  mkSession (amount s) (cat s) (subcat s) (Some v).

(** [context.user_data.clear()]. *)
Definition clear (uid : Z) : M unit := modify uid (fun _ => empty_session).

(** [db_exec]: connect, execute, then fetch or commit.  The call takes the
    next event of the schedule (an empty schedule serves every call); a
    fault and a server error both raise and leave the table as it was. *)
Definition db_exec {A : Type} (q : Query A) : M A :=
  fun w =>
    let w1 := set_sched w (tl (sched w)) in
    match hd (Served []) (sched w) with
    | Fault => (Raise DatabaseError, w1)
    | Served plan =>
      match execute q plan (db w) with
      | Some (a, st') => (Ret a, set_db w1 st')
      | None => (Raise DatabaseError, w1)
      end
    end.

(* ================================================================== *)
(** * The conversation *)
(* ================================================================== *)

Definition needs_wants_kb : markup :=
  ReplyKeyboardMarkup [[T "Needs"]; [T "Wants"]].

Definition start (uid : Z) : M state :=
  reply_text uid (T "How much did you spend? (e.g., 12.50)") ReplyKeyboardRemove ;;
  ret AMOUNT.

(** The body of the [try] block of [get_amount]. *)
Definition parse_amount (txt : text) : res Decimal :=
  match Decimal_of_text txt with
  | Ret amt =>
    match Decimal_le_0 amt with
    | Ret true => Raise InvalidOperation
    | Ret false => Ret amt
    | Raise e => Raise e
    end
  | Raise e => Raise e
  end.

Definition get_amount (uid : Z) (txt : text) : M state :=
  match parse_amount txt with
  | Raise _ =>
    reply_text uid (T "Please enter a valid positive number.") NoMarkup ;;
    ret AMOUNT
  | Ret amt =>
    modify uid (set_amount amt) ;;
    m <- lift (_fmt_money amt) ;;
    reply_text uid
      (T "Amount noted: " ++ m ++ T "." ++ nl ++ T "Is this a Need or a Want?")
      needs_wants_kb ;;
    ret CATEGORY
  end.

(** [[subcats[i:i+2] for i in range(0, len(subcats), 2)]]. *)
Fixpoint pairs_of (l : list text) : list (list text) :=
  match l with
  | a :: b :: l' => [a; b] :: pairs_of l'
  | [a] => [[a]]
  | [] => []
  end.

Definition BACK : text := T "⬅ Back".

Definition subcats_of (choice : text) : list text :=
  if text_eqb choice (T "needs") then NEEDS_SUBCATS else WANTS_SUBCATS.

Definition get_category (uid : Z) (txt : text) : M state :=
  let choice := lower (strip txt) in
  if negb (text_in choice [T "needs"; T "wants"]) then
    reply_text uid (T "Please choose Needs or Wants.") NoMarkup ;;
    ret CATEGORY
  else
    modify uid (set_cat choice) ;;
    let subcats := subcats_of choice in
    reply_text uid (T "Pick a subcategory:")
      (ReplyKeyboardMarkup (pairs_of subcats ++ [[BACK]])) ;;
    ret SUBCATEGORY.

Definition save_expense (uid : Z) : M unit :=
  cat <- getitem uid cat (T "cat") ;;
  subcat <- getitem uid subcat (T "subcat") ;;
  amt <- getitem uid amount (T "amount") ;;
  label <- get uid label ;;
  db_exec (INSERT uid cat subcat amt label) ;;
  m <- lift (_fmt_money amt) ;;
  reply_text uid
    (T "Logged " ++ m ++ T " to " ++ title cat ++ T " → " ++ subcat
       ++ match label with
          | Some ((_ :: _) as l) => T " (" ++ l ++ T ")"
          | _ => []
          end
       ++ T ".")
    ReplyKeyboardRemove ;;
  clear uid.

Definition get_subcategory (uid : Z) (txt : text) : M state :=
  let sub := strip txt in
  cat <- getitem uid cat (T "cat") ;;
  amt <- getitem uid amount (T "amount") ;;
  if text_eqb sub BACK then
    reply_text uid (T "Choose again: Needs or Wants?") needs_wants_kb ;;
    ret CATEGORY
  else
    let valid := subcats_of cat in
    if negb (text_in sub valid) then
      reply_text uid (T "Please pick from the buttons.") NoMarkup ;;
      ret SUBCATEGORY
    else
      modify uid (set_subcat sub) ;;
      if startswith sub (T "Misc") then
        reply_text uid (T "Enter a short label for this Misc item:") NoMarkup ;;
        ret LABEL
      else
        save_expense uid ;;
        ret END.

Definition get_label (uid : Z) (txt : text) : M state :=
  let label := strip txt in
  modify uid (set_label label) ;;
  save_expense uid ;;
  ret END.

(* ================================================================== *)
(** * The commands *)
(* ================================================================== *)

Definition summary (uid : Z) (cat : text) : M unit :=
  rows <- db_exec (SELECT_SUM uid cat) ;;
  match rows with
  | [] => reply_text uid (T "No expenses yet.") NoMarkup
  | _ =>
    total <- lift (sum (map snd rows)) ;;
    let target :=
      if text_eqb cat (T "needs") then NEEDS_TARGET else WANTS_TARGET in
    lines <- lift
      (fold_right
         (fun r acc =>
            match _fmt_money (snd r), acc with
            | Ret m, Ret ls => Ret ((T "• " ++ fst r ++ T ": " ++ m) :: ls)
            | Raise e, _ => Raise e
            | _, Raise e => Raise e
            end)
         (Ret []) rows) ;;
    mt <- lift (_fmt_money total) ;;
    mg <- lift (_fmt_money target) ;;
    reply_text uid
      (T "📊 " ++ title cat ++ T " summary" ++ nl ++ join nl lines
         ++ nl ++ nl ++ T "Total: " ++ mt ++ T " / " ++ mg)
      NoMarkup
  end.

Definition needs (uid : Z) : M unit := summary uid (T "needs").

Definition wants (uid : Z) : M unit := summary uid (T "wants").

Definition undo (uid : Z) : M unit :=
  rows <- db_exec (SELECT_LAST uid) ;;
  match rows with
  | [] => reply_text uid (T "Nothing to undo.") NoMarkup
  | last :: _ =>
    let '(last0, last1, last2, last3) := last in
    db_exec (DELETE_ID last0) ;;
    m <- lift (_fmt_money last3) ;;
    reply_text uid
      (T "Removed last entry: " ++ m ++ T " from " ++ title last1
         ++ T " → " ++ last2 ++ T ".")
      NoMarkup
  end.

Definition restart (uid : Z) : M unit :=
  db_exec (DELETE_USER uid) ;;
  reply_text uid (T "All your data cleared. ✅") NoMarkup.

Definition menu (uid : Z) : M unit := reply_text uid MENU_TEXT NoMarkup.

(* ================================================================== *)
(** * The dispatcher *)
(* ================================================================== *)

(** An incoming text message, as the filters of the handlers see it: a bot
    command ([filters.COMMAND], with the name of the command) or any other
    text ([filters.TEXT & ~filters.COMMAND]).  The chat is the private chat
    of the user, so one number stands for both. *)
Inductive Update : Type :=
| Command (name : text)
| Message (txt : text).

(** [ConversationHandler]: the state a handler returns becomes the state of
    the conversation, [END] closes it, and a handler that raises leaves it
    as it was. *)
Definition conversation (uid : Z) (r : res state * World) : World :=
  match r with
  | (Ret END, w) => set_conv w uid None
  | (Ret s, w) => set_conv w uid (Some s)
  | (Raise _, w) => w
  end.

(** [Application.process_update] over the handlers registered in [main]:
    the conversation comes first, with [/start] as its entry point
    ([allow_reentry=True]) and one text handler per state; then the four
    commands; then [menu] for any other text. *)
Definition process_update (uid : Z) (u : Update) (w : World) : World :=
  match u with
  | Command name =>
    if text_eqb name (T "start") then conversation uid (start uid w)
    else if text_eqb name (T "needs") then snd (needs uid w)
    else if text_eqb name (T "wants") then snd (wants uid w)
    else if text_eqb name (T "undo") then snd (undo uid w)
    else if text_eqb name (T "restart") then snd (restart uid w)
    else w
  | Message txt =>
    match conv w uid with
    | Some AMOUNT => conversation uid (get_amount uid txt w)
    | Some CATEGORY => conversation uid (get_category uid txt w)
    | Some SUBCATEGORY => conversation uid (get_subcategory uid txt w)
    | Some LABEL => conversation uid (get_label uid txt w)
    | Some END | None => snd (menu uid w)
    end
  end.

(** A run of the bot over a sequence of updates. *)
Definition run (us : list (Z * Update)) (w : World) : World :=
  fold_left (fun w u => process_update (fst u) (snd u) w) us w.

(** The bot at start-up, with a given schedule for the database. *)
Definition initial (s : list db_event) : World :=
  mkWorld (fun _ => empty_session) (fun _ => None) empty_store s [].

(* ================================================================== *)
(** * Vocabulary of the statements *)
(* ================================================================== *)

(** A number of cents as digits, a point and two digits: what [str] gives
    for a [Decimal] of exponent -2. *)
Definition two_digits (r : N) : text := [48 + r / 10; 48 + r mod 10].

Definition cents_text (c : N) : text :=
  str_N (c / 100) ++ [46] ++ two_digits (c mod 100).

Definition sign_text (neg : bool) : text := if neg then [45] else [].

(** The confirmation [save_expense] sends. *)
Definition logged_text (m cat subcat : text) (label : option text) : text :=
  T "Logged " ++ m ++ T " to " ++ title cat ++ T " → " ++ subcat
    ++ match label with
       | Some ((_ :: _) as l) => T " (" ++ l ++ T ")"
       | _ => []
       end
    ++ T ".".

(** The world after a successful commit of the row [(cat, subcat, n, label)]
    with confirmation [m]: one event of the schedule is used, the row is
    appended, the confirmation is sent, the session is cleared. *)
Definition committed (w : World) (uid : Z) (cat subcat : text) (n : numeric)
  (label : option text) (m : text) : World :=
  set_user_data
    (add_sent
       (set_db (set_sched w (tl (sched w)))
          (mkStore
             (rows (db w)
                ++ [expenses.mk (next_id (db w)) uid cat subcat n label])
             (next_id (db w) + 1)))
       (mkReply uid (logged_text m cat subcat label) ReplyKeyboardRemove))
    uid empty_session.

(** The insert goes through, for a row that fits ([row_fits]): the call is
    served, the amount fits the column, the sequence is not exhausted. *)
Definition insertable (w : World) (a : Decimal) (n : numeric) : Prop :=
  hd (Served []) (sched w) <> Fault /\
  numeric_10_2 a = Some n /\
  (next_id (db w) <= SERIAL_MAX)%Z.

(** The insert fails: the call meets a fault, or the amount does not fit
    the column, or the sequence is exhausted. *)
Definition uninsertable (w : World) (a : Decimal) : Prop :=
  hd (Served []) (sched w) = Fault \/
  numeric_10_2 a = None \/
  (SERIAL_MAX < next_id (db w))%Z.

Definition back_reply (uid : Z) : Reply :=
  mkReply uid (T "Choose again: Needs or Wants?") needs_wants_kb.

Definition label_prompt (uid : Z) : Reply :=
  mkReply uid (T "Enter a short label for this Misc item:") NoMarkup.


(* ================================================================== *)
(** * Sample runs *)
(* ================================================================== *)

Definition alice : Z := 7.

(** Alice has entered 12.5 and chosen Needs. *)
Definition at_subcategory (s : list db_event) : World :=
  run [(alice, Command (T "start")); (alice, Message (T "12.5"));
       (alice, Message (T "Needs"))]
      (initial s).

(** She has then picked the miscellaneous bucket. *)
Definition at_label (s : list db_event) : World :=
  process_update alice (Message (T "Misc Needs")) (at_subcategory s).


(** ** The ledger *)

(** A value the column [amount] can hold. *)
Definition numeric_ok (n : numeric) : Prop :=
  match n with
  | Cents z => (- 10 ^ 10 < z < 10 ^ 10)%Z
  | NumNaN => True
  end.

(** A stored amount as [_fmt_money] shows it. *)
Definition money_text (n : numeric) : text :=
  match n with
  | Cents z => T "$" ++ sign_text (z <? 0)%Z ++ cents_text (Z.abs_N z)
  | NumNaN => T "$NaN"
  end.

(** The primary key: the ids are distinct and were all drawn from the
    sequence. *)
Definition ids_ok (st : Store) : Prop :=
  NoDup (map expenses.id (rows st)) /\
  Forall (fun r => (expenses.id r < next_id st)%Z) (rows st).

(** No call of the schedule meets a fault. *)
Definition all_served (s : list db_event) : Prop :=
  Forall (fun ev => ev <> Fault) s.

(** The replies of [undo]. *)
Definition removed_reply (uid : Z) (r : expenses.row) : Reply :=
  mkReply uid
    (T "Removed last entry: " ++ money_text (expenses.amount r) ++ T " from "
       ++ title (expenses.category r) ++ T " → " ++ expenses.subcategory r
       ++ T ".")
    NoMarkup.

Definition nothing_reply (uid : Z) : Reply :=
  mkReply uid (T "Nothing to undo.") NoMarkup.

Definition bob : Z := 8.

(** Bob has logged one expense. *)
Definition with_bob : World :=
  run [(bob, Command (T "start")); (bob, Message (T "3"));
       (bob, Message (T "wants")); (bob, Message (T "Gifts"))]
      (initial []).

(** ** Summaries *)

(** The rows [summary] selects: those of the user in the category. *)
Definition selected (uid : Z) (cat : text) (st : Store) : list expenses.row :=
  filter (fun r => of_user uid r && of_category cat r) (rows st).

Definition in_group (k : text) (r : expenses.row) : bool :=
  text_eqb (expenses.subcategory r) k.

Definition cents_of (n : numeric) : Z :=
  match n with
  | Cents z => z
  | NumNaN => 0%Z
  end.

Definition sum_Z (l : list Z) : Z := fold_right Z.add 0%Z l.

(** The exact sum of the amounts of the rows of subcategory [k]. *)
Definition group_total (k : text) (rs : list expenses.row) : Z :=
  sum_Z (map (fun r => cents_of (expenses.amount r)) (filter (in_group k) rs)).

(** The sum listed for [k], if any. *)
Definition assoc (k : text) (l : list (text * numeric)) : option numeric :=
  option_map snd (find (fun g => text_eqb (fst g) k) l).

(** The rows hold finite amounts of the column type. *)
Definition finite_amount (r : expenses.row) : Prop :=
  exists z, expenses.amount r = Cents z /\ (- 10 ^ 10 < z < 10 ^ 10)%Z.

(** The table as the bot keeps it: a primary key drawn from the sequence,
    finite amounts, and no more rows than ids handed out. *)
Definition store_ok (st : Store) : Prop :=
  ids_ok st /\
  Forall finite_amount (rows st) /\
  (Z.of_nat (length (rows st)) < next_id st <= SERIAL_MAX + 1)%Z.

(** The text of a summary over the listed groups. *)
Definition summary_line (g : text * numeric) : text :=
  T "• " ++ fst g ++ T ": " ++ money_text (snd g).

Definition summary_text (cat : text) (groups : list (text * numeric)) : text :=
  T "📊 " ++ title cat ++ T " summary" ++ nl
    ++ join nl (map summary_line groups)
    ++ nl ++ nl ++ T "Total: "
    ++ money_text (Cents (sum_Z (map (fun g => cents_of (snd g)) groups)))
    ++ T " / "
    ++ (if text_eqb cat (T "needs") then T "$500.00" else T "$300.00").

Definition summary_reply (uid : Z) (cat : text) (groups : list (text * numeric))
  : Reply :=
  mkReply uid
    match groups with
    | [] => T "No expenses yet."
    | _ => summary_text cat groups
    end
    NoMarkup.

(** The absolute amounts listed, added up: a bound for every partial sum. *)
Definition mass (l : list (text * numeric)) : Z :=
  sum_Z (map (fun g => Z.abs (cents_of (snd g))) l).

Definition abs_total (rs : list expenses.row) : Z :=
  sum_Z (map (fun r => Z.abs (cents_of (expenses.amount r))) rs).

(** A number of cents as psycopg loads it. *)
Definition dec_cents (z : Z) : Decimal := Decimal_of_numeric (Cents z).

(** Alice logs 10.00 and 5.50 under Food and 2.00 under Transport, all
    Needs; the three inserts are served and [s] is what the later calls
    meet. *)
Definition ledger_example (s : list db_event) : World :=
  run [(alice, Command (T "start")); (alice, Message (T "10.00"));
       (alice, Message (T "Needs")); (alice, Message (T "Food"));
       (alice, Command (T "start")); (alice, Message (T "5.50"));
       (alice, Message (T "Needs")); (alice, Message (T "Food"));
       (alice, Command (T "start")); (alice, Message (T "2.00"));
       (alice, Message (T "Needs")); (alice, Message (T "Transport"))]
      (initial (Served [] :: Served [] :: Served [] :: s)).

(** ** Amounts *)

(** Standard decimal notation, as in [12], [12.5], [.5], [12.] or [-3.20]:
    an optional sign, digits, and possibly a point followed by digits, with
    at least one digit in all.  [neg] tells a minus sign, [ip] and [fp] are
    the digits before and after the point. *)
Definition standard_decimal (s : text) (neg : bool) (ip fp : text) : Prop :=
  forallb isdigit ip = true /\
  forallb isdigit fp = true /\
  ip ++ fp <> [] /\
  exists sign point,
    ((sign = [] /\ neg = false) \/ (sign = [43] /\ neg = false)
     \/ (sign = [45] /\ neg = true)) /\
    (point = [46] \/ (point = [] /\ fp = [])) /\
    s = sign ++ ip ++ point ++ fp.


(** The replies of [get_amount]. *)
Definition invalid_reply (uid : Z) : Reply :=
  mkReply uid (T "Please enter a valid positive number.") NoMarkup.

Definition noted_reply (uid : Z) (m : text) : Reply :=
  mkReply uid
    (T "Amount noted: " ++ m ++ T "." ++ nl ++ T "Is this a Need or a Want?")
    needs_wants_kb.

(** The characters a numeric string is made of. *)
Definition isletter (c : char) : bool := isupper c || islower c.

Definition numeric_char (c : char) : bool :=
  isdigit c || isletter c || (c =? 43) || (c =? 45) || (c =? 46).


(** [get_amount] rejects [txt]: it asks again, the next state is [AMOUNT],
    and nothing else changes. *)
Definition rejected (uid : Z) (txt : text) (w : World) : Prop :=
  get_amount uid txt w = (Ret AMOUNT, add_sent w (invalid_reply uid)).

(** A plain number of 27 digits: ten to the 26. *)
Definition ten_to_26 : text := T "100000000000000000000000000".

(** ** Runs that end in a commit *)

(** Alice logs a tenth of a cent under Food. *)
Definition tenth_of_a_cent : World :=
  run [(alice, Command (T "start")); (alice, Message (T "0.001"));
       (alice, Message (T "Needs")); (alice, Message (T "Food"))]
      (initial []).

(** Alice enters an amount the column cannot hold, with a label; the commit
    fails.  She starts again and logs 5 under Food. *)
Definition after_failed_commit : World :=
  run [(alice, Command (T "start")); (alice, Message (T "100000000"));
       (alice, Message (T "Needs")); (alice, Message (T "Misc Needs"));
       (alice, Message (T "x"));
       (alice, Command (T "start")); (alice, Message (T "5"));
       (alice, Message (T "Needs")); (alice, Message (T "Food"))]
      (initial []).

(** ** What holds of every world the bot reaches *)

(** An amount [get_amount] accepts. *)
Definition good_amount (a : Decimal) : Prop :=
  exists c e,
    a = Fin false c e /\ 0 < c /\ rescale_half_even c e (-2) < pow10 28.

Definition good_category (c : text) : Prop := c = T "needs" \/ c = T "wants".

(** What the session of a user holds in each state of the conversation. *)
Definition session_ok (st : option state) (s : Session) : Prop :=
  match st with
  | Some CATEGORY => exists a, amount s = Some a /\ good_amount a
  | Some SUBCATEGORY =>
    (exists a, amount s = Some a /\ good_amount a) /\
    (exists c, cat s = Some c /\ good_category c)
  | Some LABEL =>
    (exists a, amount s = Some a /\ good_amount a) /\
    (exists c k,
       cat s = Some c /\ good_category c /\ subcat s = Some k /\
       text_in k (subcats_of c) = true /\ startswith k (T "Misc") = true)
  | Some END => False
  | Some AMOUNT | None => True
  end.

(** What holds of every committed row: the part of the invariant of the
    specification that the code keeps. *)
Definition row_ok (r : expenses.row) : Prop :=
  good_category (expenses.category r) /\
  text_in (expenses.subcategory r) (subcats_of (expenses.category r)) = true /\
  (exists z, expenses.amount r = Cents z /\ (0 <= z < 10 ^ 10)%Z) /\
  (startswith (expenses.subcategory r) (T "Misc") = true ->
   expenses.label r <> None).

Definition store_good (st : Store) : Prop :=
  store_ok st /\ Forall row_ok (rows st).

Definition Inv (w : World) : Prop :=
  store_good (db w) /\ forall uid, session_ok (conv w uid) (user_data w uid).

Definition reachable (w : World) : Prop :=
  exists us s, w = run us (initial s).

(** A handler that leaves sessions and conversations alone and keeps the
    table good. *)
Definition frame (w w' : World) : Prop :=
  user_data w' = user_data w /\ conv w' = conv w /\
  (store_good (db w) -> store_good (db w')).

Definition framed {A : Type} (m : M A) : Prop := forall w, frame w (snd (m w)).

(* ================================================================== *)
(** * Vocabulary of the further properties *)
(* ================================================================== *)

(** ** Keyboards *)

(** The rows of the keyboard as the comprehension of [get_category] builds
    them: [[subcats[i:i+2] for i in range(0, len(subcats), 2)]]. *)
Definition slices2 (l : list text) : list (list text) :=
  map (fun k => firstn 2 (skipn (2 * k) l))
      (seq 0 ((length l + 1) / 2)%nat).

(** The buttons of a keyboard, row by row. *)
Definition buttons (k : markup) : list text :=
  match k with
  | ReplyKeyboardMarkup rows => concat rows
  | _ => []
  end.

(** The replies of [get_category] and of [get_subcategory] to a choice. *)
Definition pick_reply (uid : Z) (choice : text) : Reply :=
  mkReply uid (T "Pick a subcategory:")
    (ReplyKeyboardMarkup (pairs_of (subcats_of choice) ++ [[BACK]])).

Definition choose_reply (uid : Z) : Reply :=
  mkReply uid (T "Please choose Needs or Wants.") NoMarkup.

Definition buttons_reply (uid : Z) : Reply :=
  mkReply uid (T "Please pick from the buttons.") NoMarkup.

(** ** More sample runs *)

(** Alice has entered 12.5 and is asked for the category. *)
Definition at_category (s : list db_event) : World :=
  run [(alice, Command (T "start")); (alice, Message (T "12.5"))] (initial s).

(** ** What the handlers of one user leave alone *)

(** From [w] to [w'] only [uid] was served: the primary key stays sound,
    the sessions and the rows of the other users are as they were, no
    conversation state was touched, and every new reply went to [uid]. *)
Definition own (uid : Z) (w w' : World) : Prop :=
  ids_ok (db w) ->
  ids_ok (db w') /\
  (forall v, v <> uid -> user_data w' v = user_data w v) /\
  conv w' = conv w /\
  (forall v, v <> uid ->
     filter (of_user v) (rows (db w')) = filter (of_user v) (rows (db w))) /\
  exists new, sent w' = sent w ++ new /\ Forall (fun r => chat r = uid) new.

Definition owned {A : Type} (uid : Z) (m : M A) : Prop :=
  forall w, own uid w (snd (m w)).

(** Nothing of [v] changed from [w] to [w']: the session, the state of the
    conversation and the rows of [v] are the same, and no new reply went
    to [v]. *)
Definition kept (v : Z) (w w' : World) : Prop :=
  user_data w' v = user_data w v /\
  conv w' v = conv w v /\
  filter (of_user v) (rows (db w')) = filter (of_user v) (rows (db w)) /\
  exists new, sent w' = sent w ++ new /\ Forall (fun r => chat r <> v) new.

(** ** Replies of the commands *)

Definition start_reply (uid : Z) : Reply :=
  mkReply uid (T "How much did you spend? (e.g., 12.50)") ReplyKeyboardRemove.

Definition cleared_reply (uid : Z) : Reply :=
  mkReply uid (T "All your data cleared. ✅") NoMarkup.

Definition no_expenses_reply (uid : Z) : Reply :=
  mkReply uid (T "No expenses yet.") NoMarkup.

(** The name of one of the four commands that go to the database. *)
Definition ledger_command (name : text) : bool :=
  text_in name [T "needs"; T "wants"; T "undo"; T "restart"].

(** Bob has logged one expense, then Alice one. *)
Definition two_users : World :=
  run [(alice, Command (T "start")); (alice, Message (T "5"));
       (alice, Message (T "wants")); (alice, Message (T "Gifts"))]
      with_bob.

(** ** An amount the column does not take *)

(** The conversation of [uid] is past the amount, and the amount in the
    session is [a]. *)
Definition holds_amount (uid : Z) (a : Decimal) (w : World) : Prop :=
  amount (user_data w uid) = Some a /\
  exists st, conv w uid = Some st /\ st <> AMOUNT.

(** Alice has entered a hundred million and chosen Needs. *)
Definition hundred_million : World :=
  run [(alice, Command (T "start")); (alice, Message (T "100000000"));
       (alice, Message (T "Needs"))] (initial []).

(** ** Text *)

(** A text that neither begins nor ends with whitespace. *)
Definition trimmed (s : text) : Prop :=
  match s with [] => True | c :: _ => isspace c = false end /\
  match rev s with [] => True | c :: _ => isspace c = false end.

Definition menu_reply (uid : Z) : Reply := mkReply uid MENU_TEXT NoMarkup.

(** ** The schedule *)

(** A handler after which a schedule without faults is still without
    faults. *)
Definition serves {A : Type} (m : M A) : Prop :=
  forall w, all_served (sched w) -> all_served (sched (snd (m w))).
(* ================================================================== *)
(** * Lemmas: text *)
(* ================================================================== *)

Lemma text_eqb_eq (a b : text) : text_eqb a b = true <-> a = b.
Proof.
  revert b; induction a as [|x a IH]; intros [|y b]; simpl;
    try (split; [discriminate | congruence]); try tauto.
  rewrite andb_true_iff, N.eqb_eq, IH.
  split; [intros [-> ->]; reflexivity | intros H; inversion H; auto].
Qed.

Lemma text_eqb_refl (a : text) : text_eqb a a = true.
Proof. apply text_eqb_eq; reflexivity. Qed.

Lemma text_eqb_neq (a b : text) : text_eqb a b = false <-> a <> b.
Proof.
  rewrite <- text_eqb_eq. destruct (text_eqb a b); split; congruence.
Qed.

Lemma lstrip_spaces (s : text) : forallb isspace s = true -> lstrip s = [].
Proof.
  induction s as [|c s IH]; simpl; [reflexivity|].
  rewrite andb_true_iff; intros [-> H]; auto.
Qed.

Lemma strip_spaces (s : text) : forallb isspace s = true -> strip s = [].
Proof.
  intros H. unfold strip, rstrip. rewrite (lstrip_spaces s H). reflexivity.
Qed.

(* ================================================================== *)
(** * Lemmas: decimal digits *)
(* ================================================================== *)

Lemma digits_fuel_enough (f1 f2 : nat) (n : N) :
  (0 < f1)%nat -> (0 < f2)%nat ->
  n < 2 ^ N.of_nat f1 -> n < 2 ^ N.of_nat f2 ->
  digits_fuel f1 n = digits_fuel f2 n.
Proof.
  revert f2 n; induction f1 as [|f1 IH]; intros f2 n P1 P2 H1 H2; [lia|].
  destruct f2 as [|f2]; [lia|].
  simpl digits_fuel. destruct (n <? 10) eqn:E; [reflexivity|].
  apply N.ltb_ge in E.
  rewrite Nat2N.inj_succ, N.pow_succ_r' in H1, H2.
  assert (0 < n / 10) by (apply N.div_str_pos; lia).
  assert (n / 10 < 2 ^ N.of_nat f1) by (apply N.Div0.div_lt_upper_bound; lia).
  assert (n / 10 < 2 ^ N.of_nat f2) by (apply N.Div0.div_lt_upper_bound; lia).
  rewrite (IH f2); [reflexivity| | |assumption|assumption].
  - destruct f1; [simpl in *; lia|lia].
  - destruct f2; [simpl in *; lia|lia].
Qed.

Lemma lt_pow2_log2 (n : N) : n < 2 ^ N.of_nat (S (N.to_nat (N.log2 n))).
Proof.
  rewrite Nat2N.inj_succ, N2Nat.id.
  destruct n as [|p]; [reflexivity|].
  apply N.log2_spec. reflexivity.
Qed.

Lemma str_N_small (n : N) : n < 10 -> str_N n = [48 + n].
Proof.
  intros H. unfold str_N. simpl.
  apply N.ltb_lt in H. rewrite H. reflexivity.
Qed.

Lemma str_N_step (n : N) :
  10 <= n -> str_N n = str_N (n / 10) ++ [48 + n mod 10].
Proof.
  intros H. unfold str_N at 1. simpl.
  apply N.ltb_ge in H. rewrite H. apply N.ltb_ge in H.
  f_equal. unfold str_N.
  assert (0 < n / 10) by (apply N.div_str_pos; lia).
  pose proof (lt_pow2_log2 n) as L.
  rewrite Nat2N.inj_succ, N.pow_succ_r' in L.
  assert (n / 10 < 2 ^ N.of_nat (N.to_nat (N.log2 n)))
    by (apply N.Div0.div_lt_upper_bound; lia).
  apply digits_fuel_enough; try lia.
  - destruct (N.to_nat (N.log2 n)); [simpl in *; lia|lia].
  - apply lt_pow2_log2.
Qed.

(** [lia] is given the quotient and remainder by ten as plain variables. *)
Ltac divmod10 n :=
  pose proof (N.Div0.div_mod n 10);
  pose proof (N.mod_upper_bound n 10 ltac:(discriminate));
  let q := fresh "q" in
  let r := fresh "r" in
  set (q := n / 10) in *; set (r := n mod 10) in *; clearbody q r.

(** Induction along the decimal digits of a number. *)
Lemma digits_ind (P : N -> Prop) :
  (forall n, n < 10 -> P n) ->
  (forall n, 10 <= n -> P (n / 10) -> P n) ->
  forall n, P n.
Proof.
  intros Hsmall Hstep n.
  induction n as [n IH] using (well_founded_induction N.lt_wf_0).
  destruct (N.lt_ge_cases n 10) as [H|H]; [auto|].
  apply Hstep; [assumption|]. apply IH.
  apply N.div_lt; lia.
Qed.

Lemma isdigit_spec (c : char) : isdigit c = true <-> 48 <= c <= 57.
Proof. unfold isdigit. rewrite andb_true_iff, !N.leb_le. tauto. Qed.

Lemma isdigit_of_digit (d : N) : d < 10 -> isdigit (48 + d) = true.
Proof. intros H. apply isdigit_spec. lia. Qed.

Lemma str_N_isdigit (n : N) : forallb isdigit (str_N n) = true.
Proof.
  induction n as [n H|n H IH] using digits_ind.
  - rewrite str_N_small by assumption. cbn [forallb].
    rewrite isdigit_of_digit by assumption. reflexivity.
  - rewrite str_N_step by assumption. rewrite forallb_app, IH. cbn [forallb].
    rewrite isdigit_of_digit by (apply N.mod_upper_bound; lia). reflexivity.
Qed.

Lemma digits_val_snoc (ds : text) (d : char) :
  digits_val (ds ++ [d]) = 10 * digits_val ds + (d - 48).
Proof. unfold digits_val. rewrite fold_left_app. reflexivity. Qed.

Lemma digits_val_str_N (n : N) : digits_val (str_N n) = n.
Proof.
  induction n as [n H|n H IH] using digits_ind.
  - rewrite str_N_small by assumption. unfold digits_val; cbn [fold_left]. lia.
  - rewrite str_N_step by assumption. rewrite digits_val_snoc, IH.
    divmod10 n. lia.
Qed.

Lemma str_N_nonempty (n : N) : str_N n <> [].
Proof.
  destruct (N.lt_ge_cases n 10) as [H|H].
  - rewrite str_N_small by assumption. discriminate.
  - rewrite str_N_step by assumption. intros E.
    apply app_eq_nil in E. destruct E; discriminate.
Qed.

(** ** Powers of ten *)

Lemma pow10_0 : pow10 0 = 1.
Proof. reflexivity. Qed.

Lemma pow10_pos (k : Z) : (0 <= k)%Z -> 0 < pow10 k.
Proof.
  intros H. unfold pow10.
  assert (0 < 10 ^ k)%Z by (apply Z.pow_pos_nonneg; lia). lia.
Qed.

Lemma pow10_succ (k : Z) : (0 <= k)%Z -> pow10 (k + 1) = 10 * pow10 k.
Proof.
  intros H. unfold pow10. rewrite Z.pow_add_r by lia.
  assert (0 < 10 ^ k)%Z by (apply Z.pow_pos_nonneg; lia).
  change (10 ^ 1)%Z with 10%Z. lia.
Qed.

Lemma pow10_add (a b : Z) :
  (0 <= a)%Z -> (0 <= b)%Z -> pow10 (a + b) = pow10 a * pow10 b.
Proof.
  intros Ha Hb. unfold pow10. rewrite Z.pow_add_r by lia.
  assert (0 < 10 ^ a)%Z by (apply Z.pow_pos_nonneg; lia).
  assert (0 < 10 ^ b)%Z by (apply Z.pow_pos_nonneg; lia).
  rewrite Z2N.inj_mul by lia. reflexivity.
Qed.

Lemma pow10_le (a b : Z) : (0 <= a <= b)%Z -> pow10 a <= pow10 b.
Proof.
  intros H. unfold pow10.
  assert (10 ^ a <= 10 ^ b)%Z by (apply Z.pow_le_mono_r; lia).
  assert (0 < 10 ^ a)%Z by (apply Z.pow_pos_nonneg; lia).
  lia.
Qed.

Lemma pow10_lt (a b : Z) : (0 <= a < b)%Z -> pow10 a < pow10 b.
Proof.
  intros H. unfold pow10.
  assert (10 ^ a < 10 ^ b)%Z by (apply Z.pow_lt_mono_r; lia).
  assert (0 < 10 ^ a)%Z by (apply Z.pow_pos_nonneg; lia).
  lia.
Qed.

(** The number of digits of [n] places it between two powers of ten. *)
Lemma ndigits_small (n : N) : n < 10 -> ndigits n = 1%Z.
Proof. intros H. unfold ndigits. rewrite str_N_small by assumption. reflexivity. Qed.

Lemma ndigits_step (n : N) : 10 <= n -> ndigits n = (ndigits (n / 10) + 1)%Z.
Proof.
  intros H. unfold ndigits. rewrite str_N_step by assumption.
  rewrite length_app. simpl. lia.
Qed.

Lemma ndigits_pos (n : N) : (1 <= ndigits n)%Z.
Proof.
  induction n as [n H|n H IH] using digits_ind.
  - rewrite ndigits_small by assumption. lia.
  - rewrite ndigits_step by assumption. lia.
Qed.

Lemma ndigits_upper (n : N) : n < pow10 (ndigits n).
Proof.
  induction n as [n H|n H IH] using digits_ind.
  - rewrite ndigits_small by assumption. exact H.
  - rewrite ndigits_step by assumption.
    rewrite pow10_succ by (pose proof (ndigits_pos (n / 10)); lia).
    divmod10 n. lia.
Qed.

Lemma ndigits_lower (n : N) : 0 < n -> pow10 (ndigits n - 1) <= n.
Proof.
  induction n as [n H|n H IH] using digits_ind; intros Hn.
  - rewrite ndigits_small by assumption. change (pow10 (1 - 1)) with 1. lia.
  - rewrite ndigits_step by assumption.
    replace (ndigits (n / 10) + 1 - 1)%Z with (ndigits (n / 10) - 1 + 1)%Z by lia.
    rewrite pow10_succ by (pose proof (ndigits_pos (n / 10)); lia).
    assert (0 < n / 10) by (apply N.div_str_pos; lia).
    specialize (IH H0).
    divmod10 n. lia.
Qed.

(** Conversely, a bound by a power of ten bounds the number of digits. *)
Lemma ndigits_le (n : N) (k : Z) : (1 <= k)%Z -> n < pow10 k -> (ndigits n <= k)%Z.
Proof.
  intros Hk H.
  destruct (N.eq_dec n 0) as [->|Hn]; [rewrite ndigits_small; lia|].
  destruct (Z_le_gt_dec (ndigits n) k) as [L|G]; [assumption|exfalso].
  pose proof (ndigits_lower n ltac:(lia)) as Lo.
  assert (pow10 k <= pow10 (ndigits n - 1)) by (apply pow10_le; lia).
  lia.
Qed.

Lemma ndigits_ge (n : N) (k : Z) : (0 <= k)%Z -> pow10 k <= n -> (k + 1 <= ndigits n)%Z.
Proof.
  intros Hk H.
  destruct (Z_le_gt_dec (k + 1) (ndigits n)) as [L|G]; [assumption|exfalso].
  pose proof (ndigits_upper n) as Up. pose proof (ndigits_pos n).
  assert (pow10 (ndigits n) <= pow10 k) by (apply pow10_le; lia).
  lia.
Qed.

(* ================================================================== *)
(** * Lemmas: rendering money *)
(* ================================================================== *)

Lemma str_N_two (c : N) : 10 <= c < 100 -> str_N c = two_digits c.
Proof.
  intros H. rewrite str_N_step by lia.
  rewrite str_N_small by (apply N.Div0.div_lt_upper_bound; lia).
  reflexivity.
Qed.

Lemma str_N_hundreds (c : N) :
  100 <= c -> str_N c = str_N (c / 100) ++ two_digits (c mod 100).
Proof.
  intros H.
  assert (E1 : c / 100 = c / 10 / 10) by (rewrite N.Div0.div_div; reflexivity).
  assert (E2 : c mod 100 / 10 = (c / 10) mod 10).
  { change 100 with (10 * 10). rewrite N.Div0.mod_mul_r.
    rewrite N.mul_comm, N.div_add by discriminate.
    rewrite (N.div_small (c mod 10)) by (apply N.mod_upper_bound; discriminate).
    reflexivity. }
  assert (E3 : (c mod 100) mod 10 = c mod 10).
  { change 100 with (10 * 10). rewrite N.Div0.mod_mul_r.
    rewrite N.mul_comm, N.Div0.mod_add. apply N.Div0.mod_mod. }
  rewrite str_N_step by lia.
  rewrite (str_N_step (c / 10)) by (apply N.div_le_lower_bound; lia).
  unfold two_digits. rewrite E1, E2, E3, <- app_assoc. reflexivity.
Qed.

Lemma length_two_digits (r : N) : length (two_digits r) = 2%nat.
Proof. reflexivity. Qed.

Lemma firstn_app_exact {A : Type} (a b : list A) (n : nat) :
  n = length a -> firstn n (a ++ b) = a.
Proof.
  intros ->. rewrite firstn_app, Nat.sub_diag, firstn_all. simpl.
  apply app_nil_r.
Qed.

Lemma skipn_app_exact {A : Type} (a b : list A) (n : nat) :
  n = length a -> skipn n (a ++ b) = b.
Proof.
  intros ->. rewrite skipn_app, Nat.sub_diag, skipn_all. reflexivity.
Qed.

Lemma Decimal_str_cents (neg : bool) (c : N) :
  Decimal_str (Fin neg c (-2)) = sign_text neg ++ cents_text c.
Proof.
  unfold Decimal_str, cents_text, sign_text. f_equal.
  destruct (N.lt_ge_cases c 10) as [H1|H1].
  - rewrite (str_N_small c) by assumption.
    rewrite N.div_small, N.mod_small by lia.
    unfold two_digits. rewrite (N.div_small c 10), (N.mod_small c 10) by lia.
    reflexivity.
  - destruct (N.lt_ge_cases c 100) as [H2|H2].
    + rewrite (str_N_two c) by lia.
      rewrite N.div_small, N.mod_small by lia. reflexivity.
    + rewrite (str_N_hundreds c) by assumption.
      pose proof (str_N_nonempty (c / 100)) as NE.
      set (ip := str_N (c / 100)) in *.
      rewrite length_app, length_two_digits.
      assert (L : (0 < length ip)%nat) by (destruct ip; [congruence|simpl; lia]).
      replace (-2 + Z.of_nat (length ip + 2))%Z with (Z.of_nat (length ip)) by lia.
      replace ((-2 <=? 0) && (-6 <? Z.of_nat (length ip)))%Z with true
        by (symmetry; apply andb_true_iff; split; [reflexivity|apply Z.ltb_lt; lia]).
      replace (Z.of_nat (length ip) <=? 0)%Z with false
        by (symmetry; apply Z.leb_gt; lia).
      replace (Z.of_nat (length ip + 2) <=? Z.of_nat (length ip))%Z with false
        by (symmetry; apply Z.leb_gt; lia).
      rewrite Z.eqb_refl, Nat2Z.id, app_nil_r.
      rewrite firstn_app_exact, skipn_app_exact by reflexivity.
      reflexivity.
Qed.

(** ** Rescaling to cents *)

Lemma rescale_same (c : N) (e : Z) : rescale_half_even c e e = c.
Proof.
  unfold rescale_half_even. rewrite Z.leb_refl, Z.sub_diag.
  change (pow10 0) with 1. lia.
Qed.

Lemma rescale_zero (e e' : Z) : rescale_half_even 0 e e' = 0.
Proof.
  unfold rescale_half_even.
  destruct (Z.leb_spec e' e) as [L|L]; [reflexivity|].
  destruct (ndigits 0 <? e' - e)%Z; [reflexivity|].
  cbv zeta. rewrite N.Div0.div_0_l, N.Div0.mod_0_l.
  assert (0 < pow10 (e' - e)) by (apply pow10_pos; lia).
  replace (2 * 0 <? pow10 (e' - e)) with true
    by (symmetry; apply N.ltb_lt; lia).
  reflexivity.
Qed.

(** A positive value is at least [10^adjusted]; so is its rounding. *)
Lemma rescale_lower (c : N) (e e' : Z) :
  0 < c -> (e' <= e + ndigits c - 1)%Z ->
  pow10 (e + ndigits c - 1 - e') <= rescale_half_even c e e'.
Proof.
  intros Hc Hadj. unfold rescale_half_even.
  pose proof (ndigits_lower c Hc) as Lo. pose proof (ndigits_pos c) as Pos.
  destruct (Z.leb_spec e' e) as [L|L].
  - replace (e + ndigits c - 1 - e')%Z with ((ndigits c - 1) + (e - e'))%Z by lia.
    rewrite pow10_add by lia.
    apply N.mul_le_mono_r. assumption.
  - destruct (Z.ltb_spec (ndigits c) (e' - e)) as [S|S]; [lia|].
    set (p := pow10 (e' - e)).
    assert (Pp : 0 < p) by (apply pow10_pos; lia).
    assert (Q : pow10 (e + ndigits c - 1 - e') <= c / p).
    { apply N.div_le_lower_bound; [lia|].
      unfold p. rewrite <- pow10_add by lia.
      replace (e' - e + (e + ndigits c - 1 - e'))%Z with (ndigits c - 1)%Z by lia.
      assumption. }
    cbv zeta.
    destruct (2 * (c mod p) <? p); [assumption|].
    destruct (p <? 2 * (c mod p)); [lia|].
    destruct (N.even (c / p)); lia.
Qed.

Lemma quantize_cents (neg : bool) (c : N) (e : Z) :
  rescale_half_even c e (-2) < pow10 28 ->
  quantize (Fin neg c e) (Fin false 1 (-2))
  = Ret (Fin neg (rescale_half_even c e (-2)) (-2)).
Proof.
  intros B. unfold quantize.
  change (negb ((Etiny <=? -2) && (-2 <=? Emax))%Z) with false. cbv iota.
  destruct (N.eqb_spec c 0) as [->|Hc].
  - rewrite rescale_zero. reflexivity.
  - assert (Hc' : 0 < c) by lia.
    pose proof (ndigits_pos c) as Pos.
    assert (A : (e + ndigits c - 1 <= 25)%Z).
    { destruct (Z_le_gt_dec (e + ndigits c - 1) 25) as [H|H]; [assumption|exfalso].
      pose proof (rescale_lower c e (-2) Hc' ltac:(lia)) as R.
      assert (pow10 28 <= pow10 (e + ndigits c - 1 - -2)) by (apply pow10_le; lia).
      lia. }
    cbv zeta.
    replace (Emax <? e + ndigits c - 1)%Z with false
      by (symmetry; apply Z.ltb_ge; unfold Emax; lia).
    replace (prec <? e + ndigits c - 1 - -2 + 1)%Z with false
      by (symmetry; apply Z.ltb_ge; unfold prec; lia).
    pose proof (ndigits_le _ 28 ltac:(lia) B) as D.
    pose proof (ndigits_pos (rescale_half_even c e (-2))).
    replace (Emax <? -2 + ndigits (rescale_half_even c e (-2)) - 1)%Z with false
      by (symmetry; apply Z.ltb_ge; unfold Emax; lia).
    replace (prec <? ndigits (rescale_half_even c e (-2)))%Z with false
      by (symmetry; apply Z.ltb_ge; unfold prec; lia).
    reflexivity.
Qed.

(** [_fmt_money] of a finite amount whose cents fit 28 digits. *)
Lemma fmt_money_fin (neg : bool) (c : N) (e : Z) :
  rescale_half_even c e (-2) < pow10 28 ->
  _fmt_money (Fin neg c e)
  = Ret (T "$" ++ sign_text neg ++ cents_text (rescale_half_even c e (-2))).
Proof.
  intros B. unfold _fmt_money. rewrite quantize_cents by assumption.
  rewrite Decimal_str_cents. reflexivity.
Qed.

(* ================================================================== *)
(** * Lemmas: the commit *)
(* ================================================================== *)

Lemma save_expense_ok (w : World) (uid : Z) (c s : text) (a : Decimal)
  (n : numeric) (m : text) :
  cat (user_data w uid) = Some c ->
  subcat (user_data w uid) = Some s ->
  amount (user_data w uid) = Some a ->
  insertable w a n ->
  row_fits uid c s (label (user_data w uid)) = true ->
  _fmt_money a = Ret m ->
  save_expense uid w
  = (Ret tt, committed w uid c s n (label (user_data w uid)) m).
Proof.
  intros Hc Hs Ha (Hev & Hn & Hid) Hfit Hm.
  unfold save_expense, bind, getitem, get, db_exec, lift, reply_text, clear, modify.
  rewrite Hc, Hs, Ha.
  destruct (hd (Served []) (sched w)) as [|plan]; [congruence|].
  unfold execute. rewrite Hfit, Hn.
  apply Z.leb_le in Hid. rewrite Hid.
  cbn [db set_sched set_db user_data]. rewrite Hm.
  reflexivity.
Qed.

Lemma save_expense_fails (w : World) (uid : Z) (c s : text) (a : Decimal) :
  cat (user_data w uid) = Some c ->
  subcat (user_data w uid) = Some s ->
  amount (user_data w uid) = Some a ->
  uninsertable w a ->
  save_expense uid w = (Raise DatabaseError, set_sched w (tl (sched w))).
Proof.
  intros Hc Hs Ha Hf. unfold uninsertable in Hf.
  unfold save_expense, bind, getitem, get, db_exec.
  rewrite Hc, Hs, Ha.
  destruct (hd (Served []) (sched w)) as [|plan]; [reflexivity|].
  unfold execute.
  destruct (row_fits uid c s (label (user_data w uid))); [|reflexivity].
  destruct Hf as [Hf|[Hf|Hf]]; [discriminate| |].
  - rewrite Hf. reflexivity.
  - destruct (numeric_10_2 a); [|reflexivity].
    apply Z.leb_gt in Hf. rewrite Hf. reflexivity.
Qed.

(** The choices of the conversation are texts the server takes. *)
Lemma row_fits_choice (uid : Z) (c s : text) (l : option text) :
  bigint uid = true ->
  c = T "needs" \/ c = T "wants" ->
  text_in s (subcats_of c) = true ->
  label_fits l = true ->
  row_fits uid c s l = true.
Proof.
  intros Hu Hc Hs Hl. unfold row_fits. rewrite Hu, Hl.
  assert (H : storable c = true /\ storable s = true).
  { destruct Hc as [-> | ->];
      (split; [reflexivity|]);
      unfold subcats_of, text_in in Hs;
      cbn [text_eqb existsb NEEDS_SUBCATS WANTS_SUBCATS] in Hs;
      repeat (apply orb_true_iff in Hs; destruct Hs as [Hs|Hs]);
      try discriminate; apply text_eqb_eq in Hs; subst s; reflexivity. }
  destruct H as [-> ->]. reflexivity.
Qed.

(** A row the server does not take is an error as well. *)
Lemma save_expense_unfit (w : World) (uid : Z) (c s : text) (a : Decimal) :
  cat (user_data w uid) = Some c ->
  subcat (user_data w uid) = Some s ->
  amount (user_data w uid) = Some a ->
  row_fits uid c s (label (user_data w uid)) = false ->
  save_expense uid w = (Raise DatabaseError, set_sched w (tl (sched w))).
Proof.
  intros Hc Hs Ha Hf.
  unfold save_expense, bind, getitem, get, db_exec.
  rewrite Hc, Hs, Ha.
  destruct (hd (Served []) (sched w)) as [|plan]; [reflexivity|].
  unfold execute. rewrite Hf. reflexivity.
Qed.

Lemma rescale_half_even_le_up (c : N) (e e' : Z) :
  rescale_half_even c e e' <= rescale_half_up c e e'.
Proof.
  unfold rescale_half_even, rescale_half_up.
  destruct (e' <=? e)%Z; [lia|].
  destruct (ndigits c <? e' - e)%Z; [lia|].
  cbv zeta.
  destruct (2 * (c mod pow10 (e' - e)) <? pow10 (e' - e)); [lia|].
  destruct (pow10 (e' - e) <? 2 * (c mod pow10 (e' - e))); [lia|].
  destruct (N.even (c / pow10 (e' - e))); lia.
Qed.

(** An amount that fits the column can be rendered. *)
Lemma fmt_money_storable (neg : bool) (c : N) (e : Z) (n : numeric) :
  numeric_10_2 (Fin neg c e) = Some n ->
  _fmt_money (Fin neg c e)
  = Ret (T "$" ++ sign_text neg ++ cents_text (rescale_half_even c e (-2))).
Proof.
  unfold numeric_10_2. intros H.
  destruct (numeric_in e); [|discriminate].
  destruct (N.ltb_spec (rescale_half_up c e (-2)) (10 ^ 10)) as [L|L];
    [|discriminate].
  apply fmt_money_fin.
  pose proof (rescale_half_even_le_up c e (-2)).
  assert (10 ^ 10 < pow10 28) by reflexivity. lia.
Qed.

(* ================================================================== *)
(** * Lemmas: the handlers of the conversation *)
(* ================================================================== *)

Lemma user_data_set_same (w : World) (uid : Z) (s : Session) :
  user_data (set_user_data w uid s) uid = s.
Proof. simpl. rewrite Z.eqb_refl. reflexivity. Qed.

Lemma conv_set_same (w : World) (uid : Z) (s : option state) :
  conv (set_conv w uid s) uid = s.
Proof. simpl. rewrite Z.eqb_refl. reflexivity. Qed.

(** The back token is not a subcategory. *)
Lemma valid_not_back (c sub : text) :
  text_in sub (subcats_of c) = true -> text_eqb sub BACK = false.
Proof.
  unfold subcats_of, text_in. intros H.
  destruct (text_eqb c (T "needs")); cbn [existsb NEEDS_SUBCATS WANTS_SUBCATS] in H;
    repeat (apply orb_true_iff in H; destruct H as [H|H]);
    try discriminate; apply text_eqb_eq in H; subst sub; reflexivity.
Qed.

Lemma get_subcategory_back (w : World) (uid : Z) (txt c : text) (a : Decimal) :
  cat (user_data w uid) = Some c ->
  amount (user_data w uid) = Some a ->
  strip txt = BACK ->
  get_subcategory uid txt w = (Ret CATEGORY, add_sent w (back_reply uid)).
Proof.
  intros Hc Ha Hb. unfold get_subcategory, bind, getitem.
  rewrite Hc, Ha, Hb, text_eqb_refl. reflexivity.
Qed.

Lemma get_subcategory_misc (w : World) (uid : Z) (txt c : text) (a : Decimal) :
  cat (user_data w uid) = Some c ->
  amount (user_data w uid) = Some a ->
  text_in (strip txt) (subcats_of c) = true ->
  startswith (strip txt) (T "Misc") = true ->
  get_subcategory uid txt w
  = (Ret LABEL,
     add_sent (set_user_data w uid (set_subcat (strip txt) (user_data w uid)))
       (label_prompt uid)).
Proof.
  intros Hc Ha Hv Hm. unfold get_subcategory, bind, getitem.
  rewrite Hc, Ha, (valid_not_back c _ Hv), Hv. cbn [negb].
  unfold modify, reply_text, ret. rewrite Hm. reflexivity.
Qed.

Lemma get_subcategory_plain (w : World) (uid : Z) (txt c : text) (a : Decimal) :
  cat (user_data w uid) = Some c ->
  amount (user_data w uid) = Some a ->
  text_in (strip txt) (subcats_of c) = true ->
  startswith (strip txt) (T "Misc") = false ->
  get_subcategory uid txt w
  = match
      save_expense uid
        (set_user_data w uid (set_subcat (strip txt) (user_data w uid)))
    with
    | (Ret _, w') => (Ret END, w')
    | (Raise e, w') => (Raise e, w')
    end.
Proof.
  intros Hc Ha Hv Hm. unfold get_subcategory, bind at 1 2, getitem.
  rewrite Hc, Ha, (valid_not_back c _ Hv), Hv. cbn [negb].
  unfold bind at 1, modify. rewrite Hm. unfold bind, ret.
  destruct (save_expense uid _) as [[[]|e] w']; reflexivity.
Qed.

Lemma get_label_unfold (w : World) (uid : Z) (txt : text) :
  get_label uid txt w
  = match
      save_expense uid
        (set_user_data w uid (set_label (strip txt) (user_data w uid)))
    with
    | (Ret _, w') => (Ret END, w')
    | (Raise e, w') => (Raise e, w')
    end.
Proof.
  unfold get_label, bind, modify, ret.
  destruct (save_expense uid _) as [[[]|e] w']; reflexivity.
Qed.

(* ================================================================== *)
(** * Back-navigation *)
(* ================================================================== *)

Lemma process_back (w : World) (uid : Z) (txt c : text) (a : Decimal) :
  conv w uid = Some SUBCATEGORY ->
  cat (user_data w uid) = Some c ->
  amount (user_data w uid) = Some a ->
  strip txt = BACK ->
  process_update uid (Message txt) w
  = set_conv (add_sent w (back_reply uid)) uid (Some CATEGORY).
Proof.
  intros Hs Hc Ha Hb. unfold process_update. rewrite Hs.
  rewrite (get_subcategory_back w uid txt c a Hc Ha Hb). reflexivity.
Qed.

(** C7 as stated fails: after the back token the category is still in the
    session. *)
Lemma back_keeps_the_category :
  let w := at_subcategory [] in
  let w' := process_update alice (Message BACK) w in
  conv w alice = Some SUBCATEGORY /\
  conv w' alice = Some CATEGORY /\
  cat (user_data w' alice) = Some (T "needs") /\
  cat (user_data w' alice) <> None.
Proof. vm_compute. repeat split; discriminate. Qed.

(* ================================================================== *)
(** * A commit that fails *)
(* ================================================================== *)

Lemma process_label_fails (w : World) (uid : Z) (txt c s : text)
  (a : Decimal) :
  conv w uid = Some LABEL ->
  cat (user_data w uid) = Some c ->
  subcat (user_data w uid) = Some s ->
  amount (user_data w uid) = Some a ->
  uninsertable w a ->
  process_update uid (Message txt) w
  = set_sched (set_user_data w uid (set_label (strip txt) (user_data w uid)))
      (tl (sched w)).
Proof.
  intros Hl Hc Hs Ha Hf. unfold process_update. rewrite Hl.
  rewrite get_label_unfold.
  rewrite (save_expense_fails _ uid c s a);
    try (rewrite user_data_set_same; assumption); try assumption.
  reflexivity.
Qed.

Lemma process_subcategory_fails (w : World) (uid : Z) (txt c : text)
  (a : Decimal) :
  conv w uid = Some SUBCATEGORY ->
  cat (user_data w uid) = Some c ->
  amount (user_data w uid) = Some a ->
  text_in (strip txt) (subcats_of c) = true ->
  startswith (strip txt) (T "Misc") = false ->
  uninsertable w a ->
  process_update uid (Message txt) w
  = set_sched (set_user_data w uid (set_subcat (strip txt) (user_data w uid)))
      (tl (sched w)).
Proof.
  intros Hs Hc Ha Hv Hm Hf. unfold process_update. rewrite Hs.
  rewrite (get_subcategory_plain w uid txt c a Hc Ha Hv Hm).
  rewrite (save_expense_fails _ uid c (strip txt) a);
    try (rewrite user_data_set_same; assumption); try assumption.
  - reflexivity.
  - rewrite user_data_set_same. reflexivity.
Qed.


(* ================================================================== *)
(** * The label *)
(* ================================================================== *)

Lemma process_label_ok (w : World) (uid : Z) (txt c s : text) (a : Decimal)
  (n : numeric) (m : text) :
  conv w uid = Some LABEL ->
  cat (user_data w uid) = Some c ->
  subcat (user_data w uid) = Some s ->
  amount (user_data w uid) = Some a ->
  insertable w a n ->
  row_fits uid c s (Some (strip txt)) = true ->
  _fmt_money a = Ret m ->
  process_update uid (Message txt) w
  = set_conv
      (committed
         (set_user_data w uid (set_label (strip txt) (user_data w uid)))
         uid c s n (Some (strip txt)) m)
      uid None.
Proof.
  intros Hl Hc Hs Ha Hi Hfit Hm. unfold process_update. rewrite Hl.
  rewrite get_label_unfold.
  rewrite (save_expense_ok _ uid c s a n m);
    try (rewrite user_data_set_same; assumption); try assumption.
  rewrite user_data_set_same. reflexivity.
Qed.



(* ================================================================== *)
(** * Miscellaneous and plain subcategories *)
(* ================================================================== *)

Lemma process_subcategory_misc (w : World) (uid : Z) (txt c : text)
  (a : Decimal) :
  conv w uid = Some SUBCATEGORY ->
  cat (user_data w uid) = Some c ->
  amount (user_data w uid) = Some a ->
  text_in (strip txt) (subcats_of c) = true ->
  startswith (strip txt) (T "Misc") = true ->
  process_update uid (Message txt) w
  = set_conv
      (add_sent (set_user_data w uid (set_subcat (strip txt) (user_data w uid)))
         (label_prompt uid))
      uid (Some LABEL).
Proof.
  intros Hs Hc Ha Hv Hm. unfold process_update. rewrite Hs.
  rewrite (get_subcategory_misc w uid txt c a Hc Ha Hv Hm). reflexivity.
Qed.

Lemma process_subcategory_plain (w : World) (uid : Z) (txt c : text)
  (a : Decimal) (n : numeric) (m : text) :
  conv w uid = Some SUBCATEGORY ->
  cat (user_data w uid) = Some c ->
  amount (user_data w uid) = Some a ->
  text_in (strip txt) (subcats_of c) = true ->
  startswith (strip txt) (T "Misc") = false ->
  insertable w a n ->
  row_fits uid c (strip txt) (label (user_data w uid)) = true ->
  _fmt_money a = Ret m ->
  process_update uid (Message txt) w
  = set_conv
      (committed
         (set_user_data w uid (set_subcat (strip txt) (user_data w uid)))
         uid c (strip txt) n (label (user_data w uid)) m)
      uid None.
Proof.
  intros Hs Hc Ha Hv Hmisc Hi Hfit Hm. unfold process_update. rewrite Hs.
  rewrite (get_subcategory_plain w uid txt c a Hc Ha Hv Hmisc).
  rewrite (save_expense_ok _ uid c (strip txt) a n m);
    try (rewrite user_data_set_same; assumption); try assumption.
  - rewrite user_data_set_same. reflexivity.
  - rewrite user_data_set_same. reflexivity.
Qed.



(* ================================================================== *)
(** * Lemmas: the ledger *)
(* ================================================================== *)

Lemma rescale_half_up_same (c : N) (e : Z) : rescale_half_up c e e = c.
Proof.
  unfold rescale_half_up. rewrite Z.leb_refl, Z.sub_diag.
  change (pow10 0) with 1. lia.
Qed.

Lemma numeric_10_2_ok (a : Decimal) (n : numeric) :
  numeric_10_2 a = Some n -> numeric_ok n.
Proof.
  destruct a as [neg c e|neg|neg sg p]; unfold numeric_10_2; try discriminate.
  - destruct (numeric_in e); [|discriminate].
    destruct (N.ltb_spec (rescale_half_up c e (-2)) (10 ^ 10)) as [L|L];
      [|discriminate].
    intros H; injection H as <-. unfold numeric_ok.
    assert (E : (10 ^ 10)%Z = Z.of_N (10 ^ 10)) by reflexivity.
    rewrite E. unfold signed. destruct neg; lia.
  - destruct neg, sg, p; try discriminate.
    intros H; injection H as <-. exact I.
Qed.

(** A stored amount is rendered without an error. *)
Lemma fmt_money_numeric (n : numeric) :
  numeric_ok n -> _fmt_money (Decimal_of_numeric n) = Ret (money_text n).
Proof.
  destruct n as [z|]; unfold numeric_ok, Decimal_of_numeric, money_text;
    intros H; [|reflexivity].
  rewrite fmt_money_fin; rewrite rescale_same; [reflexivity|].
  assert (E : (10 ^ 10)%Z = Z.of_N (10 ^ 10)) by reflexivity.
  rewrite E in H.
  assert (10 ^ 10 < pow10 28) by reflexivity. lia.
Qed.

Lemma all_served_hd (s : list db_event) :
  all_served s -> hd (Served []) s <> Fault.
Proof. intros H. destruct H; simpl; [discriminate|assumption]. Qed.

Lemma all_served_tl (s : list db_event) : all_served s -> all_served (tl s).
Proof. intros H. destruct H; simpl; [constructor|assumption]. Qed.

Lemma db_exec_insert (w : World) (uid : Z) (c s : text) (a : Decimal)
  (l : option text) (n : numeric) :
  insertable w a n ->
  row_fits uid c s l = true ->
  db_exec (INSERT uid c s a l) w
  = (Ret tt,
     set_db (set_sched w (tl (sched w)))
       (mkStore (rows (db w) ++ [expenses.mk (next_id (db w)) uid c s n l])
          (next_id (db w) + 1))).
Proof.
  intros (Hev & Hn & Hid) Hfit. unfold db_exec.
  destruct (hd (Served []) (sched w)); [congruence|].
  unfold execute. rewrite Hfit, Hn. apply Z.leb_le in Hid. rewrite Hid.
  reflexivity.
Qed.

(** ** The most recent row *)

Lemma last_by_id_snoc (l : list expenses.row) (r : expenses.row) :
  Forall (fun x => (expenses.id x < expenses.id r)%Z) l ->
  last_by_id (l ++ [r]) = Some r.
Proof.
  induction 1 as [|x l Hx Hl IH]; [reflexivity|].
  simpl. rewrite IH.
  replace (expenses.id r <? expenses.id x)%Z with false
    by (symmetry; apply Z.ltb_ge; lia).
  reflexivity.
Qed.

Lemma filter_none {A : Type} (f : A -> bool) (l : list A) :
  Forall (fun x => f x = false) l -> filter f l = [].
Proof.
  induction 1 as [|x l Hx Hl IH]; simpl; [reflexivity|].
  rewrite Hx. assumption.
Qed.

Lemma filter_all {A : Type} (f : A -> bool) (l : list A) :
  Forall (fun x => f x = true) l -> filter f l = l.
Proof.
  induction 1 as [|x l Hx Hl IH]; simpl; [reflexivity|].
  rewrite Hx, IH. reflexivity.
Qed.

(** Deleting by the id of the last row removes that row only. *)
Lemma delete_last (l : list expenses.row) (r : expenses.row) :
  NoDup (map expenses.id (l ++ [r])) ->
  filter (fun x => negb (expenses.id x =? expenses.id r)%Z) (l ++ [r]) = l.
Proof.
  intros ND. rewrite filter_app. simpl. rewrite Z.eqb_refl. simpl.
  rewrite app_nil_r. apply filter_all.
  rewrite map_app in ND. simpl in ND.
  apply Forall_forall. intros x Hx.
  apply negb_true_iff, Z.eqb_neq. intros E.
  apply NoDup_remove_2 in ND. apply ND. rewrite app_nil_r.
  rewrite <- E. apply in_map. assumption.
Qed.

(** One step of [undo] on a user whose rows are [l ++ [r]], [r] the one
    with the largest id, among the rows [base] of the others. *)
Lemma undo_last (w : World) (uid : Z) (base l : list expenses.row)
  (r : expenses.row) :
  rows (db w) = base ++ l ++ [r] ->
  NoDup (map expenses.id (rows (db w))) ->
  Forall (fun x => of_user uid x = false) base ->
  Forall (fun x => of_user uid x = true) l ->
  of_user uid r = true ->
  Forall (fun x => (expenses.id x < expenses.id r)%Z) l ->
  numeric_ok (expenses.amount r) ->
  all_served (sched w) ->
  undo uid w
  = (Ret tt,
     add_sent
       (set_db (set_sched w (tl (tl (sched w))))
          (mkStore (base ++ l) (next_id (db w))))
       (removed_reply uid r)).
Proof.
  intros Hrows ND Hbase Hl Hr Hlt Hn Hs.
  unfold undo, bind, db_exec.
  pose proof (all_served_hd _ Hs) as H1.
  pose proof (all_served_hd _ (all_served_tl _ Hs)) as H2.
  destruct (hd (Served []) (sched w)) as [|p1]; [congruence|].
  cbn [execute]. rewrite Hrows.
  rewrite filter_app, (filter_none _ base Hbase), filter_app, (filter_all _ l Hl).
  cbn [filter app]. rewrite Hr, (last_by_id_snoc l r Hlt).
  cbn [set_db set_sched sched db].
  destruct (hd (Served []) (tl (sched w))) as [|p2]; [congruence|].
  cbn [rows next_id].
  rewrite Hrows, app_assoc in ND |- *. rewrite (delete_last _ r ND).
  unfold lift. rewrite (fmt_money_numeric _ Hn).
  reflexivity.
Qed.

Lemma undo_nothing (w : World) (uid : Z) :
  Forall (fun x => of_user uid x = false) (rows (db w)) ->
  hd (Served []) (sched w) <> Fault ->
  undo uid w = (Ret tt, add_sent (set_sched w (tl (sched w))) (nothing_reply uid)).
Proof.
  intros Hbase H1. unfold undo, bind, db_exec.
  destruct (hd (Served []) (sched w)) as [|p1]; [congruence|].
  cbn [execute]. rewrite (filter_none _ _ Hbase). simpl.
  destruct w as [ud cv [rs nx] sc st]; reflexivity.
Qed.

Lemma ids_ok_insert (st : Store) (uid : Z) (c s : text) (n : numeric)
  (l : option text) :
  ids_ok st ->
  ids_ok (mkStore (rows st ++ [expenses.mk (next_id st) uid c s n l])
            (next_id st + 1)).
Proof.
  intros [ND Lt]. split; cbn [rows next_id].
  - rewrite map_app. cbn [map expenses.id].
    apply NoDup_app; [assumption|repeat constructor; intros []|].
    intros x Hx [<-|[]].
    apply in_map_iff in Hx. destruct Hx as (r & E & Hr).
    rewrite Forall_forall in Lt. specialize (Lt r Hr). lia.
  - apply Forall_app. split.
    + eapply Forall_impl; [|exact Lt]. cbv beta. intros; lia.
    + repeat constructor. cbn [expenses.id]. lia.
Qed.

Lemma NoDup_snoc_remove {A B : Type} (f : A -> B) (l : list A) (r : A) :
  NoDup (map f (l ++ [r])) -> NoDup (map f l).
Proof.
  rewrite map_app. cbn [map]. intros H.
  apply NoDup_remove_1 in H. rewrite app_nil_r in H. assumption.
Qed.

(* ================================================================== *)
(** * Lemmas: grouping *)
(* ================================================================== *)

Lemma insert_at_perm {A : Type} (n : nat) (x : A) (l : list A) :
  Permutation (x :: l) (insert_at n x l).
Proof.
  revert l; induction n as [|n IH]; intros [|y l]; simpl; try reflexivity.
  rewrite perm_swap. constructor. apply IH.
Qed.

Lemma arrange_perm {A : Type} (plan : list nat) (l : list A) :
  Permutation l (arrange plan l).
Proof.
  revert plan; induction l as [|x l IH]; intros plan; simpl; [constructor|].
  rewrite <- insert_at_perm. constructor. apply IH.
Qed.

Lemma arrange_nil {A : Type} (l : list A) : arrange [] l = l.
Proof. induction l as [|x l IH]; simpl; [reflexivity|]. rewrite IH. reflexivity. Qed.

Lemma assoc_group_add (k k' : text) (v : numeric) (acc : list (text * numeric)) :
  assoc k' (group_add k v acc)
  = if text_eqb k k' then
      Some match assoc k acc with
           | Some v' => numeric_add v' v
           | None => v
           end
    else assoc k' acc.
Proof.
  unfold assoc. induction acc as [|[k0 v0] acc IH]; simpl.
  - destruct (text_eqb k k'); reflexivity.
  - destruct (text_eqb k k0) eqn:E0; simpl.
    + apply text_eqb_eq in E0. subst k0.
      rewrite text_eqb_refl. simpl.
      destruct (text_eqb k k'); reflexivity.
    + replace (text_eqb k0 k) with false
        by (symmetry; apply text_eqb_neq; apply text_eqb_neq in E0; congruence).
      destruct (text_eqb k0 k') eqn:E1; simpl.
      * apply text_eqb_eq in E1. subst k0. rewrite E0. reflexivity.
      * exact IH.
Qed.

Lemma keys_group_add (k : text) (v : numeric) (acc : list (text * numeric)) :
  map fst (group_add k v acc)
  = if text_in k (map fst acc) then map fst acc else map fst acc ++ [k].
Proof.
  unfold text_in. induction acc as [|[k0 v0] acc IH]; simpl; [reflexivity|].
  destruct (text_eqb k k0); simpl; [reflexivity|].
  rewrite IH. destruct (existsb (text_eqb k) (map fst acc)); reflexivity.
Qed.

Lemma text_in_In (k : text) (l : list text) : text_in k l = true <-> In k l.
Proof.
  unfold text_in. rewrite existsb_exists. split.
  - intros (x & Hx & E). apply text_eqb_eq in E. subst. assumption.
  - intros H. exists k. split; [assumption|apply text_eqb_refl].
Qed.

Lemma NoDup_keys_group_add (k : text) (v : numeric) (acc : list (text * numeric)) :
  NoDup (map fst acc) -> NoDup (map fst (group_add k v acc)).
Proof.
  intros ND. rewrite keys_group_add.
  destruct (text_in k (map fst acc)) eqn:E; [assumption|].
  apply NoDup_app; [assumption|repeat constructor; intros []|].
  intros x Hx [<-|[]].
  apply text_in_In in Hx. congruence.
Qed.

Lemma sum_Z_app (a b : list Z) : sum_Z (a ++ b) = (sum_Z a + sum_Z b)%Z.
Proof. unfold sum_Z. induction a as [|x a IH]; simpl; lia. Qed.

Lemma group_total_snoc (k : text) (rs : list expenses.row) (r : expenses.row) :
  group_total k (rs ++ [r])
  = (group_total k rs
     + if in_group k r then cents_of (expenses.amount r) else 0)%Z.
Proof.
  unfold group_total. rewrite filter_app, map_app, sum_Z_app. simpl.
  destruct (in_group k r); simpl; lia.
Qed.

Lemma group_total_absent (k : text) (rs : list expenses.row) :
  existsb (in_group k) rs = false -> group_total k rs = 0%Z.
Proof.
  intros H. unfold group_total. rewrite filter_none; [reflexivity|].
  apply Forall_forall. intros x Hx.
  destruct (in_group k x) eqn:E; [|reflexivity].
  assert (existsb (in_group k) rs = true)
    by (apply existsb_exists; exists x; auto).
  congruence.
Qed.

(** What [GROUP BY] with [SUM] computes, read off the rows. *)
Lemma group_sum_spec (rs : list expenses.row) :
  Forall finite_amount rs ->
  NoDup (map fst (group_sum rs)) /\
  forall k,
    assoc k (group_sum rs)
    = if existsb (in_group k) rs then Some (Cents (group_total k rs)) else None.
Proof.
  unfold group_sum. induction rs as [|r rs IH] using rev_ind; intros Hf.
  - split; [constructor|reflexivity].
  - apply Forall_app in Hf. destruct Hf as [Hf Hr].
    destruct (IH Hf) as [ND A]. rewrite fold_left_app. cbn [fold_left].
    split; [apply NoDup_keys_group_add; assumption|].
    intros k. rewrite assoc_group_add, existsb_app, group_total_snoc.
    cbn [existsb]. rewrite orb_false_r.
    inversion Hr as [|? ? (z & Ez & _) _]; subst. rewrite Ez.
    destruct (in_group k r) eqn:E; unfold in_group in E; rewrite E.
    + apply text_eqb_eq in E. subst k. rewrite A, orb_true_r.
      destruct (existsb (in_group (expenses.subcategory r)) rs) eqn:X;
        cbn [numeric_add cents_of]; [reflexivity|].
      rewrite (group_total_absent _ _ X). reflexivity.
    + rewrite A, orb_false_r, Z.add_0_r. reflexivity.
Qed.

Lemma assoc_In (k : text) (v : numeric) (l : list (text * numeric)) :
  NoDup (map fst l) -> (In (k, v) l <-> assoc k l = Some v).
Proof.
  unfold assoc. induction l as [|[k0 v0] l IH]; simpl; intros ND.
  - split; [intros []|discriminate].
  - inversion ND as [|? ? Hnotin ND']; subst.
    destruct (text_eqb k0 k) eqn:E; simpl.
    + apply text_eqb_eq in E. subst k0. split.
      * intros [H|H]; [congruence|].
        exfalso. apply Hnotin. change k with (fst (k, v)). apply in_map. assumption.
      * intros H. left. congruence.
    + rewrite <- (IH ND'). apply text_eqb_neq in E. split.
      * intros [H|H]; [congruence|assumption].
      * intros H. right. assumption.
Qed.

(** ** Exact sums *)

Lemma fix_small (neg : bool) (c : N) :
  c < pow10 28 -> fix_ neg c (-2) = Ret (Fin neg c (-2)).
Proof.
  intros B. unfold fix_.
  destruct (N.eqb_spec c 0) as [->|Hc]; [reflexivity|].
  pose proof (ndigits_le c 28 ltac:(lia) B) as D.
  pose proof (ndigits_pos c) as P.
  cbv zeta.
  replace (Etop <? ndigits c + -2 - prec)%Z with false
    by (symmetry; apply Z.ltb_ge; unfold Etop, Emax, prec; lia).
  replace (-2 <? Z.max (ndigits c + -2 - prec) Etiny)%Z with false
    by (symmetry; apply Z.ltb_ge; unfold Etiny, Emin, prec; lia).
  reflexivity.
Qed.

Lemma Z_pow10_28 : Z.of_N (pow10 28) = (10 ^ 28)%Z.
Proof. reflexivity. Qed.

Lemma add_cents (x y : Z) :
  (Z.abs (x + y) < 10 ^ 28)%Z ->
  Decimal_add (Decimal_of_numeric (Cents x)) (Decimal_of_numeric (Cents y))
  = Ret (Decimal_of_numeric (Cents (x + y))).
Proof.
  intros B. unfold Decimal_of_numeric, Decimal_add.
  change (Z.min (-2) (-2)) with (-2)%Z. change (pow10 (-2 - -2)) with 1.
  rewrite !N.mul_1_r.
  assert (Ex : signed (x <? 0)%Z (Z.abs_N x) = x)
    by (unfold signed; destruct (Z.ltb_spec x 0); lia).
  assert (Ey : signed (y <? 0)%Z (Z.abs_N y) = y)
    by (unfold signed; destruct (Z.ltb_spec y 0); lia).
  rewrite Ex, Ey. cbv zeta.
  assert (En : (if (x + y =? 0)%Z
                then (Z.abs_N x =? 0) && (Z.abs_N y =? 0) && (x <? 0)%Z && (y <? 0)%Z
                else (x + y <? 0)%Z) = (x + y <? 0)%Z).
  { destruct (Z.eqb_spec (x + y) 0) as [E|E]; [|reflexivity].
    rewrite E. simpl.
    destruct (N.eqb_spec (Z.abs_N x) 0) as [X|X]; [|reflexivity].
    assert (x = 0%Z) by lia. subst x.
    rewrite andb_false_r. reflexivity. }
  rewrite En. apply fix_small.
  pose proof Z_pow10_28. lia.
Qed.

Lemma add_to_zero (y : Z) :
  (Z.abs y < 10 ^ 28)%Z ->
  Decimal_add (Fin false 0 0) (Decimal_of_numeric (Cents y))
  = Ret (Decimal_of_numeric (Cents y)).
Proof.
  intros B. unfold Decimal_of_numeric, Decimal_add.
  change (Z.min 0 (-2)) with (-2)%Z. change (pow10 (-2 - -2)) with 1.
  rewrite N.mul_0_l, N.mul_1_r.
  assert (Ey : signed (y <? 0)%Z (Z.abs_N y) = y)
    by (unfold signed; destruct (Z.ltb_spec y 0); lia).
  rewrite Ey. change (signed false 0) with 0%Z. rewrite Z.add_0_l. cbv zeta.
  assert (En : (if (y =? 0)%Z then (0 =? 0) && (Z.abs_N y =? 0) && false && (y <? 0)%Z
                else (y <? 0)%Z) = (y <? 0)%Z)
    by (destruct (Z.eqb_spec y 0) as [->|]; reflexivity).
  rewrite En. apply fix_small.
  pose proof Z_pow10_28. lia.
Qed.

Lemma sum_Z_cons (x : Z) (l : list Z) : sum_Z (x :: l) = (x + sum_Z l)%Z.
Proof. reflexivity. Qed.

Lemma sum_Z_abs_nonneg (zs : list Z) : (0 <= sum_Z (map Z.abs zs))%Z.
Proof.
  induction zs as [|z zs IH]; [reflexivity|].
  cbn [map]. rewrite sum_Z_cons. lia.
Qed.

Lemma sum_from_cents (zs : list Z) (acc : Z) :
  (Z.abs acc + sum_Z (map Z.abs zs) < 10 ^ 28)%Z ->
  sum_from (dec_cents acc) (map dec_cents zs) = Ret (dec_cents (acc + sum_Z zs)).
Proof.
  revert acc; induction zs as [|z zs IH]; intros acc B; cbn [map sum_from].
  - change (sum_Z []) with 0%Z. rewrite Z.add_0_r. reflexivity.
  - cbn [map] in B. rewrite sum_Z_cons in B.
    pose proof (sum_Z_abs_nonneg zs) as P.
    unfold dec_cents at 1 2. rewrite add_cents by lia.
    fold (dec_cents (acc + z)). rewrite IH by lia.
    rewrite sum_Z_cons. f_equal. f_equal. lia.
Qed.

Lemma sum_cents (zs : list Z) :
  zs <> [] ->
  (sum_Z (map Z.abs zs) < 10 ^ 28)%Z ->
  sum (map dec_cents zs) = Ret (dec_cents (sum_Z zs)).
Proof.
  destruct zs as [|z zs]; [congruence|]. intros _ B.
  cbn [map] in B. rewrite sum_Z_cons in B.
  pose proof (sum_Z_abs_nonneg zs) as P.
  unfold sum. cbn [map sum_from].
  unfold dec_cents at 1. rewrite add_to_zero by lia.
  fold (dec_cents z). rewrite sum_from_cents by lia.
  rewrite sum_Z_cons. reflexivity.
Qed.

(** ** The size of the sums *)

Lemma mass_group_add (k : text) (v : numeric) (acc : list (text * numeric)) :
  (mass (group_add k v acc) <= mass acc + Z.abs (cents_of v))%Z.
Proof.
  unfold mass. induction acc as [|[k0 v0] acc IH]; cbn [group_add map].
  - rewrite sum_Z_cons. cbn [snd]. change (sum_Z []) with 0%Z. lia.
  - destruct (text_eqb k k0); cbn [map snd]; rewrite !sum_Z_cons.
    + destruct v0 as [a|], v as [b|]; cbn [numeric_add cents_of]; lia.
    + cbn [snd]. lia.
Qed.

Lemma mass_group_sum (rs : list expenses.row) :
  (mass (group_sum rs) <= abs_total rs)%Z.
Proof.
  unfold group_sum, abs_total. induction rs as [|r rs IH] using rev_ind.
  - reflexivity.
  - rewrite fold_left_app, map_app, sum_Z_app. cbn [fold_left map].
    rewrite sum_Z_cons. change (sum_Z []) with 0%Z.
    pose proof (mass_group_add (expenses.subcategory r) (expenses.amount r)
                  (fold_left
                     (fun acc r0 =>
                        group_add (expenses.subcategory r0) (expenses.amount r0) acc)
                     rs [])).
    lia.
Qed.

Lemma abs_total_filter (f : expenses.row -> bool) (rs : list expenses.row) :
  (0 <= abs_total (filter f rs) <= abs_total rs)%Z.
Proof.
  unfold abs_total. induction rs as [|r rs IH]; cbn [filter map].
  - change (sum_Z []) with 0%Z. lia.
  - destruct (f r); cbn [map]; rewrite ?sum_Z_cons; lia.
Qed.

Lemma abs_total_bound (rs : list expenses.row) :
  Forall finite_amount rs ->
  (abs_total rs <= Z.of_nat (length rs) * 10 ^ 10)%Z.
Proof.
  unfold abs_total. induction 1 as [|r rs (z & E & B) Hrs IH].
  - reflexivity.
  - cbn [map length]. rewrite sum_Z_cons, E. cbn [cents_of].
    rewrite Nat2Z.inj_succ. lia.
Qed.

Lemma store_ok_abs_total (st : Store) :
  store_ok st -> (abs_total (rows st) < 10 ^ 28)%Z.
Proof.
  intros (_ & Hf & Hlen).
  pose proof (abs_total_bound _ Hf) as B.
  unfold SERIAL_MAX in Hlen.
  assert (Z.of_nat (length (rows st)) * 10 ^ 10 <= 2147483647 * 10 ^ 10)%Z
    by (apply Z.mul_le_mono_nonneg_r; lia).
  assert (2147483647 * 10 ^ 10 < 10 ^ 28)%Z by reflexivity.
  lia.
Qed.

Lemma sum_Z_perm (a b : list Z) : Permutation a b -> sum_Z a = sum_Z b.
Proof.
  induction 1; rewrite ?sum_Z_cons; lia.
Qed.

Lemma mass_perm (a b : list (text * numeric)) :
  Permutation a b -> mass a = mass b.
Proof. intros H. unfold mass. apply sum_Z_perm, Permutation_map, H. Qed.

Lemma mass_bounds (l : list (text * numeric)) :
  Forall (fun g => (Z.abs (cents_of (snd g)) <= mass l)%Z) l /\
  (Z.abs (sum_Z (map (fun g => cents_of (snd g)) l)) <= mass l)%Z.
Proof.
  unfold mass. induction l as [|g l [IH1 IH2]]; cbn [map].
  - split; [constructor|reflexivity].
  - rewrite !sum_Z_cons.
    pose proof (sum_Z_abs_nonneg (map (fun g => cents_of (snd g)) l)) as P.
    rewrite map_map in P. split; [|lia].
    constructor; [lia|].
    eapply Forall_impl; [|exact IH1]. cbv beta. intros; lia.
Qed.

(** The groups of finite rows are finite. *)
Lemma group_sum_finite (rs : list expenses.row) :
  Forall finite_amount rs ->
  Forall (fun g => exists z, snd g = Cents z) (group_sum rs).
Proof.
  intros Hf. destruct (group_sum_spec rs Hf) as [ND A].
  apply Forall_forall. intros [k v] Hin.
  apply (assoc_In k v _ ND) in Hin. rewrite A in Hin.
  destruct (existsb (in_group k) rs); [|discriminate].
  injection Hin as <-. eexists. reflexivity.
Qed.

Lemma finite_as_cents (l : list (text * numeric)) :
  Forall (fun g => exists z, snd g = Cents z) l ->
  map (fun g => Decimal_of_numeric (snd g)) l
  = map dec_cents (map (fun g => cents_of (snd g)) l).
Proof.
  induction 1 as [|g l (z & E) Hl IH]; cbn [map]; [reflexivity|].
  rewrite IH, E. reflexivity.
Qed.

Lemma fmt_money_cents (z : Z) :
  (Z.abs z < 10 ^ 28)%Z -> _fmt_money (dec_cents z) = Ret (money_text (Cents z)).
Proof.
  intros B. unfold dec_cents, Decimal_of_numeric, money_text.
  rewrite fmt_money_fin; rewrite rescale_same; [reflexivity|].
  pose proof Z_pow10_28. lia.
Qed.

Lemma summary_lines (l : list (text * numeric)) :
  Forall (fun g => exists z, snd g = Cents z /\ (Z.abs z < 10 ^ 28)%Z) l ->
  fold_right
    (fun r acc =>
       match _fmt_money (snd r), acc with
       | Ret m, Ret ls => Ret ((T "• " ++ fst r ++ T ": " ++ m) :: ls)
       | Raise e, _ => Raise e
       | _, Raise e => Raise e
       end)
    (Ret []) (map (fun g => (fst g, Decimal_of_numeric (snd g))) l)
  = Ret (map summary_line l).
Proof.
  induction 1 as [|g l (z & E & B) Hl IH]; cbn [map fold_right]; [reflexivity|].
  rewrite IH. cbn [fst snd]. rewrite E.
  fold (dec_cents z). rewrite (fmt_money_cents z B).
  unfold summary_line. rewrite E. reflexivity.
Qed.

(** [summary] when its query is served with the plan [plan]. *)
Lemma summary_served (w : World) (uid : Z) (c : text) (plan : list nat) :
  store_ok (db w) ->
  hd (Served []) (sched w) = Served plan ->
  summary uid c w
  = (Ret tt,
     add_sent (set_sched w (tl (sched w)))
       (summary_reply uid c (arrange plan (group_sum (selected uid c (db w)))))).
Proof.
  intros Hok Hev. unfold summary, bind, db_exec. rewrite Hev.
  cbn [execute]. fold (selected uid c (db w)).
  pose proof Hok as (_ & Hfin & _).
  assert (Hsel : Forall finite_amount (selected uid c (db w))).
  { unfold selected. apply Forall_forall. intros r Hr.
    apply filter_In in Hr. rewrite Forall_forall in Hfin. apply Hfin, Hr. }
  pose proof (arrange_perm plan (group_sum (selected uid c (db w)))) as Hp.
  pose proof (mass_perm _ _ Hp) as Hm.
  pose proof (mass_group_sum (selected uid c (db w))) as Hle.
  pose proof (abs_total_filter (fun r => of_user uid r && of_category c r)
                (rows (db w))) as Hflt. fold (selected uid c (db w)) in Hflt.
  pose proof (store_ok_abs_total _ Hok) as Hst.
  assert (Hfg : Forall (fun g => exists z, snd g = Cents z)
                  (arrange plan (group_sum (selected uid c (db w))))).
  { apply Forall_forall. intros g Hg.
    pose proof (group_sum_finite _ Hsel) as F. rewrite Forall_forall in F.
    apply F. eapply Permutation_in; [symmetry; exact Hp|exact Hg]. }
  set (groups := arrange plan (group_sum (selected uid c (db w)))) in *.
  clearbody groups.
  destruct (mass_bounds groups) as [Hb1 Hb2].
  assert (Hfb : Forall
                  (fun g => exists z, snd g = Cents z /\ (Z.abs z < 10 ^ 28)%Z)
                  groups).
  { apply Forall_forall. intros g Hg.
    rewrite Forall_forall in Hfg, Hb1.
    destruct (Hfg g Hg) as (z & E). specialize (Hb1 g Hg).
    rewrite E in Hb1. cbn [cents_of] in Hb1.
    exists z. split; [assumption|lia]. }
  destruct (map (fun g => (fst g, Decimal_of_numeric (snd g))) groups)
    as [|p l] eqn:E.
  - apply map_eq_nil in E. subst groups. reflexivity.
  - rewrite <- E.
    assert (NE : groups <> []) by (intros ->; discriminate).
    unfold lift. rewrite map_map. cbn [snd].
    rewrite (finite_as_cents _ Hfg).
    rewrite sum_cents;
      [ | intros X; apply map_eq_nil in X; contradiction
        | rewrite map_map; fold (mass groups); lia ].
    rewrite (summary_lines _ Hfb).
    rewrite fmt_money_cents by lia.
    assert (Et : _fmt_money (if text_eqb c (T "needs") then NEEDS_TARGET
                             else WANTS_TARGET)
                 = Ret (if text_eqb c (T "needs") then T "$500.00"
                        else T "$300.00"))
      by (destruct (text_eqb c (T "needs")); reflexivity).
    rewrite Et. unfold reply_text, summary_reply, summary_text.
    destruct groups; [contradiction|]. reflexivity.
Qed.

(* ================================================================== *)
(** * Summaries *)
(* ================================================================== *)

(** C2: [summary] groups exactly the rows of the user in the category; it
    lists one pair per subcategory that has such a row, none for the
    others, each with the exact sum of the amounts of its rows; and the
    message shows each pair and, as total, the exact sum of the listed sums
    against $500.00 for needs and $300.00 for the other category
    ([summary_text]).  The table is one the bot keeps ([store_ok]) and the
    query is served. *)
Theorem summary_is_exact (w : World) (uid : Z) (c : text) (plan : list nat) :
  store_ok (db w) ->
  hd (Served []) (sched w) = Served plan ->
  let rs := selected uid c (db w) in
  let groups := arrange plan (group_sum rs) in
  (forall r,
     In r rs <->
     In r (rows (db w)) /\ expenses.user_id r = uid /\ expenses.category r = c) /\
  NoDup (map fst groups) /\
  (forall k v,
     In (k, v) groups <->
     (exists r, In r rs /\ expenses.subcategory r = k) /\
     v = Cents (group_total k rs)) /\
  summary uid c w
  = (Ret tt, add_sent (set_sched w (tl (sched w))) (summary_reply uid c groups)).
Proof.
  intros Hok Hev rs groups.
  pose proof Hok as (_ & Hfin & _).
  assert (Hsel : Forall finite_amount rs).
  { apply Forall_forall. intros r Hr. apply filter_In in Hr.
    rewrite Forall_forall in Hfin. apply Hfin, Hr. }
  destruct (group_sum_spec rs Hsel) as [ND A].
  pose proof (arrange_perm plan (group_sum rs)) as Hp. fold groups in Hp.
  split; [|split; [|split]].
  - intros r. unfold rs, selected.
    rewrite filter_In, andb_true_iff. unfold of_user, of_category.
    rewrite Z.eqb_eq, text_eqb_eq. tauto.
  - eapply Permutation_NoDup; [apply Permutation_map; exact Hp|exact ND].
  - intros k v. split.
    + intros H. apply (Permutation_in _ (Permutation_sym Hp)) in H.
      apply (assoc_In k v _ ND) in H. rewrite A in H.
      destruct (existsb (in_group k) rs) eqn:X; [|discriminate].
      apply existsb_exists in X. destruct X as (r & Hr & E).
      split; [|congruence].
      exists r. split; [assumption|apply text_eqb_eq, E].
    + intros ((r & Hr & E) & ->).
      apply (Permutation_in _ Hp). apply (assoc_In _ _ _ ND). rewrite A.
      replace (existsb (in_group k) rs) with true; [reflexivity|].
      symmetry. apply existsb_exists. exists r.
      split; [assumption|apply text_eqb_eq, E].
  - apply summary_served; assumption.
Qed.

Lemma ledger_example_db (s : list db_event) :
  db (ledger_example s)
  = mkStore
      [expenses.mk 1 alice (T "needs") (T "Food") (Cents 1000) None;
       expenses.mk 2 alice (T "needs") (T "Food") (Cents 550) None;
       expenses.mk 3 alice (T "needs") (T "Transport") (Cents 200) None]
      4.
Proof. vm_compute. reflexivity. Qed.

Lemma ledger_example_ok (s : list db_event) : store_ok (db (ledger_example s)).
Proof.
  rewrite ledger_example_db. unfold store_ok, ids_ok.
  cbn [rows next_id map expenses.id length].
  split; [split|split].
  - repeat constructor; simpl; intuition discriminate.
  - repeat constructor.
  - repeat constructor; eexists; (split; [reflexivity|]); split; reflexivity.
  - vm_compute. split; [reflexivity|discriminate].
Qed.

Lemma summary_is_exact_witness :
  summary alice (T "needs") (ledger_example [])
  = (Ret tt,
     add_sent (ledger_example [])
       (mkReply alice
          (T "📊 Needs summary" ++ nl ++
           T "• Food: $15.50" ++ nl ++
           T "• Transport: $2.00" ++ nl ++ nl ++
           T "Total: $17.50 / $500.00")
          NoMarkup)).
Proof.
  destruct (summary_is_exact (ledger_example []) alice (T "needs") []
              (ledger_example_ok []) eq_refl)
    as (_ & _ & _ & H).
  rewrite H. vm_compute. reflexivity.
Defined.

(** C9, as amended: two calls of [summary] over the same table, user and
    category list the same (subcategory, sum) pairs, each subcategory once,
    in an order the database server chooses for each call: the query has no
    [ORDER BY].  Neither call changes the table. *)
Theorem summaries_agree_up_to_order (w : World) (uid : Z) (c : text)
  (p1 p2 : list nat) (s : list db_event) :
  store_ok (db w) ->
  sched w = Served p1 :: Served p2 :: s ->
  let w1 := snd (summary uid c w) in
  let w2 := snd (summary uid c w1) in
  exists g1 g2,
    sent w1 = sent w ++ [summary_reply uid c g1] /\
    sent w2 = sent w1 ++ [summary_reply uid c g2] /\
    Permutation g1 g2 /\
    NoDup (map fst g1) /\ NoDup (map fst g2) /\
    db w1 = db w /\ db w2 = db w.
Proof.
  intros Hok Hs. cbv zeta.
  rewrite (summary_served w uid c p1 Hok) by (rewrite Hs; reflexivity).
  cbn [snd].
  rewrite (summary_served _ uid c p2) by (cbn; try rewrite Hs; auto).
  cbn [snd sent add_sent set_sched db].
  pose proof Hok as (_ & Hfin & _).
  assert (Hsel : Forall finite_amount (selected uid c (db w))).
  { apply Forall_forall. intros r Hr. apply filter_In in Hr.
    rewrite Forall_forall in Hfin. apply Hfin, Hr. }
  destruct (group_sum_spec _ Hsel) as [ND _].
  pose proof (arrange_perm p1 (group_sum (selected uid c (db w)))) as P1.
  pose proof (arrange_perm p2 (group_sum (selected uid c (db w)))) as P2.
  do 2 eexists. repeat split.
  - rewrite <- P1. exact P2.
  - eapply Permutation_NoDup; [apply Permutation_map; exact P1|exact ND].
  - eapply Permutation_NoDup; [apply Permutation_map; exact P2|exact ND].
Qed.

Lemma summaries_agree_up_to_order_witness :
  let w := ledger_example [Served []; Served [1%nat]] in
  let w1 := snd (summary alice (T "needs") w) in
  let w2 := snd (summary alice (T "needs") w1) in
  exists g1 g2,
    sent w1 = sent w ++ [summary_reply alice (T "needs") g1] /\
    sent w2 = sent w1 ++ [summary_reply alice (T "needs") g2] /\
    Permutation g1 g2.
Proof.
  destruct (summaries_agree_up_to_order
              (ledger_example [Served []; Served [1%nat]]) alice (T "needs")
              [] [1%nat] [] (ledger_example_ok _) eq_refl)
    as (g1 & g2 & H1 & H2 & P & _).
  exists g1, g2. repeat split; assumption.
Defined.

(** C9 as stated fails: the table is the same for both calls, and the
    second lists the subcategories in another order than the first. *)
Lemma summaries_differ_in_order :
  let w := ledger_example [Served []; Served [1%nat]] in
  let w1 := snd (summary alice (T "needs") w) in
  let w2 := snd (summary alice (T "needs") w1) in
  db w1 = db w /\
  map body (skipn 12 (sent w2))
  = [T "📊 Needs summary" ++ nl ++
     T "• Food: $15.50" ++ nl ++
     T "• Transport: $2.00" ++ nl ++ nl ++
     T "Total: $17.50 / $500.00";
     T "📊 Needs summary" ++ nl ++
     T "• Transport: $2.00" ++ nl ++
     T "• Food: $15.50" ++ nl ++ nl ++
     T "Total: $17.50 / $500.00"] /\
  execute (SELECT_SUM alice (T "needs")) [] (db w)
  <> execute (SELECT_SUM alice (T "needs")) [1%nat] (db w).
Proof.
  vm_compute. repeat split. discriminate.
Qed.

(* ================================================================== *)
(** * Lemmas: reading a Decimal *)
(* ================================================================== *)


Lemma span_digits_app (ds r : text) :
  forallb isdigit ds = true ->
  match r with [] => True | c :: _ => isdigit c = false end ->
  span_digits (ds ++ r) = (ds, r).
Proof.
  induction ds as [|d ds IH]; simpl; intros F R.
  - destruct r as [|c r]; [reflexivity|]. simpl. rewrite R. reflexivity.
  - apply andb_true_iff in F. destruct F as [-> F].
    rewrite (IH F R). reflexivity.
Qed.

Lemma span_digits_all (ds : text) :
  forallb isdigit ds = true -> span_digits ds = (ds, []).
Proof.
  intros F. rewrite <- (app_nil_r ds) at 1. apply span_digits_app; auto.
Qed.

Lemma lstrip_keep (c : char) (s : text) :
  isspace c = false -> lstrip (c :: s) = c :: s.
Proof. intros H. simpl. rewrite H. reflexivity. Qed.

Lemma rstrip_keep (s : text) (c : char) :
  isspace c = false -> rstrip (s ++ [c]) = s ++ [c].
Proof.
  intros H. unfold rstrip. rewrite rev_app_distr. simpl. rewrite H.
  simpl. rewrite rev_involutive. reflexivity.
Qed.

(** A text that neither starts nor ends with whitespace is its own strip. *)
Lemma strip_id (s : text) :
  match s with [] => True | c :: _ => isspace c = false end ->
  match rev s with [] => True | c :: _ => isspace c = false end ->
  strip s = s.
Proof.
  intros Hh Hl. unfold strip.
  destruct s as [|c s]; [reflexivity|].
  rewrite (lstrip_keep c s Hh).
  destruct (rev (c :: s)) as [|d r] eqn:E.
  - apply (f_equal (@length _)) in E. rewrite length_rev in E. discriminate.
  - apply (f_equal (@rev _)) in E. rewrite rev_involutive in E.
    rewrite E. simpl. apply rstrip_keep. assumption.
Qed.

Lemma ascii_chars_id (s : text) :
  forallb (fun c => negb (c =? 95) && (0 <? c) && (c <=? 127)) s = true ->
  ascii_chars s = Some s.
Proof.
  induction s as [|c s IH]; simpl; [reflexivity|].
  rewrite !andb_true_iff, negb_true_iff. intros [[[H1 H2] H3] F].
  rewrite H1, H2, H3, (IH F). reflexivity.
Qed.

Lemma numeric_char_ascii (c : char) :
  numeric_char c = true ->
  negb (c =? 95) && (0 <? c) && (c <=? 127) = true /\ isspace c = false.
Proof.
  intros H. unfold numeric_char, isletter, isdigit, isupper, islower in H.
  rewrite !orb_true_iff, !andb_true_iff, !N.leb_le, !N.eqb_eq in H.
  split.
  - rewrite !andb_true_iff, negb_true_iff, N.eqb_neq, N.ltb_lt, N.leb_le. lia.
  - unfold isspace.
    rewrite !orb_false_iff, !andb_false_iff, !N.leb_gt, !N.eqb_neq. lia.
Qed.


(** A text of numeric characters is what [numeric_as_ascii] returns for it. *)
Lemma numeric_as_ascii_id (s : text) :
  forallb numeric_char s = true -> numeric_as_ascii s = Some s.
Proof.
  intros F. unfold numeric_as_ascii.
  assert (S : strip s = s).
  { rewrite forallb_forall in F. apply strip_id.
    - destruct s as [|c s]; [exact I|].
      apply numeric_char_ascii, F. left. reflexivity.
    - destruct (rev s) as [|c r] eqn:E; [exact I|].
      apply numeric_char_ascii, F. apply in_rev. rewrite E. left. reflexivity. }
  rewrite S. apply ascii_chars_id.
  rewrite forallb_forall in *. intros c Hc.
  apply numeric_char_ascii, F, Hc.
Qed.

Lemma digits_val_bound (ds : text) :
  forallb isdigit ds = true -> digits_val ds < pow10 (Z.of_nat (length ds)).
Proof.
  induction ds as [|d ds IH] using rev_ind; intros F.
  - reflexivity.
  - rewrite forallb_app in F. apply andb_true_iff in F. destruct F as [F D].
    simpl in D. rewrite andb_true_r in D. apply isdigit_spec in D.
    rewrite digits_val_snoc, length_app. simpl length.
    rewrite Nat2Z.inj_add. change (Z.of_nat 1) with 1%Z.
    rewrite pow10_succ by lia. specialize (IH F). lia.
Qed.

Lemma digits_val_app (a b : text) :
  forallb isdigit b = true ->
  digits_val (a ++ b)
  = digits_val a * pow10 (Z.of_nat (length b)) + digits_val b.
Proof.
  induction b as [|d b IH] using rev_ind; intros F.
  - rewrite app_nil_r. change (pow10 (Z.of_nat (length (@nil char)))) with 1.
    unfold digits_val at 3. simpl. lia.
  - rewrite forallb_app in F. apply andb_true_iff in F. destruct F as [F D].
    rewrite app_assoc, !digits_val_snoc, (IH F), length_app. simpl length.
    rewrite Nat2Z.inj_add. change (Z.of_nat 1) with 1%Z.
    rewrite pow10_succ by lia. lia.
Qed.

(** A standard decimal is made of numeric characters and starts with none
    of the letters of a special value. *)
Lemma standard_decimal_chars (s : text) (neg : bool) (ip fp : text) :
  standard_decimal s neg ip fp ->
  forallb (fun c => isdigit c || (c =? 43) || (c =? 45) || (c =? 46)) s = true.
Proof.
  intros (Fi & Ff & _ & sign & point & Hs & Hp & ->).
  rewrite !forallb_app.
  assert (D : forall l, forallb isdigit l = true ->
                forallb (fun c => isdigit c || (c =? 43) || (c =? 45) || (c =? 46)) l
                = true).
  { intros l H. rewrite forallb_forall in *. intros c Hc.
    rewrite (H c Hc). reflexivity. }
  rewrite (D ip Fi), (D fp Ff).
  destruct Hs as [[-> _]|[[-> _]|[-> _]]], Hp as [->|[-> _]]; reflexivity.
Qed.

Lemma scan_sign_none (c : char) (r : text) :
  (c =? 43) = false -> (c =? 45) = false -> scan_sign (c :: r) = (false, c :: r).
Proof. intros H1 H2. unfold scan_sign. rewrite H1, H2. reflexivity. Qed.

(** The digits and the point of a standard decimal: no sign in front, and
    no special value. *)
Lemma standard_body (ip point fp : text) :
  forallb isdigit ip = true ->
  ip ++ fp <> [] ->
  (point = [46] \/ (point = [] /\ fp = [])) ->
  let body := ip ++ point ++ fp in
  scan_sign body = (false, body) /\
  startswith (lower body) (T "nan") = false /\
  startswith (lower body) (T "snan") = false /\
  text_eqb (lower body) (T "inf") || text_eqb (lower body) (T "infinity") = false.
Proof.
  intros Fi NE Hp body.
  assert (H : exists h t, body = h :: t /\ (isdigit h = true \/ h = 46)).
  { unfold body. destruct ip as [|d ip].
    - destruct Hp as [->|[-> ->]]; [|contradiction].
      exists 46, fp. auto.
    - exists d, (ip ++ point ++ fp). simpl in Fi.
      apply andb_true_iff in Fi. split; [reflexivity|left; apply Fi]. }
  destruct H as (h & t & -> & Hh).
  assert (B : 46 <= h <= 57)
    by (destruct Hh as [Hh| ->]; [apply isdigit_spec in Hh|]; lia).
  assert (L : lower_char h = h).
  { unfold lower_char, isupper.
    replace (65 <=? h) with false by (symmetry; apply N.leb_gt; lia).
    reflexivity. }
  split; [apply scan_sign_none; apply N.eqb_neq; lia|].
  cbn [lower map]. rewrite L.
  change (T "nan") with [110; 97; 110]. change (T "snan") with [115; 110; 97; 110].
  change (T "inf") with [105; 110; 102].
  change (T "infinity") with [105; 110; 102; 105; 110; 105; 116; 121].
  cbn [startswith text_eqb].
  replace (110 =? h) with false by (symmetry; apply N.eqb_neq; lia).
  replace (115 =? h) with false by (symmetry; apply N.eqb_neq; lia).
  replace (h =? 105) with false by (symmetry; apply N.eqb_neq; lia).
  auto.
Qed.

Lemma scan_value_body (neg : bool) (ip point fp : text) :
  forallb isdigit ip = true ->
  forallb isdigit fp = true ->
  ip ++ fp <> [] ->
  (point = [46] \/ (point = [] /\ fp = [])) ->
  let c := digits_val (ip ++ fp) in
  let e := (- Z.of_nat (length fp))%Z in
  scan_value neg (ip ++ point ++ fp)
  = if in_maxcontext c e then Some (Fin neg c e) else None.
Proof.
  intros Fi Ff NE Hp c e.
  destruct (standard_body ip point fp Fi NE Hp) as (_ & H1 & H2 & H3).
  unfold scan_value. cbv zeta in *. rewrite H1, H2, H3.
  unfold scan_number.
  assert (S1 : span_digits (ip ++ point ++ fp) = (ip, point ++ fp)).
  { apply span_digits_app; [assumption|].
    destruct Hp as [->|[-> ->]]; [reflexivity|exact I]. }
  rewrite S1.
  assert (S2 : scan_fraction (point ++ fp) = (fp, [])).
  { destruct Hp as [->|[-> ->]]; [|reflexivity].
    cbn [app scan_fraction]. rewrite N.eqb_refl. apply span_digits_all.
    assumption. }
  rewrite S2. cbn [scan_exponent].
  destruct (ip ++ fp) as [|d ds] eqn:E; [contradiction|].
  fold c. replace (0 - Z.of_nat (length fp))%Z with e by (unfold e; lia).
  reflexivity.
Qed.

(** [Decimal(s)] for a standard decimal [s]. *)
Lemma Decimal_of_text_standard (s : text) (neg : bool) (ip fp : text) :
  standard_decimal s neg ip fp ->
  Decimal_of_text s
  = if in_maxcontext (digits_val (ip ++ fp)) (- Z.of_nat (length fp))
    then Ret (Fin neg (digits_val (ip ++ fp)) (- Z.of_nat (length fp)))
    else Raise InvalidOperation.
Proof.
  intros Hstd. pose proof (standard_decimal_chars s neg ip fp Hstd) as Hch.
  destruct Hstd as (Fi & Ff & NE & sign & point & Hs & Hp & ->).
  unfold Decimal_of_text. rewrite numeric_as_ascii_id.
  2:{ rewrite forallb_forall in *. intros c Hc. specialize (Hch c Hc).
      unfold numeric_char.
      rewrite !orb_true_iff in *. tauto. }
  unfold Decimal_of_ascii.
  assert (Sg : scan_sign (sign ++ ip ++ point ++ fp) = (neg, ip ++ point ++ fp)).
  { destruct Hs as [[-> ->]|[[-> ->]|[-> ->]]]; [|reflexivity|reflexivity].
    apply (standard_body ip point fp Fi NE Hp). }
  rewrite Sg.
  rewrite (scan_value_body neg ip point fp Fi Ff NE Hp).
  destruct (in_maxcontext _ _); reflexivity.
Qed.

(** A text of feasible length does not leave the maximal context. *)
Lemma standard_in_maxcontext (s : text) (neg : bool) (ip fp : text) :
  standard_decimal s neg ip fp ->
  (Z.of_nat (length s) <= MAX_EMAX)%Z ->
  in_maxcontext (digits_val (ip ++ fp)) (- Z.of_nat (length fp)) = true.
Proof.
  intros (Fi & Ff & NE & sign & point & Hs & Hp & ->) Hlen.
  rewrite !length_app in Hlen.
  unfold in_maxcontext. apply andb_true_iff. split.
  - apply Z.leb_le. unfold MIN_ETINY, MAX_EMAX in *. lia.
  - destruct (N.eqb_spec (digits_val (ip ++ fp)) 0) as [E|E];
      apply Z.leb_le; [unfold MAX_EMAX; lia|].
    assert (F : forallb isdigit (ip ++ fp) = true)
      by (rewrite forallb_app, Fi, Ff; reflexivity).
    pose proof (digits_val_bound _ F) as B.
    assert (L : (1 <= Z.of_nat (length (ip ++ fp)))%Z)
      by (destruct (ip ++ fp); [contradiction|simpl length; lia]).
    pose proof (ndigits_le _ _ L B) as D.
    rewrite length_app in D. unfold MAX_EMAX in *. lia.
Qed.

(** ** Only numeric characters make a Decimal *)












(** ** Whitespace inside a text *)


Lemma forallb_rev {A : Type} (f : A -> bool) (l : list A) :
  forallb f (rev l) = forallb f l.
Proof.
  induction l as [|x l IH]; simpl; [reflexivity|].
  rewrite forallb_app, IH. simpl. rewrite andb_true_r. apply andb_comm.
Qed.






(* ================================================================== *)
(** * Lemmas: the amount *)
(* ================================================================== *)

Lemma Decimal_le_0_false (a : Decimal) :
  Decimal_le_0 a = Ret false <->
  a = Inf false \/ exists c e, a = Fin false c e /\ 0 < c.
Proof.
  destruct a as [neg c e|neg|neg sg p]; simpl.
  - split.
    + intros H. injection H as H. apply orb_false_iff in H.
      destruct H as [Hc ->]. apply N.eqb_neq in Hc.
      right. exists c, e. split; [reflexivity|lia].
    + intros [H|(c' & e' & H & Hc)]; [discriminate|].
      injection H as -> -> ->.
      replace (c' =? 0) with false by (symmetry; apply N.eqb_neq; lia).
      reflexivity.
  - split.
    + intros H. injection H as ->. auto.
    + intros [H|(c' & e' & H & _)]; [injection H as ->; reflexivity|discriminate].
  - split; [discriminate|].
    intros [H|(c' & e' & H & _)]; discriminate.
Qed.

Lemma parse_amount_ret (txt : text) (a : Decimal) :
  parse_amount txt = Ret a <->
  Decimal_of_text txt = Ret a /\ Decimal_le_0 a = Ret false.
Proof.
  unfold parse_amount. destruct (Decimal_of_text txt) as [d|x].
  - destruct (Decimal_le_0 d) as [[|]|y] eqn:E; split;
      try discriminate; try (intros [H1 H2]; injection H1 as ->; congruence).
    intros H; injection H as ->. auto.
  - split; [discriminate|intros [H _]; discriminate].
Qed.

Lemma get_amount_reject (uid : Z) (txt : text) (w : World) (x : exn) :
  parse_amount txt = Raise x -> rejected uid txt w.
Proof. intros H. unfold rejected, get_amount. rewrite H. reflexivity. Qed.

Lemma get_amount_store (uid : Z) (txt : text) (w : World) (a : Decimal) :
  parse_amount txt = Ret a ->
  get_amount uid txt w
  = match _fmt_money a with
    | Ret m =>
      (Ret CATEGORY,
       add_sent (set_user_data w uid (set_amount a (user_data w uid)))
         (noted_reply uid m))
    | Raise x =>
      (Raise x, set_user_data w uid (set_amount a (user_data w uid)))
    end.
Proof.
  intros H. unfold get_amount. rewrite H.
  unfold bind, modify, lift. destruct (_fmt_money a); reflexivity.
Qed.

(** Conversely to [quantize_cents]: what can be quantized fits 28 digits. *)
Lemma quantize_fits (neg : bool) (c : N) (e : Z) (d : Decimal) :
  quantize (Fin neg c e) (Fin false 1 (-2)) = Ret d ->
  rescale_half_even c e (-2) < pow10 28.
Proof.
  unfold quantize.
  change (negb ((Etiny <=? -2) && (-2 <=? Emax))%Z) with false. cbv iota.
  destruct (N.eqb_spec c 0) as [->|Hc].
  - intros _. rewrite rescale_zero. reflexivity.
  - cbv zeta.
    destruct (Emax <? e + ndigits c - 1)%Z; [discriminate|].
    destruct (prec <? e + ndigits c - 1 - -2 + 1)%Z; [discriminate|].
    destruct (Emax <? -2 + ndigits (rescale_half_even c e (-2)) - 1)%Z;
      [discriminate|].
    destruct (Z.ltb_spec prec (ndigits (rescale_half_even c e (-2)))) as [L|L];
      [discriminate|].
    intros _. pose proof (ndigits_upper (rescale_half_even c e (-2))) as U.
    pose proof (ndigits_pos (rescale_half_even c e (-2))) as P.
    assert (pow10 (ndigits (rescale_half_even c e (-2))) <= pow10 28)
      by (apply pow10_le; unfold prec in L; lia).
    lia.
Qed.

Lemma fmt_money_fits (neg : bool) (c : N) (e : Z) (m : text) :
  _fmt_money (Fin neg c e) = Ret m -> rescale_half_even c e (-2) < pow10 28.
Proof.
  unfold _fmt_money.
  destruct (quantize (Fin neg c e) (Fin false 1 (-2))) as [d|x] eqn:Q;
    [|discriminate].
  intros _. eapply quantize_fits, Q.
Qed.


Lemma two_digits_isdigit (r : N) :
  r < 100 -> forallb isdigit (two_digits r) = true.
Proof.
  intros H. unfold two_digits. cbn [forallb].
  rewrite !isdigit_of_digit;
    [reflexivity|apply N.mod_upper_bound; discriminate
    |apply N.Div0.div_lt_upper_bound; lia].
Qed.

Lemma digits_val_two_digits (r : N) : r < 100 -> digits_val (two_digits r) = r.
Proof.
  intros H. unfold two_digits, digits_val. cbn [fold_left].
  pose proof (N.Div0.div_mod r 10). rewrite !N.add_comm with (n := 48), !N.add_sub.
  lia.
Qed.

(** The rendered cents read back as the same number of cents. *)
Lemma Decimal_of_cents_text (q : N) :
  q < pow10 28 -> Decimal_of_text (cents_text q) = Ret (Fin false q (-2)).
Proof.
  intros B.
  assert (R : q mod 100 < 100) by (apply N.mod_upper_bound; discriminate).
  assert (Hstd : standard_decimal (cents_text q) false (str_N (q / 100))
                   (two_digits (q mod 100))).
  { split; [apply str_N_isdigit|]. split; [apply two_digits_isdigit, R|].
    split; [intros E; apply app_eq_nil in E; destruct E; discriminate|].
    exists [], [46]. split; [left; auto|]. split; [left; reflexivity|reflexivity]. }
  rewrite (Decimal_of_text_standard _ _ _ _ Hstd).
  rewrite digits_val_app by (apply two_digits_isdigit, R).
  rewrite digits_val_str_N, digits_val_two_digits by exact R.
  change (pow10 (Z.of_nat (length (two_digits (q mod 100))))) with 100.
  change (- Z.of_nat (length (two_digits (q mod 100))))%Z with (-2)%Z.
  assert (E : q / 100 * 100 + q mod 100 = q)
    by (pose proof (N.Div0.div_mod q 100); lia).
  rewrite E.
  assert (M : in_maxcontext q (-2) = true).
  { unfold in_maxcontext. apply andb_true_iff. split; [reflexivity|].
    destruct (q =? 0); [reflexivity|].
    apply Z.leb_le. pose proof (ndigits_le q 28 ltac:(lia) B).
    unfold MAX_EMAX. lia. }
  rewrite M. reflexivity.
Qed.

(* ================================================================== *)
(** * The amount *)
(* ================================================================== *)




(** C8, as amended: a standard decimal above zero and below ten to the 26
    (of a length [Decimal] can take) is read, and [_fmt_money] shows it as
    a dollar sign, digits, a point and exactly two digits, the amount
    rounded half-even to cents; that text reads back as this number of
    cents; with at most two digits after the point nothing is rounded, and
    the column stores the same number of cents when it fits. *)
Theorem amount_round_trip (txt ip fp : text) :
  standard_decimal txt false ip fp ->
  (Z.of_nat (length txt) <= MAX_EMAX)%Z ->
  let c := digits_val (ip ++ fp) in
  let e := (- Z.of_nat (length fp))%Z in
  let q := rescale_half_even c e (-2) in
  0 < c ->
  q < pow10 28 ->
  parse_amount txt = Ret (Fin false c e) /\
  _fmt_money (Fin false c e)
  = Ret (T "$" ++ str_N (q / 100) ++ [46] ++ two_digits (q mod 100)) /\
  Decimal_of_text (str_N (q / 100) ++ [46] ++ two_digits (q mod 100))
  = Ret (Fin false q (-2)) /\
  ((length fp <= 2)%nat ->
   q = c * pow10 (2 - Z.of_nat (length fp)) /\
   (q < 10 ^ 10 -> numeric_10_2 (Fin false c e) = Some (Cents (Z.of_N q)))).
Proof.
  intros Hstd Hlen c e q Hc Hq.
  pose proof (Decimal_of_text_standard txt false ip fp Hstd) as E.
  rewrite (standard_in_maxcontext txt false ip fp Hstd Hlen) in E.
  fold c e in E.
  split; [|split; [|split]].
  - apply parse_amount_ret. split; [exact E|].
    apply Decimal_le_0_false. right. eauto.
  - rewrite (fmt_money_fin false c e Hq). reflexivity.
  - exact (Decimal_of_cents_text q Hq).
  - intros Hfp.
    assert (Eq : q = c * pow10 (2 - Z.of_nat (length fp))).
    { unfold q, rescale_half_even.
      replace (-2 <=? e)%Z with true by (symmetry; apply Z.leb_le; unfold e; lia).
      f_equal. f_equal. unfold e. lia. }
    split; [exact Eq|].
    intros Hs. unfold numeric_10_2, rescale_half_up.
    replace (numeric_in e) with true
      by (symmetry; unfold numeric_in, NUMERIC_DSCALE_MAX;
          apply andb_true_iff; split; [apply Z.leb_le|apply Z.ltb_lt];
          unfold e; lia).
    replace (-2 <=? e)%Z with true by (symmetry; apply Z.leb_le; unfold e; lia).
    replace (e - -2)%Z with (2 - Z.of_nat (length fp))%Z by (unfold e; lia).
    rewrite <- Eq. apply N.ltb_lt in Hs. rewrite Hs. reflexivity.
Qed.

Lemma amount_round_trip_witness :
  parse_amount (T "12.5") = Ret (Fin false 125 (-1)) /\
  _fmt_money (Fin false 125 (-1)) = Ret (T "$12.50") /\
  Decimal_of_text (T "12.50") = Ret (Fin false 1250 (-2)) /\
  numeric_10_2 (Fin false 125 (-1)) = Some (Cents 1250).
Proof.
  destruct (amount_round_trip (T "12.5") (T "12") (T "5"))
    as (H1 & H2 & H3 & H4).
  - repeat split; try reflexivity; try discriminate.
    exists [], [46]. repeat split; auto.
  - vm_compute. discriminate.
  - reflexivity.
  - reflexivity.
  - destruct (H4 ltac:(simpl; lia)) as [_ H5].
    split; [exact H1|split; [exact H2|split; [exact H3|apply H5; reflexivity]]].
Defined.

(** C8 as stated fails: ten to the 26 is read, and the formatter raises. *)
Lemma money_formatter_raises :
  standard_decimal ten_to_26 false ten_to_26 [] /\
  parse_amount ten_to_26 = Ret (Fin false (10 ^ 26) 0) /\
  _fmt_money (Fin false (10 ^ 26) 0) = Raise InvalidOperation.
Proof.
  split; [|split; vm_compute; reflexivity].
  repeat split; try reflexivity; try discriminate.
  exists [], []. repeat split; auto.
Qed.

(* ================================================================== *)
(** * The committed rows *)
(* ================================================================== *)

(** C5 fails on the code.  An amount above zero and below half a cent
    passes [get_amount] and is committed as 0.00; and a label that a failed
    commit left in the session is committed with the next entry, whose
    subcategory is not a miscellaneous one. *)
Theorem committed_rows_break_the_invariant :
  rows (db tenth_of_a_cent)
  = [expenses.mk 1 alice (T "needs") (T "Food") (Cents 0) None] /\
  body (last (sent tenth_of_a_cent) (invalid_reply alice))
  = T "Logged $0.00 to Needs → Food." /\
  rows (db after_failed_commit)
  = [expenses.mk 1 alice (T "needs") (T "Food") (Cents 500) (Some (T "x"))] /\
  startswith (T "Food") (T "Misc") = false.
Proof. vm_compute. repeat split. Qed.

(* ================================================================== *)
(** * The invariant of the bot *)
(* ================================================================== *)

Lemma frame_refl (w : World) : frame w w.
Proof. unfold frame. auto. Qed.

Lemma frame_trans (w1 w2 w3 : World) : frame w1 w2 -> frame w2 w3 -> frame w1 w3.
Proof.
  intros (U1 & C1 & S1) (U2 & C2 & S2). unfold frame.
  split; [congruence|]. split; [congruence|auto].
Qed.

Lemma framed_ret {A : Type} (a : A) : framed (ret a).
Proof. intros w. apply frame_refl. Qed.

Lemma framed_lift {A : Type} (r : res A) : framed (lift r).
Proof. intros w. apply frame_refl. Qed.

Lemma framed_reply (uid : Z) (b : text) (k : markup) : framed (reply_text uid b k).
Proof. intros w. unfold frame. cbn. auto. Qed.

Lemma framed_bind {A B : Type} (m : M A) (k : A -> M B) :
  framed m -> (forall a, framed (k a)) -> framed (bind m k).
Proof.
  intros Hm Hk w. unfold bind. specialize (Hm w).
  destruct (m w) as [[a|x] w']; cbn [snd] in *; [|assumption].
  eapply frame_trans; [exact Hm|apply Hk].
Qed.

Lemma ids_ok_filter (f : expenses.row -> bool) (st : Store) :
  ids_ok st -> ids_ok (mkStore (filter f (rows st)) (next_id st)).
Proof.
  intros [ND Lt]. split; cbn [rows next_id].
  - clear Lt. induction (rows st) as [|r rs IH]; simpl; [constructor|].
    inversion ND as [|? ? Hn ND']; subst.
    destruct (f r); [|auto]. simpl. constructor; [|auto].
    intros Hin. apply Hn. apply in_map_iff in Hin.
    destruct Hin as (x & E & Hx). apply filter_In in Hx.
    apply in_map_iff. exists x. tauto.
  - apply Forall_forall. intros r Hr. apply filter_In in Hr.
    rewrite Forall_forall in Lt. apply Lt, Hr.
Qed.

Lemma Forall_filter {A : Type} (P : A -> Prop) (f : A -> bool) (l : list A) :
  Forall P l -> Forall P (filter f l).
Proof.
  intros H. apply Forall_forall. intros x Hx. apply filter_In in Hx.
  rewrite Forall_forall in H. apply H, Hx.
Qed.

Lemma filter_length_le {A : Type} (f : A -> bool) (l : list A) :
  (length (filter f l) <= length l)%nat.
Proof. induction l as [|x l IH]; simpl; [lia|]. destruct (f x); simpl; lia. Qed.

Lemma store_good_filter (f : expenses.row -> bool) (st : Store) :
  store_good st -> store_good (mkStore (filter f (rows st)) (next_id st)).
Proof.
  intros ((Hid & Hfin & Hlen) & Hrow). split; [split; [|split]|]; cbn [rows next_id].
  - apply ids_ok_filter, Hid.
  - apply Forall_filter, Hfin.
  - pose proof (filter_length_le f (rows st)). lia.
  - apply Forall_filter, Hrow.
Qed.

Lemma framed_select_sum (uid : Z) (c : text) : framed (db_exec (SELECT_SUM uid c)).
Proof.
  intros w. unfold db_exec, frame.
  destruct (hd (Served []) (sched w)); cbn; auto.
Qed.

Lemma framed_select_last (uid : Z) : framed (db_exec (SELECT_LAST uid)).
Proof.
  intros w. unfold db_exec, frame.
  destruct (hd (Served []) (sched w)); cbn; auto.
Qed.

Lemma framed_delete_id (i : Z) : framed (db_exec (DELETE_ID i)).
Proof.
  intros w. unfold db_exec, frame.
  destruct (hd (Served []) (sched w)); cbn; auto.
  split; [reflexivity|]. split; [reflexivity|]. apply store_good_filter.
Qed.

Lemma framed_delete_user (uid : Z) : framed (db_exec (DELETE_USER uid)).
Proof.
  intros w. unfold db_exec, frame.
  destruct (hd (Served []) (sched w)); cbn; auto.
  split; [reflexivity|]. split; [reflexivity|]. apply store_good_filter.
Qed.

Lemma framed_summary (uid : Z) (c : text) : framed (summary uid c).
Proof.
  unfold summary. apply framed_bind; [apply framed_select_sum|].
  intros [|r rs]; [apply framed_reply|].
  repeat (apply framed_bind; [apply framed_lift|intros ?]).
  apply framed_reply.
Qed.

Lemma framed_undo (uid : Z) : framed (undo uid).
Proof.
  unfold undo. apply framed_bind; [apply framed_select_last|].
  intros [|[[[i c] s] a] rs]; [apply framed_reply|].
  apply framed_bind; [apply framed_delete_id|intros _].
  apply framed_bind; [apply framed_lift|intros m]. apply framed_reply.
Qed.

Lemma framed_restart (uid : Z) : framed (restart uid).
Proof.
  unfold restart. apply framed_bind; [apply framed_delete_user|intros _].
  apply framed_reply.
Qed.

Lemma framed_menu (uid : Z) : framed (menu uid).
Proof. apply framed_reply. Qed.

Lemma Inv_frame (w w' : World) : frame w w' -> Inv w -> Inv w'.
Proof.
  intros (U & C & S) (Hs & Hu). split; [auto|].
  intros uid. rewrite U, C. apply Hu.
Qed.

Lemma Inv_update (w w' : World) (uid : Z) :
  Inv w ->
  store_good (db w') ->
  session_ok (conv w' uid) (user_data w' uid) ->
  (forall u, u <> uid -> conv w' u = conv w u /\ user_data w' u = user_data w u) ->
  Inv w'.
Proof.
  intros (_ & Hu) Hs Hme Hothers. split; [assumption|].
  intros u. destruct (Z.eq_dec u uid) as [->|Hne]; [assumption|].
  destruct (Hothers u Hne) as [-> ->]. apply Hu.
Qed.

Lemma eqb_other (u uid : Z) : u <> uid -> (u =? uid)%Z = false.
Proof. intros H. apply Z.eqb_neq, H. Qed.

(** Worlds that differ from [w] by replies, by the schedule, and by the
    session and the conversation of [uid]. *)
Ltac others :=
  let u := fresh "u" in
  let H := fresh "H" in
  intros u H; cbn; rewrite ?(eqb_other _ _ H); auto.

Lemma insert_cases (w : World) (a : Decimal) :
  (exists n, insertable w a n) \/ uninsertable w a.
Proof.
  unfold insertable, uninsertable.
  destruct (hd (Served []) (sched w)) as [|plan] eqn:E; [right; auto|].
  destruct (numeric_10_2 a) as [n|]; [|right; auto].
  destruct (Z_le_gt_dec (next_id (db w)) SERIAL_MAX) as [L|G].
  - left. exists n. repeat split; [discriminate|assumption].
  - right. right. right. lia.
Qed.

Lemma good_amount_stored (a : Decimal) (n : numeric) :
  good_amount a -> numeric_10_2 a = Some n ->
  exists z, n = Cents z /\ (0 <= z < 10 ^ 10)%Z.
Proof.
  intros (c & e & -> & _ & _). unfold numeric_10_2.
  destruct (numeric_in e); [|discriminate].
  destruct (N.ltb_spec (rescale_half_up c e (-2)) (10 ^ 10)) as [L|L];
    [|discriminate].
  intros H; injection H as <-. eexists. split; [reflexivity|].
  unfold signed. assert (E : (10 ^ 10)%Z = Z.of_N (10 ^ 10)) by reflexivity.
  rewrite E. lia.
Qed.

Lemma good_amount_fmt (a : Decimal) : good_amount a -> exists m, _fmt_money a = Ret m.
Proof.
  intros (c & e & -> & _ & B). eexists. apply fmt_money_fin, B.
Qed.

Lemma store_good_insert (st : Store) (uid : Z) (c s : text) (z : Z)
  (l : option text) :
  store_good st ->
  (next_id st <= SERIAL_MAX)%Z ->
  row_ok (expenses.mk (next_id st) uid c s (Cents z) l) ->
  store_good
    (mkStore (rows st ++ [expenses.mk (next_id st) uid c s (Cents z) l])
       (next_id st + 1)).
Proof.
  intros ((Hid & Hfin & Hlen) & Hrow) Hn Hr.
  split; [split; [|split]|]; cbn [rows next_id].
  - apply ids_ok_insert, Hid.
  - apply Forall_app. split; [assumption|]. constructor; [|constructor].
    destruct Hr as (_ & _ & (z' & E & B) & _). cbn in E. injection E as <-.
    exists z. split; [reflexivity|lia].
  - rewrite length_app. cbn [length]. lia.
  - apply Forall_app. split; [assumption|]. constructor; [assumption|constructor].
Qed.

Lemma get_subcategory_invalid (w : World) (uid : Z) (txt c : text) (a : Decimal) :
  cat (user_data w uid) = Some c ->
  amount (user_data w uid) = Some a ->
  text_eqb (strip txt) BACK = false ->
  text_in (strip txt) (subcats_of c) = false ->
  get_subcategory uid txt w
  = (Ret SUBCATEGORY,
     add_sent w (mkReply uid (T "Please pick from the buttons.") NoMarkup)).
Proof.
  intros Hc Ha Hb Hv. unfold get_subcategory, bind, getitem.
  rewrite Hc, Ha, Hb, Hv. reflexivity.
Qed.

(** The world after [save_expense], whatever the insert meets. *)
Lemma save_expense_cases (w : World) (uid : Z) (c s : text) (a : Decimal) :
  cat (user_data w uid) = Some c ->
  subcat (user_data w uid) = Some s ->
  amount (user_data w uid) = Some a ->
  good_amount a ->
  (exists n m,
     insertable w a n /\
     save_expense uid w
     = (Ret tt, committed w uid c s n (label (user_data w uid)) m)) \/
  save_expense uid w = (Raise DatabaseError, set_sched w (tl (sched w))).
Proof.
  intros Hc Hs Ha Hg.
  destruct (row_fits uid c s (label (user_data w uid))) eqn:Hfit;
    [|right; exact (save_expense_unfit w uid c s a Hc Hs Ha Hfit)].
  destruct (insert_cases w a) as [(n & Hi)|Hf].
  - left. destruct (good_amount_fmt a Hg) as (m & Hm).
    exists n, m. split; [assumption|].
    exact (save_expense_ok w uid c s a n m Hc Hs Ha Hi Hfit Hm).
  - right. exact (save_expense_fails w uid c s a Hc Hs Ha Hf).
Qed.

Lemma good_category_in (choice : text) :
  text_in choice [T "needs"; T "wants"] = true -> good_category choice.
Proof.
  unfold text_in. cbn [existsb]. rewrite orb_false_r, orb_true_iff, !text_eqb_eq.
  exact (fun H => H).
Qed.

(** The invariant after a commit, with the session cleared and the
    conversation over. *)
Lemma Inv_committed (w w1 : World) (uid : Z) (c s : text) (a : Decimal)
  (n : numeric) (l : option text) (m : text) :
  Inv w ->
  db w1 = db w ->
  (forall u, u <> uid -> conv w1 u = conv w u /\ user_data w1 u = user_data w u) ->
  good_amount a -> good_category c ->
  text_in s (subcats_of c) = true ->
  (startswith s (T "Misc") = true -> l <> None) ->
  insertable w1 a n ->
  Inv (set_conv (committed w1 uid c s n l m) uid None).
Proof.
  intros HI Hdb Ho Hg Hc Hv Hl (_ & Hn & Hid).
  destruct (good_amount_stored a n Hg Hn) as (z & -> & Hz).
  apply (Inv_update w _ uid HI).
  - cbn [db committed set_conv set_user_data add_sent set_db].
    rewrite Hdb in *. apply store_good_insert; [apply HI|assumption|].
    repeat split; cbn; auto. exists z. auto.
  - rewrite conv_set_same. exact I.
  - intros u H. destruct (Ho u H) as [E1 E2].
    cbn. rewrite (eqb_other _ _ H). auto.
Qed.

(** The invariant for a world that keeps the table and differs from [w]
    at [uid] only: what is left to show is the session of [uid]. *)
Ltac same_store HI uid :=
  apply (Inv_update _ _ uid HI);
  [ cbn; apply HI
  | cbn; rewrite ?Z.eqb_refl;
    try match goal with H : conv _ _ = _ |- _ => rewrite H end; cbn
  | others ].

Theorem Inv_process_update (uid : Z) (u : Update) (w : World) :
  Inv w -> Inv (process_update uid u w).
Proof.
  intros HI. pose proof (proj2 HI uid) as Hse.
  destruct u as [name|txt]; unfold process_update.
  - destruct (text_eqb name (T "start")).
    { same_store HI uid. exact I. }
    destruct (text_eqb name (T "needs"));
      [exact (Inv_frame _ _ (framed_summary uid _ w) HI)|].
    destruct (text_eqb name (T "wants"));
      [exact (Inv_frame _ _ (framed_summary uid _ w) HI)|].
    destruct (text_eqb name (T "undo"));
      [exact (Inv_frame _ _ (framed_undo uid w) HI)|].
    destruct (text_eqb name (T "restart"));
      [exact (Inv_frame _ _ (framed_restart uid w) HI)|].
    exact HI.
  - destruct (conv w uid) as [[| | | |]|] eqn:Ec; cbn [session_ok] in Hse.
    + (* AMOUNT *)
      destruct (parse_amount txt) as [a|x] eqn:P.
      * rewrite (get_amount_store uid txt w a P).
        destruct (_fmt_money a) as [m|y] eqn:M; unfold conversation.
        -- same_store HI uid.
           exists a. split; [reflexivity|].
           apply parse_amount_ret in P. destruct P as [_ P].
           apply Decimal_le_0_false in P.
           destruct P as [->|(c & e & -> & Hc)]; [discriminate|].
           exists c, e. split; [reflexivity|]. split; [assumption|].
           eapply fmt_money_fits, M.
        -- same_store HI uid. exact I.
      * rewrite (get_amount_reject uid txt w x P). unfold conversation.
        same_store HI uid. exact I.
    + (* CATEGORY *)
      unfold get_category.
      destruct (text_in (lower (strip txt)) [T "needs"; T "wants"]) eqn:V;
        cbn [negb]; unfold bind, reply_text, modify, ret, conversation.
      * same_store HI uid.
        split; [exact Hse|]. eexists. split; [reflexivity|].
        apply good_category_in, V.
      * same_store HI uid. exact Hse.
    + (* SUBCATEGORY *)
      destruct Hse as ((a & Ha & Hg) & (c & Hc & Hgc)).
      destruct (text_eqb (strip txt) BACK) eqn:B.
      { apply text_eqb_eq in B.
        rewrite (get_subcategory_back w uid txt c a Hc Ha B).
        unfold conversation. same_store HI uid. exists a; auto. }
      destruct (text_in (strip txt) (subcats_of c)) eqn:V.
      2:{ rewrite (get_subcategory_invalid w uid txt c a Hc Ha B V).
          unfold conversation. same_store HI uid.
          split; [exists a; auto|exists c; auto]. }
      destruct (startswith (strip txt) (T "Misc")) eqn:Mi.
      { rewrite (get_subcategory_misc w uid txt c a Hc Ha V Mi).
        unfold conversation. same_store HI uid.
        split; [exists a; auto|]. exists c, (strip txt). auto. }
      rewrite (get_subcategory_plain w uid txt c a Hc Ha V Mi).
      destruct (save_expense_cases
                  (set_user_data w uid (set_subcat (strip txt) (user_data w uid)))
                  uid c (strip txt) a)
        as [(n & m & Hi & E)|E];
        try (rewrite user_data_set_same; cbn; auto; fail); try assumption;
        rewrite E; unfold conversation.
      * apply (Inv_committed w _ uid c (strip txt) a n _ m HI); auto.
        -- others.
        -- congruence.
      * same_store HI uid. split; [exists a; auto|exists c; auto].
    + (* LABEL *)
      destruct Hse as ((a & Ha & Hg) & (c & k & Hc & Hgc & Hk & Hv & Hm)).
      rewrite get_label_unfold.
      destruct (save_expense_cases
                  (set_user_data w uid (set_label (strip txt) (user_data w uid)))
                  uid c k a)
        as [(n & m & Hi & E)|E];
        try (rewrite user_data_set_same; cbn; auto; fail); try assumption;
        rewrite E; unfold conversation.
      * rewrite user_data_set_same. cbn [label set_label].
        apply (Inv_committed w _ uid c k a n _ m HI); auto.
        -- others.
        -- discriminate.
      * same_store HI uid. split; [exists a; auto|]. exists c, k. auto.
    + destruct Hse.
    + exact (Inv_frame _ _ (framed_menu uid w) HI).
Qed.

Lemma Inv_initial (s : list db_event) : Inv (initial s).
Proof.
  split; [|intros uid; exact I].
  split; [split; [split; repeat constructor|split; [constructor|]]|constructor].
  cbn. unfold SERIAL_MAX. lia.
Qed.

(** Every world the bot reaches satisfies the invariant. *)
Theorem reachable_Inv (w : World) : reachable w -> Inv w.
Proof.
  intros (us & s & ->). unfold run.
  generalize (Inv_initial s). generalize (initial s).
  induction us as [|[uid u] us IH]; intros w H; [exact H|].
  cbn [fold_left fst snd]. apply IH, Inv_process_update, H.
Qed.

(* ================================================================== *)
(** * The conversation, from every world the bot reaches *)
(* ================================================================== *)

Lemma reachable_subcategory (w : World) (uid : Z) :
  reachable w ->
  conv w uid = Some SUBCATEGORY ->
  exists a c,
    amount (user_data w uid) = Some a /\ good_amount a /\
    cat (user_data w uid) = Some c /\ good_category c.
Proof.
  intros Hr Hs. destruct (reachable_Inv w Hr) as [_ H].
  specialize (H uid). rewrite Hs in H.
  destruct H as [(a & Ha & Ga) (c & Hc & Gc)].
  exists a, c. auto.
Qed.

Lemma reachable_label (w : World) (uid : Z) :
  reachable w ->
  conv w uid = Some LABEL ->
  exists a c k,
    amount (user_data w uid) = Some a /\ good_amount a /\
    cat (user_data w uid) = Some c /\ good_category c /\
    subcat (user_data w uid) = Some k /\
    text_in k (subcats_of c) = true /\ startswith k (T "Misc") = true.
Proof.
  intros Hr Hs. destruct (reachable_Inv w Hr) as [_ H].
  specialize (H uid). rewrite Hs in H.
  destruct H as [(a & Ha & Ga) (c & k & Hc & Gc & Hk & Hv & Hm)].
  exists a, c, k. auto 10.
Qed.

(** An accepted amount that fits the column can be rendered. *)
Lemma fmt_money_good (a : Decimal) (n : numeric) :
  good_amount a -> numeric_10_2 a = Some n -> exists m, _fmt_money a = Ret m.
Proof.
  intros (c & e & -> & _) Hn. eexists. exact (fmt_money_storable _ _ _ _ Hn).
Qed.

(** C7, as amended: in every world the bot reaches, from [SUBCATEGORY] the
    back token moves the conversation to [CATEGORY], sends the category
    question again and touches neither the table nor the schedule of
    database calls; the session is left as it is, so the category chosen
    before stays in [user_data] until the next choice overwrites it. *)
Theorem back_returns_to_category (w : World) (uid : Z) (txt : text) :
  reachable w ->
  conv w uid = Some SUBCATEGORY ->
  strip txt = BACK ->
  let w' := process_update uid (Message txt) w in
  conv w' uid = Some CATEGORY /\
  user_data w' = user_data w /\
  (exists c, cat (user_data w' uid) = Some c /\ good_category c) /\
  db w' = db w /\
  sched w' = sched w /\
  sent w' = sent w ++ [back_reply uid].
Proof.
  intros Hr Hs Hb. cbv zeta.
  destruct (reachable_subcategory w uid Hr Hs) as (a & c & Ha & _ & Hc & Gc).
  rewrite (process_back w uid txt c a Hs Hc Ha Hb).
  rewrite conv_set_same.
  split; [reflexivity|]. split; [reflexivity|].
  split; [exists c; split; [exact Hc|exact Gc]|].
  split; [reflexivity|]. split; reflexivity.
Qed.

Lemma back_returns_to_category_witness :
  let w' := process_update alice (Message (T "  ⬅ Back ")) (at_subcategory []) in
  conv w' alice = Some CATEGORY /\
  user_data w' = user_data (at_subcategory []) /\
  (exists c, cat (user_data w' alice) = Some c /\ good_category c) /\
  db w' = db (at_subcategory []) /\
  sched w' = sched (at_subcategory []) /\
  sent w' = sent (at_subcategory []) ++ [back_reply alice].
Proof.
  apply (back_returns_to_category (at_subcategory []) alice (T "  ⬅ Back "));
    [|reflexivity|reflexivity].
  exists [(alice, Command (T "start")); (alice, Message (T "12.5"));
          (alice, Message (T "Needs"))], [].
  reflexivity.
Defined.





(** C10: in every world the bot reaches, in the [LABEL] state a message of
    whitespace only is accepted; when the insert goes through, the row is
    committed with the empty string as its label (a string, not NULL), the
    confirmation ends right after the subcategory, without the
    parenthesised label, and the conversation is over.  The insert goes
    through when the call is served, the amount is one the column takes,
    the user id is a [BIGINT] and the sequence is not exhausted. *)
Theorem blank_label_is_stored_empty (w : World) (uid : Z) (txt : text)
  (a : Decimal) (n : numeric) :
  reachable w ->
  conv w uid = Some LABEL ->
  amount (user_data w uid) = Some a ->
  insertable w a n ->
  bigint uid = true ->
  forallb isspace txt = true ->
  let w' := process_update uid (Message txt) w in
  exists c s m,
    cat (user_data w uid) = Some c /\
    subcat (user_data w uid) = Some s /\
    _fmt_money a = Ret m /\
    conv w' uid = None /\
    rows (db w')
    = rows (db w) ++ [expenses.mk (next_id (db w)) uid c s n (Some [])] /\
    sent w'
    = sent w
        ++ [mkReply uid
              (T "Logged " ++ m ++ T " to " ++ title c ++ T " → " ++ s ++ T ".")
              ReplyKeyboardRemove].
Proof.
  intros Hr Hl Ha Hi Hu Hw. cbv zeta.
  destruct (reachable_label w uid Hr Hl)
    as (a' & c & k & Ha' & Ga & Hc & Gc & Hk & Hv & _).
  assert (a' = a) by congruence. subst a'.
  pose proof Hi as (_ & Hn & _).
  destruct (fmt_money_good a n Ga Hn) as (m & Hm).
  exists c, k, m.
  split; [exact Hc|]. split; [exact Hk|]. split; [exact Hm|].
  assert (Hfit : row_fits uid c k (Some (strip txt)) = true).
  { apply row_fits_choice; try assumption.
    rewrite (strip_spaces txt Hw). reflexivity. }
  rewrite (process_label_ok w uid txt c k a n m Hl Hc Hk Ha Hi Hfit Hm).
  rewrite (strip_spaces txt Hw).
  rewrite conv_set_same. split; [reflexivity|]. split; reflexivity.
Qed.

Lemma blank_label_is_stored_empty_witness :
  let w' := process_update alice (Message (T "   ")) (at_label []) in
  exists c s m,
    cat (user_data (at_label []) alice) = Some c /\
    subcat (user_data (at_label []) alice) = Some s /\
    _fmt_money (Fin false 125 (-1)) = Ret m /\
    conv w' alice = None /\
    rows (db w')
    = rows (db (at_label []))
        ++ [expenses.mk (next_id (db (at_label []))) alice c s (Cents 1250)
              (Some [])] /\
    sent w'
    = sent (at_label [])
        ++ [mkReply alice
              (T "Logged " ++ m ++ T " to " ++ title c ++ T " → " ++ s ++ T ".")
              ReplyKeyboardRemove].
Proof.
  apply (blank_label_is_stored_empty (at_label []) alice (T "   ")
           (Fin false 125 (-1)) (Cents 1250)).
  - exists [(alice, Command (T "start")); (alice, Message (T "12.5"));
            (alice, Message (T "Needs")); (alice, Message (T "Misc Needs"))],
           [].
    reflexivity.
  - reflexivity.
  - reflexivity.
  - split; [discriminate|]. split; [reflexivity|]. vm_compute. discriminate.
  - reflexivity.
  - reflexivity.
Defined.




(* ================================================================== *)
(** * Further properties: the keyboards *)
(* ================================================================== *)

Lemma list_ind2 {A : Type} (P : list A -> Prop) :
  P [] -> (forall a, P [a]) -> (forall a b l, P l -> P (a :: b :: l)) ->
  forall l, P l.
Proof.
  intros H0 H1 H2.
  assert (H : forall l, P l /\ forall a, P (a :: l)).
  { induction l as [|b l [IH1 IH2]]; split; auto. }
  intros l. apply H.
Qed.

Lemma half_up_succ (n : nat) : ((S (S n) + 1) / 2 = S ((n + 1) / 2))%nat.
Proof.
  replace (S (S n) + 1)%nat with ((n + 1) + 1 * 2)%nat by lia.
  rewrite Nat.div_add by lia. lia.
Qed.

Lemma pairs_of_slices2 (l : list text) : pairs_of l = slices2 l.
Proof.
  induction l as [|a|a b l IH] using list_ind2; [reflexivity|reflexivity|].
  unfold slices2. cbn [length]. rewrite half_up_succ.
  cbn [seq map pairs_of]. rewrite IH. unfold slices2.
  f_equal. rewrite <- seq_shift, map_map.
  apply map_ext. intros k.
  replace (2 * S k)%nat with (S (S (2 * k))) by lia. reflexivity.
Qed.

Lemma keyboard_rows_concat (l : list text) : concat (pairs_of l) = l.
Proof.
  induction l as [|a|a b l IH] using list_ind2; [reflexivity|reflexivity|].
  cbn [pairs_of concat app]. rewrite IH. reflexivity.
Qed.

(** X1.  The keyboard of [get_category]: the rows built by recursion are the
    slices of the comprehension in the source; read row by row they give
    back the list of subcategories, each once and in order; every row has
    one or two buttons, and there are half as many rows as subcategories,
    rounded up. *)
Theorem keyboard_rows (l : list text) :
  pairs_of l = slices2 l /\
  concat (pairs_of l) = l /\
  Forall (fun row => (1 <= length row <= 2)%nat) (pairs_of l) /\
  length (pairs_of l) = ((length l + 1) / 2)%nat.
Proof.
  split; [apply pairs_of_slices2|].
  induction l as [|a|a b l (IH1 & IH2 & IH3)] using list_ind2.
  - split; [reflexivity|]. split; [constructor|reflexivity].
  - split; [reflexivity|]. split; [|reflexivity].
    constructor; [cbn; lia|constructor].
  - cbn [pairs_of concat length app]. rewrite half_up_succ, IH1, IH3.
    split; [reflexivity|]. split; [|reflexivity].
    constructor; [cbn; lia|exact IH2].
Qed.

(* ================================================================== *)
(** * Further properties: the choices *)
(* ================================================================== *)

Lemma get_category_accepts (w : World) (uid : Z) (txt : text) :
  text_in (lower (strip txt)) [T "needs"; T "wants"] = true ->
  get_category uid txt w
  = (Ret SUBCATEGORY,
     add_sent
       (set_user_data w uid (set_cat (lower (strip txt)) (user_data w uid)))
       (pick_reply uid (lower (strip txt)))).
Proof.
  intros H. unfold get_category. cbv zeta. rewrite H. reflexivity.
Qed.

Lemma get_category_rejects (w : World) (uid : Z) (txt : text) :
  text_in (lower (strip txt)) [T "needs"; T "wants"] = false ->
  get_category uid txt w = (Ret CATEGORY, add_sent w (choose_reply uid)).
Proof.
  intros H. unfold get_category. cbv zeta. rewrite H. reflexivity.
Qed.

Lemma reachable_category (w : World) (uid : Z) :
  reachable w ->
  conv w uid = Some CATEGORY ->
  exists a, amount (user_data w uid) = Some a /\ good_amount a.
Proof.
  intros Hr Hs. destruct (reachable_Inv w Hr) as [_ H].
  specialize (H uid). rewrite Hs in H. exact H.
Qed.

(** A choice of [get_subcategory] that is not refused. *)
Lemma get_subcategory_taken (w : World) (uid : Z) (b c : text) (a : Decimal) :
  cat (user_data w uid) = Some c ->
  amount (user_data w uid) = Some a ->
  strip b = BACK \/ text_in (strip b) (subcats_of c) = true ->
  fst (get_subcategory uid b w) <> Ret SUBCATEGORY.
Proof.
  intros Hc Ha [Hb|Hv].
  - rewrite (get_subcategory_back w uid b c a Hc Ha Hb). discriminate.
  - destruct (startswith (strip b) (T "Misc")) eqn:Hm.
    + rewrite (get_subcategory_misc w uid b c a Hc Ha Hv Hm). discriminate.
    + rewrite (get_subcategory_plain w uid b c a Hc Ha Hv Hm).
      destruct (save_expense uid _) as [[[]|e] w']; discriminate.
Qed.

Lemma buttons_taken (c b : text) :
  good_category c ->
  In b (subcats_of c ++ [BACK]) ->
  strip b = BACK \/ text_in (strip b) (subcats_of c) = true.
Proof.
  intros [->| ->] H; cbn in H;
    repeat (destruct H as [<-|H]; [vm_compute; auto|]); destruct H.
Qed.

(** X2.  In every world the bot reaches, a category choice that reads [needs] or
    [wants] once stripped and lower-cased is stored in that form, and
    answered with a keyboard that shows the subcategories of the category,
    in order, followed by the back button; whichever of these buttons the
    user presses next, [get_subcategory] does not refuse it.  Likewise the
    two buttons offered for the category are taken by [get_category]. *)
Theorem offered_buttons_are_accepted (w : World) (uid : Z) (txt : text) :
  reachable w ->
  conv w uid = Some CATEGORY ->
  text_in (lower (strip txt)) [T "needs"; T "wants"] = true ->
  let c := lower (strip txt) in
  let w1 := process_update uid (Message txt) w in
  good_category c /\
  conv w1 uid = Some SUBCATEGORY /\
  user_data w1 uid = set_cat c (user_data w uid) /\
  db w1 = db w /\ sched w1 = sched w /\
  sent w1 = sent w ++ [pick_reply uid c] /\
  buttons (reply_markup (pick_reply uid c)) = subcats_of c ++ [BACK] /\
  (forall b, In b (buttons (reply_markup (pick_reply uid c))) ->
     fst (get_subcategory uid b w1) <> Ret SUBCATEGORY) /\
  (forall b w2, In b (buttons needs_wants_kb) ->
     fst (get_category uid b w2) = Ret SUBCATEGORY).
Proof.
  intros Hr Hs Hin. cbv zeta.
  destruct (reachable_category w uid Hr Hs) as (a & Ha & _).
  pose proof (good_category_in _ Hin) as Gc.
  assert (Hb : buttons (reply_markup (pick_reply uid (lower (strip txt))))
               = subcats_of (lower (strip txt)) ++ [BACK]).
  { unfold pick_reply, buttons, reply_markup.
    rewrite concat_app. cbn [concat app].
    rewrite keyboard_rows_concat. reflexivity. }
  unfold process_update. rewrite Hs, (get_category_accepts w uid txt Hin).
  unfold conversation. rewrite conv_set_same.
  split; [exact Gc|]. split; [reflexivity|].
  split; [cbn; rewrite Z.eqb_refl; reflexivity|].
  do 3 (split; [reflexivity|]). split; [exact Hb|]. split.
  - intros b Hbtn. rewrite Hb in Hbtn.
    apply (get_subcategory_taken _ uid b (lower (strip txt)) a).
    + cbn. rewrite Z.eqb_refl. reflexivity.
    + cbn. rewrite Z.eqb_refl. exact Ha.
    + exact (buttons_taken _ b Gc Hbtn).
  - intros b w2 Hbtn. cbn in Hbtn.
    destruct Hbtn as [<-|[<-|[]]];
      rewrite get_category_accepts by (vm_compute; reflexivity); reflexivity.
Qed.

Lemma offered_buttons_are_accepted_witness :
  let w1 := process_update alice (Message (T " NEEDS ")) (at_category []) in
  conv w1 alice = Some SUBCATEGORY /\
  cat (user_data w1 alice) = Some (T "needs") /\
  fst (get_subcategory alice (T "Groceries") w1) <> Ret SUBCATEGORY.
Proof.
  destruct (offered_buttons_are_accepted (at_category []) alice (T " NEEDS "))
    as (_ & H1 & H2 & _ & _ & _ & H3 & H4 & _).
  - exists [(alice, Command (T "start")); (alice, Message (T "12.5"))], [].
    reflexivity.
  - reflexivity.
  - reflexivity.
  - cbv zeta. split; [exact H1|]. split; [rewrite H2; reflexivity|].
    apply H4. rewrite H3. vm_compute. auto 10.
Defined.

(** X3.  In every world the bot reaches, a choice that is not among those on
    offer is answered with the request to choose again and changes nothing
    else: the state, the session and the table are as before.  The
    category is compared stripped and lower-cased, the subcategory stripped
    only, so that [food] is no subcategory. *)
Theorem invalid_choices_ask_again (w : World) (uid : Z) (txt : text) :
  reachable w ->
  let w' := process_update uid (Message txt) w in
  (conv w uid = Some CATEGORY ->
   text_in (lower (strip txt)) [T "needs"; T "wants"] = false ->
   sent w' = sent w ++ [choose_reply uid] /\
   (forall v, conv w' v = conv w v) /\
   user_data w' = user_data w /\ db w' = db w /\ sched w' = sched w) /\
  (conv w uid = Some SUBCATEGORY ->
   forall c,
     cat (user_data w uid) = Some c ->
     strip txt <> BACK ->
     text_in (strip txt) (subcats_of c) = false ->
     sent w' = sent w ++ [buttons_reply uid] /\
     (forall v, conv w' v = conv w v) /\
     user_data w' = user_data w /\ db w' = db w /\ sched w' = sched w).
Proof.
  intros Hr. cbv zeta. split.
  - intros Hs Hin. unfold process_update.
    rewrite Hs, (get_category_rejects w uid txt Hin).
    unfold conversation. split; [reflexivity|]. split; [|auto].
    intros v. cbn. destruct (Z.eqb_spec v uid) as [->|]; auto.
  - intros Hs c Hc Hb Hin.
    destruct (reachable_subcategory w uid Hr Hs) as (a & _ & Ha & _).
    unfold process_update. rewrite Hs.
    rewrite (get_subcategory_invalid w uid txt c a Hc Ha); [| |exact Hin].
    + unfold conversation. split; [reflexivity|]. split; [|auto].
      intros v. cbn. destruct (Z.eqb_spec v uid) as [->|]; auto.
    + destruct (text_eqb (strip txt) BACK) eqn:E; [|reflexivity].
      apply text_eqb_eq in E. contradiction.
Qed.

Lemma invalid_choices_ask_again_witness :
  let w := at_subcategory [] in
  let w' := process_update alice (Message (T "food")) w in
  sent w' = sent w ++ [buttons_reply alice] /\
  conv w' alice = Some SUBCATEGORY /\
  db w' = db w.
Proof.
  destruct (invalid_choices_ask_again (at_subcategory []) alice (T "food"))
    as [_ H].
  - exists [(alice, Command (T "start")); (alice, Message (T "12.5"));
            (alice, Message (T "Needs"))], [].
    reflexivity.
  - destruct (H eq_refl (T "needs")) as (H1 & H2 & _ & H3 & _).
    + reflexivity.
    + vm_compute. discriminate.
    + reflexivity.
    + cbv zeta. split; [exact H1|]. split; [rewrite H2; reflexivity|exact H3].
Defined.

(* ================================================================== *)
(** * Further properties: money *)
(* ================================================================== *)

Lemma quantize_raises (x y : Decimal) (e : exn) :
  quantize x y = Raise e -> e = InvalidOperation.
Proof.
  unfold quantize. intros H.
  destruct x as [n c x|n|n [|] p], y as [n' c' y|n'|n' [|] p'];
    try discriminate; try (injection H as <-; reflexivity).
  repeat match type of H with
         | (if ?b then _ else _) = _ => destruct b
         end;
    try discriminate; injection H as <-; reflexivity.
Qed.

Lemma fmt_money_raises (x : Decimal) (e : exn) :
  _fmt_money x = Raise e -> e = InvalidOperation.
Proof.
  unfold _fmt_money. intros H.
  destruct (quantize x (Fin false 1 (-2))) as [q|e'] eqn:Q; [discriminate|].
  injection H as <-. exact (quantize_raises _ _ _ Q).
Qed.

(** X4.  [_fmt_money] on every [Decimal]: a finite value is shown with its sign,
    its digits, a point and exactly two digits, rounded half to even, as
    long as the rounded number of cents has at most 28 digits; beyond
    that, and for an infinity or a signaling NaN, the quantize raises
    [InvalidOperation]; a quiet NaN is shown as [NaN] with its payload. *)
Theorem fmt_money_cases (x : Decimal) :
  _fmt_money x
  = match x with
    | Fin neg c e =>
      let q := rescale_half_even c e (-2) in
      if q <? pow10 28
      then Ret (T "$" ++ sign_text neg ++ str_N (q / 100) ++ [46]
                  ++ two_digits (q mod 100))
      else Raise InvalidOperation
    | Inf _ => Raise InvalidOperation
    | NaN _ true _ => Raise InvalidOperation
    | NaN neg false p =>
      Ret (T "$" ++ sign_text neg ++ T "NaN"
             ++ (if p mod pow10 28 =? 0 then [] else str_N (p mod pow10 28)))
    end.
Proof.
  destruct x as [neg c e|neg|neg [|] p]; try reflexivity.
  cbv zeta. destruct (N.ltb_spec (rescale_half_even c e (-2)) (pow10 28)) as [L|L].
  - rewrite (fmt_money_fin neg c e L). reflexivity.
  - destruct (_fmt_money (Fin neg c e)) as [m|x] eqn:M.
    + apply fmt_money_fits in M. lia.
    + apply fmt_money_raises in M. subst x. reflexivity.
Qed.

(* ================================================================== *)
(** * Further properties: what the handlers raise *)
(* ================================================================== *)

Lemma save_expense_raises (w : World) (uid : Z) (c s : text) (a : Decimal)
  (e : exn) :
  cat (user_data w uid) = Some c ->
  subcat (user_data w uid) = Some s ->
  amount (user_data w uid) = Some a ->
  good_amount a ->
  fst (save_expense uid w) = Raise e -> e = DatabaseError.
Proof.
  intros Hc Hs Ha Ga H.
  destruct (save_expense_cases w uid c s a Hc Hs Ha Ga) as [(n & m & _ & E)|E];
    rewrite E in H; [discriminate|].
  injection H as <-. reflexivity.
Qed.

(** X5.  In every world the bot reaches, the handler of the state a conversation
    is in finds the keys of [user_data] it reads: [get_category] raises
    nothing, [get_subcategory] and [get_label] raise nothing but the error
    of the database, and [get_amount] raises nothing but the
    [InvalidOperation] of the money formatter. *)
Theorem handlers_raise_only (w : World) (uid : Z) (txt : text) (e : exn) :
  reachable w ->
  (fst (get_amount uid txt w) = Raise e -> e = InvalidOperation) /\
  fst (get_category uid txt w) <> Raise e /\
  (conv w uid = Some SUBCATEGORY ->
   fst (get_subcategory uid txt w) = Raise e -> e = DatabaseError) /\
  (conv w uid = Some LABEL ->
   fst (get_label uid txt w) = Raise e -> e = DatabaseError).
Proof.
  intros Hr. split; [|split; [|split]].
  - intros H. destruct (parse_amount txt) as [a|x] eqn:P.
    + rewrite (get_amount_store uid txt w a P) in H.
      destruct (_fmt_money a) as [m|y] eqn:M; [discriminate|].
      injection H as <-. exact (fmt_money_raises a y M).
    + pose proof (get_amount_reject uid txt w x P) as R.
      unfold rejected in R. rewrite R in H. discriminate.
  - destruct (text_in (lower (strip txt)) [T "needs"; T "wants"]) eqn:Hin.
    + rewrite (get_category_accepts w uid txt Hin). discriminate.
    + rewrite (get_category_rejects w uid txt Hin). discriminate.
  - intros Hs H.
    destruct (reachable_subcategory w uid Hr Hs) as (a & c & Ha & Ga & Hc & _).
    destruct (text_eqb (strip txt) BACK) eqn:Hb.
    { apply text_eqb_eq in Hb.
      rewrite (get_subcategory_back w uid txt c a Hc Ha Hb) in H. discriminate. }
    destruct (text_in (strip txt) (subcats_of c)) eqn:Hv.
    2:{ rewrite (get_subcategory_invalid w uid txt c a Hc Ha Hb Hv) in H.
        discriminate. }
    destruct (startswith (strip txt) (T "Misc")) eqn:Hm.
    { rewrite (get_subcategory_misc w uid txt c a Hc Ha Hv Hm) in H.
      discriminate. }
    rewrite (get_subcategory_plain w uid txt c a Hc Ha Hv Hm) in H.
    destruct (save_expense uid _) as [[[]|x] w'] eqn:S; [discriminate|].
    injection H as <-.
    apply (save_expense_raises
             (set_user_data w uid (set_subcat (strip txt) (user_data w uid)))
             uid c (strip txt) a);
      try (rewrite user_data_set_same); auto.
    rewrite S. reflexivity.
  - intros Hs H.
    destruct (reachable_label w uid Hr Hs)
      as (a & c & k & Ha & Ga & Hc & _ & Hk & _).
    rewrite get_label_unfold in H.
    destruct (save_expense uid _) as [[[]|x] w'] eqn:S; [discriminate|].
    injection H as <-.
    apply (save_expense_raises
             (set_user_data w uid (set_label (strip txt) (user_data w uid)))
             uid c k a);
      try (rewrite user_data_set_same); auto.
    rewrite S. reflexivity.
Qed.

Lemma handlers_raise_only_witness :
  exists e,
    fst (get_subcategory alice (T "Food") (at_subcategory [Fault])) = Raise e /\
    e = DatabaseError.
Proof.
  exists DatabaseError. split; [reflexivity|].
  destruct (handlers_raise_only (at_subcategory [Fault]) alice (T "Food")
              DatabaseError) as (_ & _ & H & _).
  - exists [(alice, Command (T "start")); (alice, Message (T "12.5"));
            (alice, Message (T "Needs"))], [Fault].
    reflexivity.
  - apply H; reflexivity.
Defined.

(* ================================================================== *)
(** * Further properties: the rows of the table *)
(* ================================================================== *)

Lemma NoDup_map_eq {A B : Type} (f : A -> B) (l : list A) (x y : A) :
  NoDup (map f l) -> In x l -> In y l -> f x = f y -> x = y.
Proof.
  induction l as [|a l IH]; intros Hn Hx Hy E; [destruct Hx|].
  cbn in Hn. inversion Hn as [|? ? Hnot Hn']; subst.
  destruct Hx as [->|Hx], Hy as [->|Hy].
  - reflexivity.
  - exfalso. apply Hnot. rewrite E. apply in_map, Hy.
  - exfalso. apply Hnot. rewrite <- E. apply in_map, Hx.
  - apply IH; assumption.
Qed.

(** X6.  Every row of the table, in every world the bot reaches: the category is
    [needs] or [wants], the subcategory is one of that category, the amount
    is a number (no NaN) of cents from 0 to below ten to the 10, and a
    miscellaneous subcategory comes with a label; the id is below the next
    value of the sequence, within the range of [SERIAL], and is the id of
    no other row. *)
Theorem committed_rows_are_well_formed (w : World) (r : expenses.row) :
  reachable w ->
  In r (rows (db w)) ->
  good_category (expenses.category r) /\
  text_in (expenses.subcategory r) (subcats_of (expenses.category r)) = true /\
  (exists z, expenses.amount r = Cents z /\ (0 <= z < 10 ^ 10)%Z) /\
  (startswith (expenses.subcategory r) (T "Misc") = true ->
   expenses.label r <> None) /\
  (expenses.id r < next_id (db w) <= SERIAL_MAX + 1)%Z /\
  (forall r', In r' (rows (db w)) -> expenses.id r' = expenses.id r -> r' = r).
Proof.
  intros Hr Hin.
  destruct (reachable_Inv w Hr) as [[((Hnd & Hlt) & _ & Hlen) Hrows] _].
  rewrite Forall_forall in Hrows, Hlt.
  destruct (Hrows r Hin) as (H1 & H2 & H3 & H4).
  split; [exact H1|]. split; [exact H2|]. split; [exact H3|].
  split; [exact H4|]. split.
  - pose proof (Hlt r Hin). lia.
  - intros r' Hin' E. exact (NoDup_map_eq expenses.id _ r' r Hnd Hin' Hin E).
Qed.

Lemma committed_rows_are_well_formed_witness :
  exists z,
    expenses.amount (expenses.mk 1 alice (T "needs") (T "Food") (Cents 0) None)
    = Cents z /\ (0 <= z < 10 ^ 10)%Z.
Proof.
  destruct (committed_rows_are_well_formed tenth_of_a_cent
              (expenses.mk 1 alice (T "needs") (T "Food") (Cents 0) None))
    as (_ & _ & H & _).
  - exists [(alice, Command (T "start")); (alice, Message (T "0.001"));
            (alice, Message (T "Needs")); (alice, Message (T "Food"))], [].
    reflexivity.
  - vm_compute. left. reflexivity.
  - exact H.
Defined.

(* ================================================================== *)
(** * Further properties: one user does not reach another *)
(* ================================================================== *)

Lemma own_refl (uid : Z) (w : World) : own uid w w.
Proof.
  intros H. split; [exact H|]. split; [auto|]. split; [auto|]. split; [auto|].
  exists []. split; [symmetry; apply app_nil_r|constructor].
Qed.

Lemma own_trans (uid : Z) (w1 w2 w3 : World) :
  own uid w1 w2 -> own uid w2 w3 -> own uid w1 w3.
Proof.
  intros H12 H23 H1.
  destruct (H12 H1) as (I2 & U2 & C2 & R2 & n2 & S2 & F2).
  destruct (H23 I2) as (I3 & U3 & C3 & R3 & n3 & S3 & F3).
  split; [exact I3|].
  split; [intros v Hv; rewrite (U3 v Hv); exact (U2 v Hv)|].
  split; [rewrite C3; exact C2|].
  split; [intros v Hv; rewrite (R3 v Hv); exact (R2 v Hv)|].
  exists (n2 ++ n3). split.
  - rewrite S3, S2, app_assoc. reflexivity.
  - apply Forall_app. split; assumption.
Qed.

Lemma owned_ret {A : Type} (uid : Z) (a : A) : owned uid (ret a).
Proof. intros w. apply own_refl. Qed.

Lemma owned_lift {A : Type} (uid : Z) (r : res A) : owned uid (lift r).
Proof. intros w. apply own_refl. Qed.

Lemma owned_get {A : Type} (uid : Z) (f : Session -> option A) :
  owned uid (get uid f).
Proof. intros w. apply own_refl. Qed.

Lemma owned_getitem {A : Type} (uid : Z) (f : Session -> option A) (k : text) :
  owned uid (getitem uid f k).
Proof.
  intros w. unfold getitem. destruct (f (user_data w uid)); apply own_refl.
Qed.

Lemma owned_reply (uid : Z) (b : text) (k : markup) :
  owned uid (reply_text uid b k).
Proof.
  intros w H. cbn. split; [exact H|]. split; [auto|]. split; [auto|].
  split; [auto|]. exists [mkReply uid b k]. split; [reflexivity|].
  constructor; [reflexivity|constructor].
Qed.

Lemma owned_modify (uid : Z) (f : Session -> Session) : owned uid (modify uid f).
Proof.
  intros w H. cbn. split; [exact H|]. split.
  - intros v Hv. rewrite (eqb_other v uid Hv). reflexivity.
  - split; [auto|]. split; [auto|].
    exists []. split; [symmetry; apply app_nil_r|constructor].
Qed.

Lemma owned_bind {A B : Type} (uid : Z) (m : M A) (k : A -> M B) :
  owned uid m -> (forall a, owned uid (k a)) -> owned uid (bind m k).
Proof.
  intros Hm Hk w. unfold bind. specialize (Hm w).
  destruct (m w) as [[a|e] w1]; cbn in Hm; [|exact Hm].
  exact (own_trans uid w w1 _ Hm (Hk a w1)).
Qed.

Lemma filter_filter_imp {A : Type} (f g : A -> bool) (l : list A) :
  (forall x, In x l -> f x = true -> g x = true) ->
  filter f (filter g l) = filter f l.
Proof.
  induction l as [|a l IH]; intros H; [reflexivity|].
  cbn. destruct (g a) eqn:G; cbn.
  - rewrite IH by (intros x Hx; apply H; right; exact Hx). reflexivity.
  - destruct (f a) eqn:F.
    + rewrite (H a (or_introl eq_refl) F) in G. discriminate.
    + apply IH. intros x Hx. apply H. right. exact Hx.
Qed.

(** A statement that keeps the key sound and the rows of the others. *)
Lemma own_db_exec {A : Type} (uid : Z) (q : Query A) (w : World) :
  (forall plan a st',
     execute q plan (db w) = Some (a, st') ->
     ids_ok (db w) ->
     ids_ok st' /\
     forall v, v <> uid ->
       filter (of_user v) (rows st') = filter (of_user v) (rows (db w))) ->
  own uid w (snd (db_exec q w)).
Proof.
  intros Hq H. unfold db_exec. cbv zeta.
  assert (Same : forall w1, db w1 = db w -> user_data w1 = user_data w ->
                 conv w1 = conv w -> sent w1 = sent w ->
                 ids_ok (db w1) /\
                 (forall v, v <> uid -> user_data w1 v = user_data w v) /\
                 conv w1 = conv w /\
                 (forall v, v <> uid ->
                    filter (of_user v) (rows (db w1))
                    = filter (of_user v) (rows (db w))) /\
                 exists new, sent w1 = sent w ++ new /\
                             Forall (fun r => chat r = uid) new).
  { intros w1 E1 E2 E3 E4. rewrite E1, E2, E3, E4.
    split; [exact H|]. split; [auto|]. split; [auto|]. split; [auto|].
    exists []. split; [symmetry; apply app_nil_r|constructor]. }
  destruct (hd (Served []) (sched w)) as [|plan]; [apply Same; reflexivity|].
  destruct (execute q plan (db w)) as [[a st']|] eqn:E;
    [|apply Same; reflexivity].
  destruct (Hq plan a st' E H) as [I R]. cbn.
  split; [exact I|]. split; [auto|]. split; [auto|]. split; [exact R|].
  exists []. split; [symmetry; apply app_nil_r|constructor].
Qed.

Lemma owned_insert (uid : Z) (c s : text) (a : Decimal) (l : option text) :
  owned uid (db_exec (INSERT uid c s a l)).
Proof.
  intros w. apply own_db_exec. intros plan [] st' E I. cbn [execute] in E.
  destruct (row_fits uid c s l); [|discriminate].
  destruct (numeric_10_2 a) as [n|]; [|discriminate].
  destruct (next_id (db w) <=? SERIAL_MAX)%Z; [|discriminate].
  injection E as <-. split; [apply ids_ok_insert, I|].
  intros v Hv. cbn [rows]. rewrite filter_app. cbn.
  unfold of_user at 2. cbn.
  assert (E : (uid =? v)%Z = false) by (apply Z.eqb_neq; congruence).
  rewrite E. apply app_nil_r.
Qed.

Lemma owned_select_sum (uid : Z) (c : text) :
  owned uid (db_exec (SELECT_SUM uid c)).
Proof.
  intros w. apply own_db_exec. intros plan a st' E I. cbn in E.
  injection E as _ <-. auto.
Qed.

Lemma owned_select_last (uid : Z) : owned uid (db_exec (SELECT_LAST uid)).
Proof.
  intros w. apply own_db_exec. intros plan a st' E I. cbn in E.
  injection E as _ <-. auto.
Qed.

Lemma owned_delete_user (uid : Z) : owned uid (db_exec (DELETE_USER uid)).
Proof.
  intros w. apply own_db_exec. intros plan [] st' E I. cbn in E.
  injection E as <-. split; [apply ids_ok_filter, I|].
  intros v Hv. cbn [rows]. apply filter_filter_imp.
  intros x _ Hx. unfold of_user in *. apply Z.eqb_eq in Hx.
  apply negb_true_iff, Z.eqb_neq. congruence.
Qed.

Lemma own_delete_id (uid i : Z) (w : World) :
  (forall x, In x (rows (db w)) -> expenses.id x = i -> of_user uid x = true) ->
  own uid w (snd (db_exec (DELETE_ID i) w)).
Proof.
  intros Hi. apply own_db_exec. intros plan [] st' E I. cbn in E.
  injection E as <-. split; [apply ids_ok_filter, I|].
  intros v Hv. cbn [rows]. apply filter_filter_imp.
  intros x Hx Hu. apply negb_true_iff, Z.eqb_neq. intros Ex.
  pose proof (Hi x Hx Ex) as Hu'. unfold of_user in *.
  apply Z.eqb_eq in Hu, Hu'. congruence.
Qed.

Ltac owned_step :=
  first
    [ apply owned_ret | apply owned_lift | apply owned_reply
    | apply owned_modify | apply owned_get | apply owned_getitem
    | apply owned_insert | apply owned_select_sum | apply owned_select_last
    | apply owned_delete_user
    | apply owned_bind; [|intros ?] ].

Lemma owned_start (uid : Z) : owned uid (start uid).
Proof. unfold start. repeat owned_step. Qed.

Lemma owned_get_amount (uid : Z) (txt : text) : owned uid (get_amount uid txt).
Proof.
  unfold get_amount. destruct (parse_amount txt); repeat owned_step.
Qed.

Lemma owned_get_category (uid : Z) (txt : text) :
  owned uid (get_category uid txt).
Proof.
  unfold get_category. cbv zeta.
  destruct (negb _); repeat owned_step.
Qed.

Lemma owned_save_expense (uid : Z) : owned uid (save_expense uid).
Proof. unfold save_expense, clear. repeat owned_step. Qed.

Lemma owned_get_subcategory (uid : Z) (txt : text) :
  owned uid (get_subcategory uid txt).
Proof.
  unfold get_subcategory. cbv zeta.
  apply owned_bind; [owned_step|intros c].
  apply owned_bind; [owned_step|intros a].
  destruct (text_eqb _ _); [repeat owned_step|].
  destruct (negb _); [repeat owned_step|].
  apply owned_bind; [owned_step|intros _].
  destruct (startswith _ _); [repeat owned_step|].
  apply owned_bind; [apply owned_save_expense|intros _]. owned_step.
Qed.

Lemma owned_get_label (uid : Z) (txt : text) : owned uid (get_label uid txt).
Proof.
  unfold get_label. cbv zeta.
  apply owned_bind; [owned_step|intros _].
  apply owned_bind; [apply owned_save_expense|intros _]. owned_step.
Qed.

Lemma owned_summary (uid : Z) (c : text) : owned uid (summary uid c).
Proof.
  unfold summary. apply owned_bind; [owned_step|intros rows].
  destruct rows; repeat owned_step.
Qed.

Lemma owned_restart (uid : Z) : owned uid (restart uid).
Proof. unfold restart. repeat owned_step. Qed.

Lemma owned_menu (uid : Z) : owned uid (menu uid).
Proof. unfold menu. owned_step. Qed.

Lemma last_by_id_In (l : list expenses.row) (r : expenses.row) :
  last_by_id l = Some r -> In r l.
Proof.
  revert r. induction l as [|a l IH]; intros r H; [discriminate|].
  cbn in H. destruct (last_by_id l) as [m|].
  - destruct (expenses.id m <? expenses.id a)%Z.
    + injection H as <-. left. reflexivity.
    + injection H as <-. right. apply IH. reflexivity.
  - injection H as <-. left. reflexivity.
Qed.

(** What [SELECT_LAST] returns, and that it changes nothing but the
    schedule. *)
Lemma db_exec_select_last (uid : Z) (w w1 : World)
  (res : list (Z * text * text * Decimal)) :
  db_exec (SELECT_LAST uid) w = (Ret res, w1) ->
  w1 = set_db (set_sched w (tl (sched w))) (db w) /\
  res = match last_by_id (filter (of_user uid) (rows (db w))) with
        | Some r => [(expenses.id r, expenses.category r,
                      expenses.subcategory r,
                      Decimal_of_numeric (expenses.amount r))]
        | None => []
        end.
Proof.
  unfold db_exec. cbv zeta.
  destruct (hd (Served []) (sched w)) as [|plan]; [discriminate|].
  cbn. intros H. injection H as <- <-. split; reflexivity.
Qed.

Lemma owned_undo (uid : Z) : owned uid (undo uid).
Proof.
  intros w. unfold undo, bind.
  pose proof (owned_select_last uid w) as H1.
  destruct (db_exec (SELECT_LAST uid) w) as [[res|e] w1] eqn:E1;
    cbn [snd] in H1; [|exact H1].
  apply db_exec_select_last in E1. destruct E1 as [Ew1 Eres].
  destruct (last_by_id (filter (of_user uid) (rows (db w)))) as [r|] eqn:L;
    subst res.
  - apply last_by_id_In, filter_In in L. destruct L as [Hin Hu].
    apply (own_trans uid w w1); [exact H1|].
    assert (H2 : own uid w1 (snd (db_exec (DELETE_ID (expenses.id r)) w1))).
    { intros I. apply own_delete_id; [|exact I].
      intros x Hx Ex. rewrite Ew1 in Hx, I. cbn in Hx, I.
      destruct I as [Hnd _].
      rewrite (NoDup_map_eq expenses.id _ x r Hnd Hx Hin Ex). exact Hu. }
    destruct (db_exec (DELETE_ID (expenses.id r)) w1) as [[[]|e] w2];
      cbn [snd] in H2; [|exact H2].
    apply (own_trans uid w1 w2); [exact H2|].
    destruct (lift (_fmt_money (Decimal_of_numeric (expenses.amount r))) w2)
      as [[m|e] w3] eqn:E3; unfold lift in E3; injection E3 as _ <-.
    + apply owned_reply.
    + apply own_refl.
  - apply (own_trans uid w w1); [exact H1|]. apply owned_reply.
Qed.

Lemma own_kept (uid v : Z) (w w' : World) :
  v <> uid -> ids_ok (db w) -> own uid w w' -> kept v w w' /\ ids_ok (db w').
Proof.
  intros Hv I H. destruct (H I) as (I' & U & C & R & new & S & F).
  split; [|exact I'].
  split; [exact (U v Hv)|]. split; [rewrite C; reflexivity|].
  split; [exact (R v Hv)|].
  exists new. split; [exact S|].
  eapply Forall_impl; [|exact F]. cbn. intros r E. congruence.
Qed.

Lemma kept_conversation (uid v : Z) (w : World) (m : res state * World) :
  v <> uid -> ids_ok (db w) -> own uid w (snd m) ->
  kept v w (conversation uid m) /\ ids_ok (db (conversation uid m)).
Proof.
  intros Hv I H. destruct (own_kept uid v w (snd m) Hv I H) as [K I'].
  destruct K as (K1 & K2 & K3 & K4).
  destruct m as [[s|e] w1]; cbn [snd] in *;
    [|split; [exact (conj K1 (conj K2 (conj K3 K4)))|exact I']].
  unfold conversation.
  destruct s; (split; [|exact I']); (split; [exact K1|]);
    (split; [cbn; rewrite (eqb_other v uid Hv); exact K2|]);
    (split; [exact K3|exact K4]).
Qed.

Lemma kept_process_update (uid v : Z) (u : Update) (w : World) :
  v <> uid -> ids_ok (db w) ->
  kept v w (process_update uid u w) /\ ids_ok (db (process_update uid u w)).
Proof.
  intros Hv I. unfold process_update. destruct u as [name|txt].
  - destruct (text_eqb name (T "start"));
      [apply kept_conversation; auto; apply owned_start|].
    destruct (text_eqb name (T "needs"));
      [apply (own_kept uid); auto; apply owned_summary|].
    destruct (text_eqb name (T "wants"));
      [apply (own_kept uid); auto; apply owned_summary|].
    destruct (text_eqb name (T "undo"));
      [apply (own_kept uid); auto; apply owned_undo|].
    destruct (text_eqb name (T "restart"));
      [apply (own_kept uid); auto; apply owned_restart|].
    apply (own_kept uid); auto. apply own_refl.
  - destruct (conv w uid) as [[| | | |]|].
    + apply kept_conversation; auto. apply owned_get_amount.
    + apply kept_conversation; auto. apply owned_get_category.
    + apply kept_conversation; auto. apply owned_get_subcategory.
    + apply kept_conversation; auto. apply owned_get_label.
    + apply (own_kept uid); auto. apply owned_menu.
    + apply (own_kept uid); auto. apply owned_menu.
Qed.

Lemma kept_trans (v : Z) (w1 w2 w3 : World) :
  kept v w1 w2 -> kept v w2 w3 -> kept v w1 w3.
Proof.
  intros (U2 & C2 & R2 & n2 & S2 & F2) (U3 & C3 & R3 & n3 & S3 & F3).
  split; [congruence|]. split; [congruence|]. split; [congruence|].
  exists (n2 ++ n3). split.
  - rewrite S3, S2, app_assoc. reflexivity.
  - apply Forall_app. split; assumption.
Qed.

Lemma kept_run (v : Z) (us : list (Z * Update)) (w : World) :
  Forall (fun p => fst p <> v) us -> ids_ok (db w) -> kept v w (run us w).
Proof.
  unfold run. revert w. induction us as [|[uid u] us IH]; intros w F I.
  - cbn. split; [reflexivity|]. split; [reflexivity|]. split; [reflexivity|].
    exists []. split; [symmetry; apply app_nil_r|constructor].
  - inversion F as [|? ? Hu F']; subst. cbn [fst] in Hu.
    cbn [fold_left fst snd].
    destruct (kept_process_update uid v u w (not_eq_sym Hu) I) as [K I'].
    exact (kept_trans v _ _ _ K (IH _ F' I')).
Qed.

(** X7.  Whatever the other users send, from any world the bot reaches: the
    session of a user, the state of their conversation and their rows, in
    their order, are what they were, and the user receives no message. *)
Theorem users_are_isolated (w : World) (v : Z) (us : list (Z * Update)) :
  reachable w ->
  Forall (fun p => fst p <> v) us ->
  let w' := run us w in
  user_data w' v = user_data w v /\
  conv w' v = conv w v /\
  filter (of_user v) (rows (db w')) = filter (of_user v) (rows (db w)) /\
  exists new, sent w' = sent w ++ new /\ Forall (fun r => chat r <> v) new.
Proof.
  intros Hr F. cbv zeta.
  destruct (reachable_Inv w Hr) as [[(I & _) _] _].
  exact (kept_run v us w F I).
Qed.

Lemma users_are_isolated_witness :
  let w' :=
    run [(alice, Command (T "start")); (alice, Message (T "5"));
         (alice, Message (T "wants")); (alice, Message (T "Gifts"));
         (alice, Command (T "undo")); (alice, Command (T "undo"));
         (alice, Command (T "restart"))]
        with_bob in
  filter (of_user bob) (rows (db w')) = filter (of_user bob) (rows (db with_bob)).
Proof.
  destruct (users_are_isolated with_bob bob
              [(alice, Command (T "start")); (alice, Message (T "5"));
               (alice, Message (T "wants")); (alice, Message (T "Gifts"));
               (alice, Command (T "undo")); (alice, Command (T "undo"));
               (alice, Command (T "restart"))])
    as (_ & _ & H & _).
  - exists [(bob, Command (T "start")); (bob, Message (T "3"));
            (bob, Message (T "wants")); (bob, Message (T "Gifts"))], [].
    reflexivity.
  - repeat constructor; compute; discriminate.
  - exact H.
Defined.

(* ================================================================== *)
(** * Further properties: the commands *)
(* ================================================================== *)

(** X8.  No command changes what a user has entered so far: after any command,
    known or not, and whatever the database does, the sessions of all
    users are as before.  Only [/start] changes the state of a
    conversation: from whatever state, it puts the conversation of its
    sender at [AMOUNT], asks for the amount and calls no database; any
    other command leaves all conversations where they were, and a command
    the bot does not know changes nothing at all. *)
Theorem commands_keep_the_sessions (w : World) (uid : Z) (name : text) :
  let w' := process_update uid (Command name) w in
  user_data w' = user_data w /\
  (name = T "start" ->
   conv w' uid = Some AMOUNT /\ (forall v, v <> uid -> conv w' v = conv w v) /\
   db w' = db w /\ sched w' = sched w /\ sent w' = sent w ++ [start_reply uid]) /\
  (name <> T "start" -> conv w' = conv w) /\
  (name <> T "start" -> ledger_command name = false -> w' = w).
Proof.
  cbv zeta. unfold process_update.
  destruct (text_eqb name (T "start")) eqn:E0.
  { apply text_eqb_eq in E0. subst name.
    split; [reflexivity|]. split.
    - intros _. cbn. rewrite Z.eqb_refl. split; [reflexivity|].
      split; [|auto]. intros v Hv. rewrite (eqb_other v uid Hv). reflexivity.
    - split; intros H; contradiction H; reflexivity. }
  assert (F : forall m : M unit, framed m ->
            user_data (snd (m w)) = user_data w /\
            (name = T "start" ->
             conv (snd (m w)) uid = Some AMOUNT /\
             (forall v, v <> uid -> conv (snd (m w)) v = conv w v) /\
             db (snd (m w)) = db w /\ sched (snd (m w)) = sched w /\
             sent (snd (m w)) = sent w ++ [start_reply uid]) /\
            (name <> T "start" -> conv (snd (m w)) = conv w)).
  { intros m Hm. destruct (Hm w) as (U & C & _).
    split; [exact U|]. split; [|intros _; exact C].
    intros ->. rewrite text_eqb_refl in E0. discriminate. }
  unfold ledger_command, text_in. cbn [existsb].
  destruct (text_eqb name (T "needs"));
    [destruct (F _ (framed_summary uid (T "needs"))) as (F1 & F2 & F3);
     split; [exact F1|]; split; [exact F2|]; split; [exact F3|];
     intros _ Hl; cbn in Hl; discriminate Hl|].
  destruct (text_eqb name (T "wants"));
    [destruct (F _ (framed_summary uid (T "wants"))) as (F1 & F2 & F3);
     split; [exact F1|]; split; [exact F2|]; split; [exact F3|];
     intros _ Hl; cbn in Hl; discriminate Hl|].
  destruct (text_eqb name (T "undo"));
    [destruct (F _ (framed_undo uid)) as (F1 & F2 & F3);
     split; [exact F1|]; split; [exact F2|]; split; [exact F3|];
     intros _ Hl; cbn in Hl; discriminate Hl|].
  destruct (text_eqb name (T "restart"));
    [destruct (F _ (framed_restart uid)) as (F1 & F2 & F3);
     split; [exact F1|]; split; [exact F2|]; split; [exact F3|];
     intros _ Hl; cbn in Hl; discriminate Hl|].
  split; [reflexivity|]. split; [|auto].
  intros ->. rewrite text_eqb_refl in E0. discriminate.
Qed.

Lemma process_needs (uid : Z) (w : World) :
  process_update uid (Command (T "needs")) w = snd (summary uid (T "needs") w).
Proof. reflexivity. Qed.

Lemma process_wants (uid : Z) (w : World) :
  process_update uid (Command (T "wants")) w = snd (summary uid (T "wants") w).
Proof. reflexivity. Qed.

Lemma process_undo (uid : Z) (w : World) :
  process_update uid (Command (T "undo")) w = snd (undo uid w).
Proof. reflexivity. Qed.

Lemma process_restart (uid : Z) (w : World) :
  process_update uid (Command (T "restart")) w = snd (restart uid w).
Proof. reflexivity. Qed.

Lemma ledger_command_cases (name : text) :
  ledger_command name = true ->
  name = T "needs" \/ name = T "wants" \/ name = T "undo" \/ name = T "restart".
Proof.
  unfold ledger_command, text_in. cbn [existsb]. intros H.
  repeat (apply orb_true_iff in H; destruct H as [H|H]);
    try discriminate; apply text_eqb_eq in H; auto.
Qed.

Lemma db_exec_fault {A : Type} (q : Query A) (w : World) :
  hd (Served []) (sched w) = Fault ->
  db_exec q w = (Raise DatabaseError, set_sched w (tl (sched w))).
Proof. intros H. unfold db_exec. rewrite H. reflexivity. Qed.

Lemma last_by_id_None (l : list expenses.row) : last_by_id l = None -> l = [].
Proof.
  destruct l as [|a l]; [reflexivity|]. cbn.
  destruct (last_by_id l) as [m|]; [|discriminate].
  destruct (expenses.id m <? expenses.id a)%Z; discriminate.
Qed.

(** X9.  When the database call of [/needs], [/wants], [/undo] or [/restart]
    fails, the command is silent: no reply is sent, the table is as
    before, and the call is not made again.  The same holds for [/undo]
    when its [SELECT] is served and finds a row and the [DELETE] fails:
    the row stays and nothing is said. *)
Theorem failed_commands_are_silent (w : World) (uid : Z) (name : text) :
  let w' := process_update uid (Command name) w in
  (ledger_command name = true ->
   hd (Served []) (sched w) = Fault ->
   sent w' = sent w /\ db w' = db w /\ sched w' = tl (sched w)) /\
  (name = T "undo" ->
   hd (Served []) (sched w) <> Fault ->
   hd (Served []) (tl (sched w)) = Fault ->
   (exists r, In r (rows (db w)) /\ expenses.user_id r = uid) ->
   sent w' = sent w /\ db w' = db w /\ sched w' = tl (tl (sched w))).
Proof.
  cbv zeta. split.
  - intros Hn Hf. apply ledger_command_cases in Hn.
    destruct Hn as [-> | [-> | [-> | ->]]];
      rewrite ?process_needs, ?process_wants, ?process_undo, ?process_restart;
      unfold summary, undo, restart, bind;
      rewrite (db_exec_fault _ w Hf); repeat split.
  - intros -> Hs Hf (r & Hin & Hu). rewrite process_undo.
    unfold undo, bind.
    destruct (db_exec (SELECT_LAST uid) w) as [[res|e] w1] eqn:E1.
    + apply db_exec_select_last in E1. destruct E1 as [-> ->].
      destruct (last_by_id (filter (of_user uid) (rows (db w)))) as [m|] eqn:L.
      * rewrite db_exec_fault by exact Hf. repeat split.
      * apply last_by_id_None in L.
        assert (Hr : In r (filter (of_user uid) (rows (db w)))).
        { apply filter_In. split; [exact Hin|]. apply Z.eqb_eq. exact Hu. }
        rewrite L in Hr. destruct Hr.
    + unfold db_exec in E1. cbv zeta in E1.
      destruct (hd (Served []) (sched w)); [contradiction Hs; reflexivity|].
      discriminate E1.
Qed.

Lemma failed_commands_are_silent_witness :
  let w := ledger_example [Fault] in
  let w' := process_update alice (Command (T "restart")) w in
  sent w' = sent w /\ db w' = db w /\ sched w' = [].
Proof.
  destruct (failed_commands_are_silent (ledger_example [Fault]) alice
              (T "restart")) as [H _].
  apply H; vm_compute; reflexivity.
Defined.

Lemma summary_none (w : World) (uid : Z) (c : text) :
  hd (Served []) (sched w) <> Fault ->
  selected uid c (db w) = [] ->
  summary uid c w
  = (Ret tt, add_sent (set_sched w (tl (sched w))) (no_expenses_reply uid)).
Proof.
  intros Hs Hsel. unfold summary, bind, db_exec. cbv zeta.
  destruct (hd (Served []) (sched w)) as [|plan]; [contradiction Hs; reflexivity|].
  unfold execute. unfold selected in Hsel. rewrite Hsel.
  reflexivity.
Qed.

Lemma restart_served (w : World) (uid : Z) :
  hd (Served []) (sched w) <> Fault ->
  restart uid w
  = (Ret tt,
     add_sent
       (set_db (set_sched w (tl (sched w)))
          (mkStore (filter (fun r => negb (of_user uid r)) (rows (db w)))
             (next_id (db w))))
       (cleared_reply uid)).
Proof.
  intros Hs. unfold restart, bind, db_exec. cbv zeta.
  destruct (hd (Served []) (sched w)) as [|plan]; [contradiction Hs; reflexivity|].
  reflexivity.
Qed.

Lemma no_rows_left (uid : Z) (l : list expenses.row) :
  Forall (fun x => of_user uid x = false)
    (filter (fun r => negb (of_user uid r)) l).
Proof.
  apply Forall_forall. intros x Hx. apply filter_In in Hx.
  destruct Hx as [_ Hx]. apply negb_true_iff. exact Hx.
Qed.

(** X10.  [/restart], when its call is served: the rows of the sender are
    deleted and the others stay, in their order; the sequence of ids is not
    set back; the reply confirms.  Right after it, [/needs] and [/wants]
    answer that there are no expenses and [/undo] that there is nothing to
    undo. *)
Theorem restart_clears_the_rows_of_the_sender (w : World) (uid : Z) :
  hd (Served []) (sched w) <> Fault ->
  let w' := process_update uid (Command (T "restart")) w in
  rows (db w')
  = filter (fun r => negb (expenses.user_id r =? uid)%Z) (rows (db w)) /\
  (forall r, In r (rows (db w')) -> expenses.user_id r <> uid) /\
  next_id (db w') = next_id (db w) /\
  sched w' = tl (sched w) /\
  sent w' = sent w ++ [cleared_reply uid] /\
  (hd (Served []) (tl (sched w)) <> Fault ->
   sent (process_update uid (Command (T "needs")) w')
   = sent w' ++ [no_expenses_reply uid] /\
   sent (process_update uid (Command (T "wants")) w')
   = sent w' ++ [no_expenses_reply uid] /\
   sent (process_update uid (Command (T "undo")) w')
   = sent w' ++ [nothing_reply uid]).
Proof.
  intros Hs. cbv zeta. rewrite process_restart, (restart_served w uid Hs).
  cbn [snd db rows next_id sched sent add_sent set_db set_sched].
  split; [reflexivity|]. split.
  { intros r Hr. apply filter_In in Hr. destruct Hr as [_ Hr].
    apply negb_true_iff, Z.eqb_neq in Hr. exact Hr. }
  do 3 (split; [reflexivity|]).
  intros Hs'.
  rewrite process_needs, process_wants, process_undo.
  rewrite !summary_none, undo_nothing.
  - repeat split.
  - apply no_rows_left.
  - exact Hs'.
  - exact Hs'.
  - unfold selected. cbn [db rows add_sent set_db].
    apply filter_none. eapply Forall_impl; [|apply no_rows_left].
    cbn. intros x ->. reflexivity.
  - exact Hs'.
  - unfold selected. cbn [db rows add_sent set_db].
    apply filter_none. eapply Forall_impl; [|apply no_rows_left].
    cbn. intros x ->. reflexivity.
Qed.

Lemma restart_clears_the_rows_of_the_sender_witness :
  let w' := process_update alice (Command (T "restart")) two_users in
  rows (db two_users)
  = [expenses.mk 1 bob (T "wants") (T "Gifts") (Cents 300) None;
     expenses.mk 2 alice (T "wants") (T "Gifts") (Cents 500) None] /\
  rows (db w') = [expenses.mk 1 bob (T "wants") (T "Gifts") (Cents 300) None] /\
  next_id (db w') = 3%Z.
Proof.
  destruct (restart_clears_the_rows_of_the_sender two_users alice)
    as (H1 & _ & H2 & _).
  - vm_compute. discriminate.
  - cbv zeta. split; [vm_compute; reflexivity|].
    split; [rewrite H1|rewrite H2]; vm_compute; reflexivity.
Defined.

(* ================================================================== *)
(** * Further properties: a summary of nothing *)
(* ================================================================== *)

Lemma group_add_cons (k : text) (v : numeric) (acc : list (text * numeric)) :
  group_add k v acc <> [].
Proof.
  destruct acc as [|[k' v'] acc]; cbn; [discriminate|].
  destruct (text_eqb k k'); discriminate.
Qed.

Lemma group_fold_cons (rs : list expenses.row) (acc : list (text * numeric)) :
  acc <> [] ->
  fold_left
    (fun acc r => group_add (expenses.subcategory r) (expenses.amount r) acc)
    rs acc <> [].
Proof.
  revert acc. induction rs as [|r rs IH]; intros acc H; [exact H|].
  cbn. apply IH, group_add_cons.
Qed.

Lemma group_sum_nil (rs : list expenses.row) : group_sum rs = [] -> rs = [].
Proof.
  destruct rs as [|r rs]; [reflexivity|]. unfold group_sum. cbn. intros H.
  exfalso. revert H. apply group_fold_cons. discriminate.
Qed.

Lemma insert_at_cons {A : Type} (n : nat) (x : A) (l : list A) :
  insert_at n x l <> [].
Proof. destruct n, l; discriminate. Qed.

Lemma arrange_nil_inv {A : Type} (plan : list nat) (l : list A) :
  arrange plan l = [] -> l = [].
Proof.
  destruct l as [|x l]; [reflexivity|]. cbn. intros H.
  exfalso. exact (insert_at_cons _ _ _ H).
Qed.

Lemma app_one_neq {A : Type} (l : list A) (x : A) : l <> l ++ [x].
Proof.
  intros H. apply (f_equal (@length A)) in H.
  rewrite length_app in H. cbn in H. lia.
Qed.

(** X11.  [summary], when its call is served, answers that there are no expenses
    exactly when the table holds no row of the user in the category. *)
Theorem summary_of_nothing (w : World) (uid : Z) (c : text) :
  hd (Served []) (sched w) <> Fault ->
  (selected uid c (db w) = [] <->
   sent (snd (summary uid c w)) = sent w ++ [no_expenses_reply uid]).
Proof.
  intros Hs. split.
  - intros H. rewrite (summary_none w uid c Hs H). reflexivity.
  - intros H. destruct (selected uid c (db w)) as [|r rs] eqn:Hsel;
      [reflexivity|exfalso].
    revert H. unfold summary, bind, db_exec. cbv zeta.
    destruct (hd (Served []) (sched w)) as [|plan];
      [contradiction Hs; reflexivity|].
    unfold execute. fold (selected uid c (db w)).
    destruct (arrange plan (group_sum (selected uid c (db w))))
      as [|g gs] eqn:G.
    { apply arrange_nil_inv, group_sum_nil in G. congruence. }
    cbn [map]. unfold lift.
    destruct (sum _) as [total|e]; [|cbn; apply app_one_neq].
    destruct (fold_right _ _ _) as [lines|e]; [|cbn; apply app_one_neq].
    destruct (_fmt_money total) as [mt|e]; [|cbn; apply app_one_neq].
    destruct (_fmt_money _) as [mg|e]; [|cbn; apply app_one_neq].
    cbn [snd reply_text sent add_sent set_db set_sched].
    intros E. apply app_inv_head in E. injection E as E.
    discriminate E.
Qed.

Lemma summary_of_nothing_witness :
  sent (snd (summary alice (T "wants") (ledger_example [])))
  = sent (ledger_example []) ++ [no_expenses_reply alice].
Proof.
  apply (summary_of_nothing (ledger_example []) alice (T "wants")).
  - vm_compute. discriminate.
  - vm_compute. reflexivity.
Defined.

(* ================================================================== *)
(** * Further properties: undo *)
(* ================================================================== *)

Lemma last_by_id_spec (l : list expenses.row) (m : expenses.row) :
  last_by_id l = Some m ->
  In m l /\ Forall (fun x => (expenses.id x <= expenses.id m)%Z) l.
Proof.
  revert m. induction l as [|a l IH]; intros m H; [discriminate|].
  cbn in H. destruct (last_by_id l) as [m'|] eqn:L.
  - destruct (IH m' eq_refl) as [Hin Hmax].
    destruct (Z.ltb_spec (expenses.id m') (expenses.id a)) as [Lt|Ge];
      injection H as <-.
    + split; [left; reflexivity|]. constructor; [lia|].
      eapply Forall_impl; [|exact Hmax]. cbn. intros x Hx. lia.
    + split; [right; exact Hin|]. constructor; [lia|exact Hmax].
  - injection H as <-. apply last_by_id_None in L. subst l.
    split; [left; reflexivity|]. constructor; [lia|constructor].
Qed.

Lemma undo_served (w : World) (uid : Z) (r : expenses.row) :
  last_by_id (filter (of_user uid) (rows (db w))) = Some r ->
  numeric_ok (expenses.amount r) ->
  hd (Served []) (sched w) <> Fault ->
  hd (Served []) (tl (sched w)) <> Fault ->
  undo uid w
  = (Ret tt,
     add_sent
       (set_db (set_sched w (tl (tl (sched w))))
          (mkStore
             (filter (fun x => negb (expenses.id x =? expenses.id r)%Z)
                (rows (db w)))
             (next_id (db w))))
       (removed_reply uid r)).
Proof.
  intros L Hn H1 H2. unfold undo, bind, db_exec.
  destruct (hd (Served []) (sched w)) as [|p1]; [congruence|].
  cbn [execute]. rewrite L.
  cbn [set_db set_sched sched db].
  destruct (hd (Served []) (tl (sched w))) as [|p2]; [congruence|].
  cbn [rows next_id].
  unfold lift. rewrite (fmt_money_numeric _ Hn).
  reflexivity.
Qed.

Lemma row_numeric_ok (w : World) (r : expenses.row) :
  Inv w -> In r (rows (db w)) -> numeric_ok (expenses.amount r).
Proof.
  intros [[_ Hrows] _] Hin. rewrite Forall_forall in Hrows.
  destruct (Hrows r Hin) as (_ & _ & (z & -> & Hz) & _). cbn. lia.
Qed.

(** X12.  [/undo] in a world the bot reaches, with both calls served and at least
    one row of the sender in the table: the row removed is the row of the
    sender with the greatest id; every other row, of whomever, stays, in
    its place; the sequence of ids is not set back; the reply names the
    amount, the category and the subcategory of the removed row. *)
Theorem undo_removes_the_latest_row (w : World) (uid : Z) :
  reachable w ->
  hd (Served []) (sched w) <> Fault ->
  hd (Served []) (tl (sched w)) <> Fault ->
  (exists x, In x (rows (db w)) /\ expenses.user_id x = uid) ->
  let w' := process_update uid (Command (T "undo")) w in
  exists r,
    In r (rows (db w)) /\ expenses.user_id r = uid /\
    (forall x, In x (rows (db w)) -> expenses.user_id x = uid ->
               (expenses.id x <= expenses.id r)%Z) /\
    rows (db w')
    = filter (fun x => negb (expenses.id x =? expenses.id r)%Z) (rows (db w)) /\
    (forall x, In x (rows (db w')) <-> In x (rows (db w)) /\ x <> r) /\
    next_id (db w') = next_id (db w) /\
    sent w' = sent w ++ [removed_reply uid r] /\
    sched w' = tl (tl (sched w)).
Proof.
  intros Hr H1 H2 (x0 & Hin0 & Hu0). cbv zeta.
  destruct (reachable_Inv w Hr) as [[((Hnd & _) & _) _] _].
  destruct (last_by_id (filter (of_user uid) (rows (db w)))) as [r|] eqn:L.
  2:{ apply last_by_id_None in L.
      assert (H : In x0 (filter (of_user uid) (rows (db w)))).
      { apply filter_In. split; [exact Hin0|]. apply Z.eqb_eq. exact Hu0. }
      rewrite L in H. destruct H. }
  destruct (last_by_id_spec _ r L) as [Hin Hmax].
  apply filter_In in Hin. destruct Hin as [Hin Hu]. apply Z.eqb_eq in Hu.
  rewrite Forall_forall in Hmax.
  exists r. split; [exact Hin|]. split; [exact Hu|]. split.
  { intros x Hx Hux. apply Hmax, filter_In. split; [exact Hx|].
    apply Z.eqb_eq. exact Hux. }
  rewrite process_undo,
    (undo_served w uid r L (row_numeric_ok w r (reachable_Inv w Hr) Hin) H1 H2).
  cbn [snd db rows next_id sched sent add_sent set_db set_sched].
  split; [reflexivity|]. split; [|repeat split].
  intros x. rewrite filter_In, negb_true_iff, Z.eqb_neq. split.
  - intros [Hx Hne]. split; [exact Hx|]. congruence.
  - intros [Hx Hne]. split; [exact Hx|]. intros E. apply Hne.
    exact (NoDup_map_eq expenses.id _ x r Hnd Hx Hin E).
Qed.

Lemma undo_removes_the_latest_row_witness :
  let w' := process_update alice (Command (T "undo")) two_users in
  exists r,
    In r (rows (db two_users)) /\ expenses.user_id r = alice /\
    rows (db w')
    = filter (fun x => negb (expenses.id x =? expenses.id r)%Z)
        (rows (db two_users)).
Proof.
  destruct (undo_removes_the_latest_row two_users alice)
    as (r & H1 & H2 & _ & H3 & _).
  - exists [(bob, Command (T "start")); (bob, Message (T "3"));
            (bob, Message (T "wants")); (bob, Message (T "Gifts"));
            (alice, Command (T "start")); (alice, Message (T "5"));
            (alice, Message (T "wants")); (alice, Message (T "Gifts"))], [].
    unfold two_users, with_bob, run. cbn [fold_left fst snd]. reflexivity.
  - vm_compute. discriminate.
  - vm_compute. discriminate.
  - exists (expenses.mk 2 alice (T "wants") (T "Gifts") (Cents 500) None).
    split; [vm_compute; auto|reflexivity].
  - exists r. split; [exact H1|]. split; [exact H2|exact H3].
Defined.

(* ================================================================== *)
(** * Further properties: a whole conversation *)
(* ================================================================== *)

Lemma process_start (uid : Z) (w : World) :
  process_update uid (Command (T "start")) w
  = set_conv (add_sent w (start_reply uid)) uid (Some AMOUNT).
Proof. reflexivity. Qed.

Lemma process_amount_ok (w : World) (uid : Z) (txt : text) (a : Decimal)
  (m : text) :
  conv w uid = Some AMOUNT ->
  parse_amount txt = Ret a ->
  _fmt_money a = Ret m ->
  process_update uid (Message txt) w
  = set_conv
      (add_sent (set_user_data w uid (set_amount a (user_data w uid)))
         (noted_reply uid m))
      uid (Some CATEGORY).
Proof.
  intros Hs Hp Hm. unfold process_update.
  rewrite Hs, (get_amount_store uid txt w a Hp), Hm. reflexivity.
Qed.

Lemma process_category_ok (w : World) (uid : Z) (txt : text) :
  conv w uid = Some CATEGORY ->
  text_in (lower (strip txt)) [T "needs"; T "wants"] = true ->
  process_update uid (Message txt) w
  = set_conv
      (add_sent
         (set_user_data w uid (set_cat (lower (strip txt)) (user_data w uid)))
         (pick_reply uid (lower (strip txt))))
      uid (Some SUBCATEGORY).
Proof.
  intros Hs Hin. unfold process_update.
  rewrite Hs, (get_category_accepts w uid txt Hin). reflexivity.
Qed.

(** The world after [/start], an amount and a category. *)
Lemma conversation_to_subcategory (w : World) (uid : Z) (amt cat_txt : text)
  (a : Decimal) (m : text) :
  parse_amount amt = Ret a ->
  _fmt_money a = Ret m ->
  text_in (lower (strip cat_txt)) [T "needs"; T "wants"] = true ->
  let w3 :=
    run [(uid, Command (T "start")); (uid, Message amt);
         (uid, Message cat_txt)] w in
  conv w3 uid = Some SUBCATEGORY /\
  user_data w3 uid
  = set_cat (lower (strip cat_txt)) (set_amount a (user_data w uid)) /\
  db w3 = db w /\ sched w3 = sched w /\
  sent w3
  = sent w ++ [start_reply uid; noted_reply uid m;
               pick_reply uid (lower (strip cat_txt))].
Proof.
  intros Hp Hm Hin. cbv zeta. unfold run. cbn [fold_left fst snd].
  rewrite process_start.
  rewrite (process_amount_ok _ uid amt a m (conv_set_same _ _ _) Hp Hm).
  rewrite (process_category_ok _ uid cat_txt (conv_set_same _ _ _) Hin).
  rewrite conv_set_same.
  cbn [user_data db sched sent set_conv add_sent set_user_data].
  rewrite !Z.eqb_refl, <- !app_assoc.
  repeat split.
Qed.

(** X13.  A whole conversation, from any world and any state: [/start], an
    amount [Decimal] reads as a positive number that the column takes, a
    category and a subcategory of it, from a user whose id is a [BIGINT].
    When the insert is served and the label is a text the column takes, a
    plain subcategory ends the conversation after four messages and a
    miscellaneous one after a fifth, which is the label.  Exactly one row
    is appended, with the next id, the category in lower case, the
    subcategory as sent and the amount in cents; the replies are the three
    prompts and the confirmation; the session is emptied.  The label of a
    plain row is whatever label the session held before [/start]. *)
Theorem a_conversation_logs_one_row (w : World) (uid : Z)
  (amt cat_txt sub : text) (c0 : N) (e0 : Z) (n : numeric) :
  Decimal_of_text amt = Ret (Fin false c0 e0) ->
  0 < c0 ->
  text_in (lower (strip cat_txt)) [T "needs"; T "wants"] = true ->
  text_in (strip sub) (subcats_of (lower (strip cat_txt))) = true ->
  insertable w (Fin false c0 e0) n ->
  bigint uid = true ->
  let a := Fin false c0 e0 in
  let c := lower (strip cat_txt) in
  let us :=
    [(uid, Command (T "start")); (uid, Message amt); (uid, Message cat_txt);
     (uid, Message sub)] in
  exists m,
    _fmt_money a = Ret m /\
    (startswith (strip sub) (T "Misc") = false ->
     let w' := run us w in
     let l := label (user_data w uid) in
     label_fits l = true ->
     conv w' uid = None /\
     user_data w' uid = empty_session /\
     rows (db w')
     = rows (db w) ++ [expenses.mk (next_id (db w)) uid c (strip sub) n l] /\
     next_id (db w') = (next_id (db w) + 1)%Z /\
     sched w' = tl (sched w) /\
     sent w'
     = sent w ++ [start_reply uid; noted_reply uid m; pick_reply uid c;
                  mkReply uid (logged_text m c (strip sub) l)
                    ReplyKeyboardRemove]) /\
    (startswith (strip sub) (T "Misc") = true ->
     forall lbl,
     let w' := run (us ++ [(uid, Message lbl)]) w in
     let l := Some (strip lbl) in
     label_fits l = true ->
     conv w' uid = None /\
     user_data w' uid = empty_session /\
     rows (db w')
     = rows (db w) ++ [expenses.mk (next_id (db w)) uid c (strip sub) n l] /\
     next_id (db w') = (next_id (db w) + 1)%Z /\
     sched w' = tl (sched w) /\
     sent w'
     = sent w ++ [start_reply uid; noted_reply uid m; pick_reply uid c;
                  label_prompt uid;
                  mkReply uid (logged_text m c (strip sub) l)
                    ReplyKeyboardRemove]).
Proof.
  intros Hd Hc0 Hin Hv Hi Hu. cbv zeta.
  pose proof Hi as (Hev & Hn & Hid).
  pose proof (good_category_in _ Hin) as Gc.
  pose proof (fmt_money_storable false c0 e0 n Hn) as Hm.
  eexists. split; [exact Hm|].
  assert (Hp : parse_amount amt = Ret (Fin false c0 e0)).
  { apply parse_amount_ret. split; [exact Hd|].
    apply Decimal_le_0_false. right. eauto. }
  destruct (conversation_to_subcategory w uid amt cat_txt _ _ Hp Hm Hin)
    as (H1 & H2 & H3 & H4 & H5).
  set (w3 := run [(uid, Command (T "start")); (uid, Message amt);
                  (uid, Message cat_txt)] w) in *.
  assert (Hcat : cat (user_data w3 uid) = Some (lower (strip cat_txt)))
    by (rewrite H2; reflexivity).
  assert (Ha : amount (user_data w3 uid) = Some (Fin false c0 e0))
    by (rewrite H2; reflexivity).
  assert (Hl : label (user_data w3 uid) = label (user_data w uid))
    by (rewrite H2; reflexivity).
  assert (Hi3 : insertable w3 (Fin false c0 e0) n)
    by (unfold insertable; rewrite H3, H4; exact Hi).
  assert (R4 : run [(uid, Command (T "start")); (uid, Message amt);
                    (uid, Message cat_txt); (uid, Message sub)] w
               = process_update uid (Message sub) w3) by reflexivity.
  assert (R5 : forall lbl,
               run ([(uid, Command (T "start")); (uid, Message amt);
                     (uid, Message cat_txt); (uid, Message sub)]
                      ++ [(uid, Message lbl)]) w
               = process_update uid (Message lbl)
                   (process_update uid (Message sub) w3))
    by reflexivity.
  clearbody w3.
  split; intros Hmisc.
  - intros Hlf. rewrite R4.
    assert (Hfit : row_fits uid (lower (strip cat_txt)) (strip sub)
                     (label (user_data w3 uid)) = true)
      by (rewrite Hl; apply row_fits_choice; assumption).
    rewrite (process_subcategory_plain w3 uid sub _ _ n _ H1 Hcat Ha Hv Hmisc
               Hi3 Hfit Hm).
    rewrite conv_set_same.
    cbn [user_data db sched sent rows next_id set_conv committed add_sent
         set_user_data set_db set_sched].
    rewrite Z.eqb_refl, H3, H4, H5, Hl, <- app_assoc.
    repeat split.
  - intros lbl Hlf. rewrite R5.
    rewrite (process_subcategory_misc w3 uid sub _ _ H1 Hcat Ha Hv Hmisc).
    erewrite process_label_ok;
      [ | apply conv_set_same | cbn; rewrite Z.eqb_refl; exact Hcat
        | cbn; rewrite Z.eqb_refl; reflexivity
        | cbn; rewrite Z.eqb_refl; exact Ha
        | exact Hi3
        | apply row_fits_choice; assumption
        | exact Hm ].
    rewrite conv_set_same.
    cbn [user_data db sched sent rows next_id set_conv committed add_sent
         set_user_data set_db set_sched].
    rewrite Z.eqb_refl, H3, H4, H5, <- !app_assoc.
    repeat split.
Qed.

Lemma a_conversation_logs_one_row_witness :
  let w' :=
    run [(alice, Command (T "start")); (alice, Message (T " 12.5"));
         (alice, Message (T "needs ")); (alice, Message (T "Food"))]
        with_bob in
  rows (db w')
  = rows (db with_bob)
      ++ [expenses.mk 2 alice (T "needs") (T "Food") (Cents 1250) None] /\
  conv w' alice = None.
Proof.
  destruct (a_conversation_logs_one_row with_bob alice (T " 12.5")
              (T "needs ") (T "Food") 125 (-1) (Cents 1250))
    as (m & _ & H & _).
  - vm_compute. reflexivity.
  - reflexivity.
  - vm_compute. reflexivity.
  - vm_compute. reflexivity.
  - split; [vm_compute; discriminate|].
    split; [vm_compute; reflexivity|vm_compute; discriminate].
  - reflexivity.
  - destruct (H eq_refl eq_refl) as (H1 & _ & H2 & _).
    cbv zeta. split; [exact H2|exact H1].
Defined.

(* ================================================================== *)
(** * Further properties: undoing a commit *)
(* ================================================================== *)

Lemma undo_committed (w : World) (uid : Z) (c s : text) (n : numeric)
  (l : option text) (m : text) :
  ids_ok (db w) ->
  numeric_ok n ->
  hd (Served []) (tl (sched w)) <> Fault ->
  hd (Served []) (tl (tl (sched w))) <> Fault ->
  let r := expenses.mk (next_id (db w)) uid c s n l in
  let w1 := set_conv (committed w uid c s n l m) uid None in
  let w2 := process_update uid (Command (T "undo")) w1 in
  rows (db w1) = rows (db w) ++ [r] /\
  rows (db w2) = rows (db w) /\
  next_id (db w2) = (next_id (db w) + 1)%Z /\
  sent w2 = sent w1 ++ [removed_reply uid r].
Proof.
  intros I Hn H1 H2. cbv zeta. split; [reflexivity|].
  rewrite process_undo.
  pose proof (ids_ok_insert (db w) uid c s n l I) as [Hnd _].
  cbn [rows] in Hnd. destruct I as [_ Hlt].
  rewrite (undo_served _ uid (expenses.mk (next_id (db w)) uid c s n l)).
  - cbn [snd db rows next_id sent add_sent set_db set_sched set_conv
         committed set_user_data].
    rewrite (delete_last _ _ Hnd). repeat split.
  - cbn [db rows set_conv committed set_user_data add_sent set_db].
    rewrite filter_app. cbn [filter]. unfold of_user at 2.
    cbn [expenses.user_id]. rewrite Z.eqb_refl.
    apply last_by_id_snoc. apply Forall_filter. exact Hlt.
  - exact Hn.
  - exact H1.
  - exact H2.
Qed.

(** X14.  A commit followed by [/undo], in a world the bot reaches and with the
    three calls served: the table holds the rows it held before the commit,
    in their order, whatever rows the sender had already; only the
    sequence of ids has moved on by one.  This holds for a commit from
    [LABEL] and for a commit from [SUBCATEGORY], of an amount the column
    takes, by a user whose id is a [BIGINT], with a label that is a text
    the column takes. *)
Theorem undo_reverts_a_commit (w : World) (uid : Z) (a : Decimal) (n : numeric) :
  reachable w ->
  amount (user_data w uid) = Some a ->
  insertable w a n ->
  bigint uid = true ->
  hd (Served []) (tl (sched w)) <> Fault ->
  hd (Served []) (tl (tl (sched w))) <> Fault ->
  (conv w uid = Some LABEL ->
   forall txt,
     label_fits (Some (strip txt)) = true ->
     let w1 := process_update uid (Message txt) w in
     let w2 := process_update uid (Command (T "undo")) w1 in
     length (rows (db w1)) = S (length (rows (db w))) /\
     rows (db w2) = rows (db w) /\
     next_id (db w2) = (next_id (db w) + 1)%Z) /\
  (conv w uid = Some SUBCATEGORY ->
   forall c txt,
     cat (user_data w uid) = Some c ->
     text_in (strip txt) (subcats_of c) = true ->
     startswith (strip txt) (T "Misc") = false ->
     label_fits (label (user_data w uid)) = true ->
     let w1 := process_update uid (Message txt) w in
     let w2 := process_update uid (Command (T "undo")) w1 in
     length (rows (db w1)) = S (length (rows (db w))) /\
     rows (db w2) = rows (db w) /\
     next_id (db w2) = (next_id (db w) + 1)%Z).
Proof.
  intros Hr Ha Hi Hu H1 H2.
  destruct (reachable_Inv w Hr) as [[(I & _) _] _].
  pose proof Hi as (_ & Hn & _).
  pose proof (numeric_10_2_ok a n Hn) as Hok.
  split.
  - intros Hs txt Hlf. cbv zeta.
    destruct (reachable_label w uid Hr Hs)
      as (a' & c & k & Ha' & Ga & Hc & Gc & Hk & Hv & _).
    assert (a' = a) by congruence. subst a'.
    destruct (fmt_money_good a n Ga Hn) as (m & Hm).
    rewrite (process_label_ok w uid txt c k a n m Hs Hc Hk Ha Hi
               (row_fits_choice uid c k _ Hu Gc Hv Hlf) Hm).
    destruct (undo_committed
                (set_user_data w uid (set_label (strip txt) (user_data w uid)))
                uid c k n (Some (strip txt)) m I Hok H1 H2)
      as (E1 & E2 & E3 & _).
    rewrite E1, E2, E3, length_app. cbn. repeat split. lia.
  - intros Hs c txt Hc Hv Hmisc Hlf. cbv zeta.
    destruct (reachable_subcategory w uid Hr Hs)
      as (a' & c' & Ha' & Ga & Hc' & Gc).
    assert (a' = a) by congruence. subst a'.
    assert (c' = c) by congruence. subst c'.
    destruct (fmt_money_good a n Ga Hn) as (m & Hm).
    rewrite (process_subcategory_plain w uid txt c a n m Hs Hc Ha Hv Hmisc
               Hi (row_fits_choice uid c _ _ Hu Gc Hv Hlf) Hm).
    destruct (undo_committed
                (set_user_data w uid (set_subcat (strip txt) (user_data w uid)))
                uid c (strip txt) n (label (user_data w uid)) m I Hok H1 H2)
      as (E1 & E2 & E3 & _).
    rewrite E1, E2, E3, length_app. cbn. repeat split. lia.
Qed.

Lemma undo_reverts_a_commit_witness :
  let w := run [(alice, Command (T "start")); (alice, Message (T "12.5"));
                (alice, Message (T "Needs"))] two_users in
  let w1 := process_update alice (Message (T "Food")) w in
  let w2 := process_update alice (Command (T "undo")) w1 in
  length (rows (db w1)) = 3%nat /\ rows (db w2) = rows (db two_users).
Proof.
  destruct (undo_reverts_a_commit
              (run [(alice, Command (T "start")); (alice, Message (T "12.5"));
                    (alice, Message (T "Needs"))] two_users)
              alice (Fin false 125 (-1)) (Cents 1250)) as [_ H].
  - exists [(bob, Command (T "start")); (bob, Message (T "3"));
            (bob, Message (T "wants")); (bob, Message (T "Gifts"));
            (alice, Command (T "start")); (alice, Message (T "5"));
            (alice, Message (T "wants")); (alice, Message (T "Gifts"));
            (alice, Command (T "start")); (alice, Message (T "12.5"));
            (alice, Message (T "Needs"))], [].
    unfold two_users, with_bob, run. cbn [fold_left fst snd]. reflexivity.
  - vm_compute. reflexivity.
  - split; [vm_compute; discriminate|].
    split; [vm_compute; reflexivity|vm_compute; discriminate].
  - reflexivity.
  - vm_compute. discriminate.
  - vm_compute. discriminate.
  - destruct (H eq_refl (T "needs") (T "Food")) as (H1 & H2 & _);
      try (vm_compute; reflexivity).
    cbv zeta. split; [rewrite H1; vm_compute; reflexivity|].
    rewrite H2. vm_compute. reflexivity.
Defined.

(* ================================================================== *)
(** * Further properties: the amount shown and the amount stored *)
(* ================================================================== *)

Lemma rescale_up_or_even (c : N) (e e' : Z) :
  rescale_half_up c e e' = rescale_half_even c e e' \/
  rescale_half_up c e e' = rescale_half_even c e e' + 1.
Proof.
  unfold rescale_half_even, rescale_half_up.
  destruct (e' <=? e)%Z; [left; reflexivity|].
  destruct (ndigits c <? e' - e)%Z; [left; reflexivity|].
  cbv zeta.
  destruct (2 * (c mod pow10 (e' - e)) <? pow10 (e' - e));
    [left; reflexivity|].
  destruct (pow10 (e' - e) <? 2 * (c mod pow10 (e' - e)));
    [left; reflexivity|].
  destruct (N.even (c / pow10 (e' - e))); [right|left]; reflexivity.
Qed.

(** X15.  The confirmation and the row can differ by a cent.  [_fmt_money]
    rounds half to even, the column [NUMERIC(10,2)] rounds half away from
    zero: for an amount the column takes, the cents stored are the cents
    shown or one more, and with at most two digits after the point both
    are the amount itself. *)
Theorem shown_and_stored_amounts (neg : bool) (c : N) (e : Z) (n : numeric) :
  numeric_10_2 (Fin neg c e) = Some n ->
  let shown := rescale_half_even c e (-2) in
  let stored := rescale_half_up c e (-2) in
  _fmt_money (Fin neg c e) = Ret (T "$" ++ sign_text neg ++ cents_text shown) /\
  n = Cents (signed neg stored) /\
  (stored = shown \/ stored = shown + 1) /\
  ((-2 <= e)%Z -> stored = shown /\ shown = c * pow10 (e + 2)).
Proof.
  intros Hn. cbv zeta.
  split; [exact (fmt_money_storable neg c e n Hn)|].
  split.
  { unfold numeric_10_2 in Hn.
    destruct (numeric_in e); [|discriminate].
    destruct (rescale_half_up c e (-2) <? 10 ^ 10); [|discriminate].
    injection Hn as <-. reflexivity. }
  split; [apply rescale_up_or_even|].
  intros He. unfold rescale_half_even, rescale_half_up.
  replace (-2 <=? e)%Z with true by (symmetry; apply Z.leb_le; exact He).
  replace (e - -2)%Z with (e + 2)%Z by lia. split; reflexivity.
Qed.

Lemma shown_and_stored_amounts_witness :
  Decimal_of_text (T "0.125") = Ret (Fin false 125 (-3)) /\
  _fmt_money (Fin false 125 (-3)) = Ret (T "$0.12") /\
  numeric_10_2 (Fin false 125 (-3)) = Some (Cents 13).
Proof.
  destruct (shown_and_stored_amounts false 125 (-3) (Cents 13))
    as (H1 & _ & _ & _).
  - reflexivity.
  - split; [vm_compute; reflexivity|]. split; [|reflexivity].
    rewrite H1. vm_compute. reflexivity.
Defined.

(* ================================================================== *)
(** * Further properties: an amount the column does not take *)
(* ================================================================== *)

Lemma too_large_step (w : World) (uid : Z) (a : Decimal) (txt : text) :
  Inv w ->
  numeric_10_2 a = None ->
  holds_amount uid a w ->
  db (process_update uid (Message txt) w) = db w /\
  holds_amount uid a (process_update uid (Message txt) w).
Proof.
  intros [_ HI] Hn (Ha & st & Hs & Hne). specialize (HI uid).
  rewrite Hs in HI.
  assert (Hf : uninsertable w a) by (right; left; exact Hn).
  destruct st; [contradiction Hne; reflexivity| | | |destruct HI].
  - (* CATEGORY *)
    destruct (text_in (lower (strip txt)) [T "needs"; T "wants"]) eqn:Hin.
    + rewrite (process_category_ok w uid txt Hs Hin).
      split; [reflexivity|]. split.
      * cbn. rewrite Z.eqb_refl. exact Ha.
      * exists SUBCATEGORY. rewrite conv_set_same.
        split; [reflexivity|discriminate].
    + unfold process_update. rewrite Hs, (get_category_rejects w uid txt Hin).
      split; [reflexivity|]. split; [exact Ha|].
      exists CATEGORY. unfold conversation. rewrite conv_set_same.
      split; [reflexivity|discriminate].
  - (* SUBCATEGORY *)
    destruct HI as [_ (c & Hc & _)].
    destruct (text_eqb (strip txt) BACK) eqn:Hb.
    { apply text_eqb_eq in Hb.
      rewrite (process_back w uid txt c a Hs Hc Ha Hb).
      split; [reflexivity|]. split; [exact Ha|].
      exists CATEGORY. rewrite conv_set_same. split; [reflexivity|discriminate]. }
    destruct (text_in (strip txt) (subcats_of c)) eqn:Hv.
    2:{ unfold process_update.
        rewrite Hs, (get_subcategory_invalid w uid txt c a Hc Ha Hb Hv).
        split; [reflexivity|]. split; [exact Ha|].
        exists SUBCATEGORY. unfold conversation. rewrite conv_set_same.
        split; [reflexivity|discriminate]. }
    destruct (startswith (strip txt) (T "Misc")) eqn:Hm.
    + rewrite (process_subcategory_misc w uid txt c a Hs Hc Ha Hv Hm).
      split; [reflexivity|]. split.
      * cbn. rewrite Z.eqb_refl. exact Ha.
      * exists LABEL. rewrite conv_set_same. split; [reflexivity|discriminate].
    + rewrite (process_subcategory_fails w uid txt c a Hs Hc Ha Hv Hm Hf).
      split; [reflexivity|]. split.
      * cbn. rewrite Z.eqb_refl. exact Ha.
      * exists SUBCATEGORY. split; [exact Hs|discriminate].
  - (* LABEL *)
    destruct HI as [_ (c & k & Hc & _ & Hk & _)].
    rewrite (process_label_fails w uid txt c k a Hs Hc Hk Ha Hf).
    split; [reflexivity|]. split.
    + cbn. rewrite Z.eqb_refl. exact Ha.
    + exists LABEL. split; [exact Hs|discriminate].
Qed.

(** X16.  An amount of a hundred million or more passes [get_amount] but does
    not fit [NUMERIC(10,2)].  In a world the bot reaches, once such an
    amount is in the session and the conversation is past the amount,
    whatever texts the user sends, the table holds the same rows, the
    amount stays in the session and the conversation does not end: every
    commit raises, and only a command gets the user out. *)
Theorem large_amounts_are_never_logged (w : World) (uid : Z) (c : N) (e : Z)
  (txts : list text) :
  reachable w ->
  10 ^ 10 <= rescale_half_up c e (-2) ->
  holds_amount uid (Fin false c e) w ->
  let w' := run (map (fun t => (uid, Message t)) txts) w in
  db w' = db w /\ holds_amount uid (Fin false c e) w'.
Proof.
  intros Hr Hbig. cbv zeta.
  assert (Hn : numeric_10_2 (Fin false c e) = None).
  { unfold numeric_10_2. destruct (numeric_in e); [|reflexivity].
    destruct (N.ltb_spec (rescale_half_up c e (-2)) (10 ^ 10)); [lia|].
    reflexivity. }
  pose proof (reachable_Inv w Hr) as HI. clear Hr. revert w HI.
  unfold run.
  induction txts as [|t txts IH]; intros w HI H; [split; [reflexivity|exact H]|].
  cbn [map fold_left fst snd].
  destruct (too_large_step w uid _ t HI Hn H) as [E1 H1].
  destruct (IH _ (Inv_process_update uid (Message t) w HI) H1) as [E2 H2].
  split; [rewrite E2; exact E1|exact H2].
Qed.

Lemma large_amounts_are_never_logged_witness :
  let w' :=
    run (map (fun t => (alice, Message t))
           [T "Food"; T "Misc Needs"; T "lunch"; T "again"])
        hundred_million in
  parse_amount (T "100000000") = Ret (Fin false 100000000 0) /\
  db w' = db hundred_million /\
  rows (db w') = [].
Proof.
  destruct (large_amounts_are_never_logged hundred_million alice 100000000 0
              [T "Food"; T "Misc Needs"; T "lunch"; T "again"]) as [H _].
  - exists [(alice, Command (T "start")); (alice, Message (T "100000000"));
            (alice, Message (T "Needs"))], [].
    reflexivity.
  - vm_compute. discriminate.
  - split; [vm_compute; reflexivity|].
    exists SUBCATEGORY. split; [vm_compute; reflexivity|discriminate].
  - cbv zeta. split; [vm_compute; reflexivity|].
    split; [exact H|]. rewrite H. vm_compute. reflexivity.
Defined.

(* ================================================================== *)
(** * Further properties: the summary of a table the bot has filled *)
(* ================================================================== *)

Lemma sum_Z_nonneg (l : list Z) : Forall (fun z => (0 <= z)%Z) l -> (0 <= sum_Z l)%Z.
Proof.
  induction 1 as [|z l Hz _ IH]; [cbn; lia|]. rewrite sum_Z_cons. lia.
Qed.

(** X17.  In every world the bot reaches, a summary whose call is served does
    not raise: neither the sum nor the formatting overflows.  It lists
    only subcategories of the category asked for, each at most once, so
    no more lines than the category has subcategories, and no sum is a
    NaN or below zero. *)
Theorem summary_in_a_reachable_world (w : World) (uid : Z) (c : text)
  (plan : list nat) :
  reachable w ->
  hd (Served []) (sched w) = Served plan ->
  let groups := arrange plan (group_sum (selected uid c (db w))) in
  summary uid c w
  = (Ret tt, add_sent (set_sched w (tl (sched w))) (summary_reply uid c groups)) /\
  NoDup (map fst groups) /\
  (forall k v,
     In (k, v) groups ->
     In k (subcats_of c) /\ exists z, v = Cents z /\ (0 <= z)%Z) /\
  (length groups <= length (subcats_of c))%nat.
Proof.
  intros Hr Hev. cbv zeta.
  destruct (reachable_Inv w Hr) as [[Hok Hrows] _].
  pose proof Hok as (_ & Hfin & _).
  set (rs := selected uid c (db w)).
  assert (Hsel : Forall finite_amount rs).
  { apply Forall_forall. intros r Hin. apply filter_In in Hin.
    rewrite Forall_forall in Hfin. apply Hfin, Hin. }
  destruct (group_sum_spec rs Hsel) as [ND A].
  pose proof (arrange_perm plan (group_sum rs)) as Hp.
  assert (ND' : NoDup (map fst (arrange plan (group_sum rs)))).
  { eapply Permutation_NoDup; [apply Permutation_map; exact Hp|exact ND]. }
  assert (Hg : forall k v,
             In (k, v) (arrange plan (group_sum rs)) ->
             In k (subcats_of c) /\ exists z, v = Cents z /\ (0 <= z)%Z).
  { intros k v H. apply (Permutation_in _ (Permutation_sym Hp)) in H.
    apply (assoc_In k v _ ND) in H. rewrite A in H.
    destruct (existsb (in_group k) rs) eqn:X; [|discriminate].
    injection H as <-.
    apply existsb_exists in X. destruct X as (r & Hin & E).
    apply text_eqb_eq in E. apply filter_In in Hin. destruct Hin as [Hin Hc].
    apply andb_true_iff in Hc. destruct Hc as [_ Hc].
    apply text_eqb_eq in Hc.
    rewrite Forall_forall in Hrows. split.
    - destruct (Hrows r Hin) as (_ & H2 & _).
      rewrite Hc, E in H2. apply text_in_In. exact H2.
    - eexists. split; [reflexivity|]. unfold group_total.
      apply sum_Z_nonneg, Forall_forall. intros z Hz.
      apply in_map_iff in Hz. destruct Hz as (x & <- & Hx).
      apply filter_In in Hx. destruct Hx as [Hx _].
      apply filter_In in Hx. destruct Hx as [Hx _].
      destruct (Hrows x Hx) as (_ & _ & (z & -> & Hz) & _). cbn. lia. }
  split; [exact (summary_served w uid c plan Hok Hev)|].
  split; [exact ND'|]. split; [exact Hg|].
  rewrite <- (length_map fst). apply NoDup_incl_length; [exact ND'|].
  intros k Hk. apply in_map_iff in Hk. destruct Hk as ([k' v] & <- & Hin).
  exact (proj1 (Hg k' v Hin)).
Qed.

Lemma summary_in_a_reachable_world_witness :
  fst (summary alice (T "needs") (ledger_example [])) = Ret tt /\
  (length (arrange [] (group_sum (selected alice (T "needs")
                                    (db (ledger_example [])))))
   <= 5)%nat.
Proof.
  destruct (summary_in_a_reachable_world (ledger_example []) alice (T "needs") [])
    as (H1 & _ & _ & H2).
  - exists [(alice, Command (T "start")); (alice, Message (T "10.00"));
            (alice, Message (T "Needs")); (alice, Message (T "Food"));
            (alice, Command (T "start")); (alice, Message (T "5.50"));
            (alice, Message (T "Needs")); (alice, Message (T "Food"));
            (alice, Command (T "start")); (alice, Message (T "2.00"));
            (alice, Message (T "Needs")); (alice, Message (T "Transport"))],
           [Served []; Served []; Served []].
    reflexivity.
  - vm_compute. reflexivity.
  - split; [rewrite H1; reflexivity|exact H2].
Defined.

(* ================================================================== *)
(** * Further properties: stripping *)
(* ================================================================== *)

Lemma lstrip_split (s : text) :
  exists a,
    s = a ++ lstrip s /\ forallb isspace a = true /\
    match lstrip s with [] => True | c :: _ => isspace c = false end.
Proof.
  induction s as [|c s (a & E & Ha & Hh)].
  - exists []. repeat split.
  - cbn [lstrip]. destruct (isspace c) eqn:Hc.
    + exists (c :: a). split; [cbn; rewrite <- E; reflexivity|].
      split; [cbn; rewrite Hc; exact Ha|exact Hh].
    + exists []. split; [reflexivity|]. split; [reflexivity|exact Hc].
Qed.

(** X18.  What the handlers compare and store, [update.message.text.strip()]:
    the message without the whitespace at its two ends.  Nothing else is
    dropped, what is left neither begins nor ends with whitespace, and
    stripping again changes nothing. *)
Theorem strip_spec (s : text) :
  (exists a b,
     s = a ++ strip s ++ b /\
     forallb isspace a = true /\ forallb isspace b = true) /\
  trimmed (strip s) /\
  strip (strip s) = strip s.
Proof.
  destruct (lstrip_split s) as (a & Ea & Ha & Hh).
  destruct (lstrip_split (rev (lstrip s))) as (b & Eb & Hb & Hl).
  assert (E : lstrip s = strip s ++ rev b).
  { unfold strip, rstrip. rewrite <- rev_app_distr, <- Eb, rev_involutive.
    reflexivity. }
  assert (Ht : trimmed (strip s)).
  { split.
    - destruct (strip s) as [|c t] eqn:S; [exact I|].
      rewrite E in Hh. exact Hh.
    - unfold strip, rstrip. rewrite rev_involutive. exact Hl. }
  split; [|split; [exact Ht|]].
  - exists a, (rev b). split; [rewrite <- E; exact Ea|].
    split; [exact Ha|]. rewrite forallb_rev. exact Hb.
  - destruct Ht as [H1 H2]. exact (strip_id _ H1 H2).
Qed.

(* ================================================================== *)
(** * Further properties: text outside a conversation *)
(* ================================================================== *)

(** X19.  While a user has no conversation in progress, whatever texts they
    send, each is answered with the menu and nothing else happens: no
    database call, no row, no change to a session, and no conversation
    starts.  An amount typed without [/start] is not logged. *)
Theorem texts_outside_a_conversation (w : World) (uid : Z) (txts : list text) :
  conv w uid = None ->
  let w' := run (map (fun t => (uid, Message t)) txts) w in
  conv w' = conv w /\ user_data w' = user_data w /\
  db w' = db w /\ sched w' = sched w /\
  sent w' = sent w ++ map (fun _ => menu_reply uid) txts.
Proof.
  cbv zeta. unfold run. revert w.
  induction txts as [|t txts IH]; intros w Hs.
  - cbn. rewrite app_nil_r. repeat split.
  - cbn [map fold_left fst snd].
    assert (E : process_update uid (Message t) w = add_sent w (menu_reply uid)).
    { unfold process_update. rewrite Hs. reflexivity. }
    rewrite E. destruct (IH (add_sent w (menu_reply uid)) Hs)
      as (H1 & H2 & H3 & H4 & H5).
    rewrite H1, H2, H3, H4, H5. cbn [conv user_data db sched sent add_sent].
    rewrite <- app_assoc. repeat split.
Qed.

Lemma texts_outside_a_conversation_witness :
  let w' := run (map (fun t => (alice, Message t)) [T "12.5"; T "Needs"])
              with_bob in
  db w' = db with_bob /\
  sent w' = sent with_bob ++ [menu_reply alice; menu_reply alice].
Proof.
  destruct (texts_outside_a_conversation with_bob alice [T "12.5"; T "Needs"])
    as (_ & _ & H1 & _ & H2).
  - reflexivity.
  - split; [exact H1|exact H2].
Defined.

(* ================================================================== *)
(** * Lemmas: the schedule along a run *)
(* ================================================================== *)

Lemma serves_ret {A : Type} (a : A) : serves (ret a).
Proof. intros w H. exact H. Qed.

Lemma serves_lift {A : Type} (r : res A) : serves (lift r).
Proof. intros w H. exact H. Qed.

Lemma serves_get {A : Type} (uid : Z) (f : Session -> option A) :
  serves (get uid f).
Proof. intros w H. exact H. Qed.

Lemma serves_getitem {A : Type} (uid : Z) (f : Session -> option A) (k : text) :
  serves (getitem uid f k).
Proof.
  intros w H. unfold getitem. destruct (f (user_data w uid)); exact H.
Qed.

Lemma serves_reply (uid : Z) (b : text) (k : markup) :
  serves (reply_text uid b k).
Proof. intros w H. exact H. Qed.

Lemma serves_modify (uid : Z) (f : Session -> Session) : serves (modify uid f).
Proof. intros w H. exact H. Qed.

Lemma serves_db_exec {A : Type} (q : Query A) : serves (db_exec q).
Proof.
  intros w H. apply all_served_tl in H. unfold db_exec. cbv zeta.
  destruct (hd (Served []) (sched w)) as [|plan]; [exact H|].
  destruct (execute q plan (db w)) as [[a st']|]; exact H.
Qed.

Lemma serves_bind {A B : Type} (m : M A) (k : A -> M B) :
  serves m -> (forall a, serves (k a)) -> serves (bind m k).
Proof.
  intros Hm Hk w H. unfold bind. specialize (Hm w H).
  destruct (m w) as [[a|e] w1]; cbn [snd] in Hm; [|exact Hm].
  exact (Hk a w1 Hm).
Qed.

Ltac serves_step :=
  first
    [ apply serves_ret | apply serves_lift | apply serves_reply
    | apply serves_modify | apply serves_get | apply serves_getitem
    | apply serves_db_exec
    | apply serves_bind; [|intros ?] ].

Lemma serves_save_expense (uid : Z) : serves (save_expense uid).
Proof. unfold save_expense, clear. repeat serves_step. Qed.

Lemma serves_process_update (uid : Z) (u : Update) (w : World) :
  all_served (sched w) -> all_served (sched (process_update uid u w)).
Proof.
  assert (C : forall m : M state,
            serves m -> all_served (sched w) ->
            all_served (sched (conversation uid (m w)))).
  { intros m Hm H. specialize (Hm w H).
    destruct (m w) as [[s|e] w1]; cbn [snd] in Hm; [|exact Hm].
    destruct s; exact Hm. }
  intros H. unfold process_update. destruct u as [name|txt].
  - destruct (text_eqb name (T "start"));
      [apply C; [unfold start; repeat serves_step|exact H]|].
    assert (S : forall c, serves (summary uid c)).
    { intros c. unfold summary. apply serves_bind; [serves_step|intros rows].
      destruct rows; repeat serves_step. }
    destruct (text_eqb name (T "needs")); [apply S, H|].
    destruct (text_eqb name (T "wants")); [apply S, H|].
    destruct (text_eqb name (T "undo")).
    { revert H. generalize w. change (serves (undo uid)).
      unfold undo. apply serves_bind; [serves_step|intros rows].
      destruct rows as [|[[[i c] s] a] rows]; repeat serves_step. }
    destruct (text_eqb name (T "restart"));
      [revert H; generalize w; change (serves (restart uid));
       unfold restart; repeat serves_step|].
    exact H.
  - destruct (conv w uid) as [[| | | |]|].
    + apply C; [|exact H]. unfold get_amount.
      destruct (parse_amount txt); repeat serves_step.
    + apply C; [|exact H]. unfold get_category. cbv zeta.
      destruct (negb _); repeat serves_step.
    + apply C; [|exact H]. unfold get_subcategory. cbv zeta.
      apply serves_bind; [serves_step|intros c].
      apply serves_bind; [serves_step|intros a].
      destruct (text_eqb _ _); [repeat serves_step|].
      destruct (negb _); [repeat serves_step|].
      apply serves_bind; [serves_step|intros _].
      destruct (startswith _ _); [repeat serves_step|].
      apply serves_bind; [apply serves_save_expense|intros _]. serves_step.
    + apply C; [|exact H]. unfold get_label. cbv zeta.
      apply serves_bind; [serves_step|intros _].
      apply serves_bind; [apply serves_save_expense|intros _]. serves_step.
    + exact H.
    + exact H.
Qed.

Lemma ids_ok_process_update (uid : Z) (u : Update) (w : World) :
  ids_ok (db w) -> ids_ok (db (process_update uid u w)).
Proof.
  intros I.
  assert (Hv : (uid + 1)%Z <> uid) by lia.
  exact (proj2 (kept_process_update uid (uid + 1) u w Hv I)).
Qed.

Lemma run_keeps (us : list (Z * Update)) (w : World) :
  ids_ok (db w) -> all_served (sched w) ->
  ids_ok (db (run us w)) /\ all_served (sched (run us w)).
Proof.
  unfold run. revert w. induction us as [|[uid u] us IH]; intros w I S.
  - split; assumption.
  - cbn [fold_left fst snd].
    apply IH; [apply ids_ok_process_update, I|apply serves_process_update, S].
Qed.

(* ================================================================== *)
(** * Undo *)
(* ================================================================== *)

Lemma filter_comm {A : Type} (f g : A -> bool) (l : list A) :
  filter f (filter g l) = filter g (filter f l).
Proof.
  induction l as [|a l IH]; [reflexivity|]. cbn.
  destruct (g a) eqn:G, (f a) eqn:F; cbn; rewrite ?G, ?F, IH; reflexivity.
Qed.

Lemma filter_nil_Forall {A : Type} (f : A -> bool) (l : list A) :
  filter f l = [] -> Forall (fun x => f x = false) l.
Proof.
  induction l as [|a l IH]; intros H; [constructor|]. cbn in H.
  destruct (f a) eqn:F; [discriminate|]. constructor; [exact F|exact (IH H)].
Qed.

Lemma filter_negb_all {A : Type} (f : A -> bool) (l : list A) :
  filter f l = [] -> filter (fun x => negb (f x)) l = l.
Proof.
  intros H. apply filter_all. apply filter_nil_Forall in H.
  eapply Forall_impl; [|exact H]. cbn. intros a ->. reflexivity.
Qed.

(** One [undo], on any table with a sound key: the row of the user that
    has the greatest id goes, every other row stays where it is. *)
Lemma undo_step (w : World) (uid : Z) (l : list expenses.row)
  (r : expenses.row) :
  ids_ok (db w) ->
  all_served (sched w) ->
  filter (of_user uid) (rows (db w)) = l ++ [r] ->
  Forall (fun x => (expenses.id x < expenses.id r)%Z) l ->
  numeric_ok (expenses.amount r) ->
  let w' := snd (undo uid w) in
  fst (undo uid w) = Ret tt /\
  rows (db w')
  = filter (fun x => negb (expenses.id x =? expenses.id r)%Z) (rows (db w)) /\
  sent w' = sent w ++ [removed_reply uid r] /\
  filter (of_user uid) (rows (db w')) = l /\
  filter (fun x => negb (of_user uid x)) (rows (db w'))
  = filter (fun x => negb (of_user uid x)) (rows (db w)) /\
  ids_ok (db w') /\ all_served (sched w').
Proof.
  intros I S E Hlt Hn. cbv zeta.
  assert (L : last_by_id (filter (of_user uid) (rows (db w))) = Some r)
    by (rewrite E; apply last_by_id_snoc, Hlt).
  assert (Hr : In r (rows (db w)) /\ of_user uid r = true).
  { apply filter_In. rewrite E. apply in_or_app. right. left. reflexivity. }
  destruct Hr as [Hin Hu].
  rewrite (undo_served w uid r L Hn (all_served_hd _ S)
             (all_served_hd _ (all_served_tl _ S))).
  cbn [fst snd db rows next_id sched sent add_sent set_db set_sched].
  split; [reflexivity|]. split; [reflexivity|]. split; [reflexivity|].
  pose proof (ids_ok_filter (of_user uid) (db w) I) as [ND _].
  cbn [rows] in ND. rewrite E in ND.
  split; [|split; [|split]].
  - rewrite filter_comm, E. exact (delete_last l r ND).
  - apply filter_filter_imp. intros x Hx Hux.
    apply negb_true_iff, Z.eqb_neq. intros Ex.
    destruct I as [NDw _].
    rewrite (NoDup_map_eq expenses.id _ x r NDw Hx Hin Ex), Hu in Hux.
    discriminate.
  - exact (ids_ok_filter _ (db w) I).
  - apply all_served_tl, all_served_tl, S.
Qed.

(** C1: a user without entries inserts [E1], [E2], [E3], in that order;
    then the other users send whatever they send, so that the newest row of
    the table need not be the user's.  The first [undo] of the user removes
    exactly [E3], their entry with the highest id, the second [E2], the
    third [E1], each reporting the removed entry and leaving every other
    row in its place, and the fourth removes nothing and replies "Nothing
    to undo."; [undo] for the user before the inserts leaves the table as
    it is with that same reply.  The database serves every call, and the
    three rows are rows the table takes. *)
Theorem undo_order (w : World) (uid : Z) (c1 s1 c2 s2 c3 s3 : text)
  (a1 a2 a3 : Decimal) (l1 l2 l3 : option text) (n1 n2 n3 : numeric)
  (us : list (Z * Update)) :
  ids_ok (db w) ->
  all_served (sched w) ->
  Forall (fun x => of_user uid x = false) (rows (db w)) ->
  row_fits uid c1 s1 l1 = true ->
  row_fits uid c2 s2 l2 = true ->
  row_fits uid c3 s3 l3 = true ->
  numeric_10_2 a1 = Some n1 ->
  numeric_10_2 a2 = Some n2 ->
  numeric_10_2 a3 = Some n3 ->
  (next_id (db w) + 2 <= SERIAL_MAX)%Z ->
  Forall (fun p => fst p <> uid) us ->
  let r1 := expenses.mk (next_id (db w)) uid c1 s1 n1 l1 in
  let r2 := expenses.mk (next_id (db w) + 1) uid c2 s2 n2 l2 in
  let r3 := expenses.mk (next_id (db w) + 1 + 1) uid c3 s3 n3 l3 in
  let without r := filter (fun x => negb (expenses.id x =? expenses.id r)%Z) in
  let inserts :=
    db_exec (INSERT uid c1 s1 a1 l1) ;;
    db_exec (INSERT uid c2 s2 a2 l2) ;;
    db_exec (INSERT uid c3 s3 a3 l3) in
  let w3 := snd (inserts w) in
  let wo := run us w3 in
  let w4 := snd (undo uid wo) in
  let w5 := snd (undo uid w4) in
  let w6 := snd (undo uid w5) in
  let w7 := snd (undo uid w6) in
  (fst (inserts w) = Ret tt /\
   rows (db w3) = rows (db w) ++ [r1; r2; r3]) /\
  filter (of_user uid) (rows (db wo)) = [r1; r2; r3] /\
  (fst (undo uid wo) = Ret tt /\
   rows (db w4) = without r3 (rows (db wo)) /\
   filter (of_user uid) (rows (db w4)) = [r1; r2] /\
   sent w4 = sent wo ++ [removed_reply uid r3]) /\
  (fst (undo uid w4) = Ret tt /\
   rows (db w5) = without r2 (rows (db w4)) /\
   filter (of_user uid) (rows (db w5)) = [r1] /\
   sent w5 = sent w4 ++ [removed_reply uid r2]) /\
  (fst (undo uid w5) = Ret tt /\
   rows (db w6) = without r1 (rows (db w5)) /\
   filter (of_user uid) (rows (db w6)) = [] /\
   sent w6 = sent w5 ++ [removed_reply uid r1]) /\
  rows (db w6) = filter (fun x => negb (of_user uid x)) (rows (db wo)) /\
  (fst (undo uid w6) = Ret tt /\
   db w7 = db w6 /\
   sent w7 = sent w6 ++ [nothing_reply uid]) /\
  (fst (undo uid w) = Ret tt /\
   db (snd (undo uid w)) = db w /\
   sent (snd (undo uid w)) = sent w ++ [nothing_reply uid]).
Proof.
  intros Hok Hs Hbase Hf1 Hf2 Hf3 Hn1 Hn2 Hn3 Hid Hus r1 r2 r3 without inserts.
  pose proof (all_served_tl _ Hs) as Hs1.
  pose proof (all_served_tl _ Hs1) as Hs2.
  pose proof (all_served_tl _ Hs2) as Hs3.
  (* the three inserts *)
  assert (E3 : inserts w
    = (Ret tt,
       set_db (set_sched w (tl (tl (tl (sched w)))))
         (mkStore (rows (db w) ++ [r1; r2; r3]) (next_id (db w) + 1 + 1 + 1)))).
  { unfold inserts, bind.
    rewrite (db_exec_insert w uid c1 s1 a1 l1 n1)
      by (first [assumption
                |repeat split; [apply all_served_hd; assumption|assumption|lia]]).
    rewrite (db_exec_insert _ uid c2 s2 a2 l2 n2)
      by (first [assumption
                |repeat split;
                 [apply all_served_hd; assumption|assumption
                 |cbn [db next_id set_db]; lia]]).
    rewrite (db_exec_insert _ uid c3 s3 a3 l3 n3)
      by (first [assumption
                |repeat split;
                 [apply all_served_hd; assumption|assumption
                 |cbn [db next_id set_db]; lia]]).
    cbn [db set_db set_sched sched rows next_id user_data conv sent].
    rewrite <- !app_assoc. reflexivity. }
  cbv zeta. rewrite E3. cbn [fst snd].
  set (w3 := set_db _ _).
  (* the table after the inserts, and after the others *)
  assert (Hok3 : ids_ok (db w3)).
  { pose proof (ids_ok_insert _ uid c1 s1 n1 l1 Hok) as Hok1.
    pose proof (ids_ok_insert _ uid c2 s2 n2 l2 Hok1) as Hok2.
    pose proof (ids_ok_insert _ uid c3 s3 n3 l3 Hok2) as Hok3.
    cbn [rows next_id] in Hok3. rewrite <- !app_assoc in Hok3. exact Hok3. }
  assert (U3 : filter (of_user uid) (rows (db w3)) = [r1; r2; r3]).
  { unfold w3. cbn [db rows set_db]. rewrite filter_app, (filter_none _ _ Hbase).
    cbn [filter app]. unfold of_user. cbn [expenses.user_id r1 r2 r3].
    rewrite Z.eqb_refl. reflexivity. }
  destruct (run_keeps us w3 Hok3 Hs3) as [Hoko Hso].
  destruct (kept_run uid us w3 Hus Hok3) as (_ & _ & Uo & _).
  rewrite U3 in Uo.
  split; [split; reflexivity|].
  set (wo := run us w3) in *. clearbody wo. clear w3 Hok3 U3 E3.
  pose proof (numeric_10_2_ok _ _ Hn1) as K1.
  pose proof (numeric_10_2_ok _ _ Hn2) as K2.
  pose proof (numeric_10_2_ok _ _ Hn3) as K3.
  split; [exact Uo|].
  (* first undo *)
  destruct (undo_step wo uid [r1; r2] r3 Hoko Hso Uo)
    as (A1 & A2 & A3 & A4 & A5 & A6 & A7);
    [repeat constructor; cbn [expenses.id r1 r2 r3]; lia|exact K3|].
  split; [split; [exact A1|split; [exact A2|split; [exact A4|exact A3]]]|].
  (* second undo *)
  destruct (undo_step (snd (undo uid wo)) uid [r1] r2 A6 A7 A4)
    as (B1 & B2 & B3 & B4 & B5 & B6 & B7);
    [repeat constructor; cbn [expenses.id r1 r2 r3]; lia|exact K2|].
  split; [split; [exact B1|split; [exact B2|split; [exact B4|exact B3]]]|].
  (* third undo *)
  destruct (undo_step (snd (undo uid (snd (undo uid wo)))) uid [] r1 B6 B7 B4)
    as (C1 & C2 & C3 & C4 & C5 & C6 & C7); [constructor|exact K1|].
  split; [split; [exact C1|split; [exact C2|split; [exact C4|exact C3]]]|].
  (* the rows of the others *)
  split.
  { rewrite <- A5, <- B5, <- C5. symmetry. apply filter_negb_all, C4. }
  (* fourth undo, and undo before the inserts *)
  split.
  - rewrite undo_nothing;
      [ | apply filter_nil_Forall, C4 | apply all_served_hd, C7 ].
    repeat split.
  - rewrite (undo_nothing w uid Hbase (all_served_hd _ Hs)). repeat split.
Qed.

Lemma undo_order_witness :
  let inserts :=
    db_exec (INSERT alice (T "needs") (T "Food") (Fin false 1000 (-2)) None) ;;
    db_exec (INSERT alice (T "needs") (T "Food") (Fin false 55 (-1)) None) ;;
    db_exec (INSERT alice (T "needs") (T "Transport") (Fin false 2 0) None) in
  let w3 := snd (inserts with_bob) in
  let wo :=
    run [(bob, Command (T "start")); (bob, Message (T "4"));
         (bob, Message (T "wants")); (bob, Message (T "Dates"))] w3 in
  let w4 := snd (undo alice wo) in
  rows (db wo)
  = [expenses.mk 1 bob (T "wants") (T "Gifts") (Cents 300) None;
     expenses.mk 2 alice (T "needs") (T "Food") (Cents 1000) None;
     expenses.mk 3 alice (T "needs") (T "Food") (Cents 550) None;
     expenses.mk 4 alice (T "needs") (T "Transport") (Cents 200) None;
     expenses.mk 5 bob (T "wants") (T "Dates") (Cents 400) None] /\
  rows (db w4)
  = [expenses.mk 1 bob (T "wants") (T "Gifts") (Cents 300) None;
     expenses.mk 2 alice (T "needs") (T "Food") (Cents 1000) None;
     expenses.mk 3 alice (T "needs") (T "Food") (Cents 550) None;
     expenses.mk 5 bob (T "wants") (T "Dates") (Cents 400) None] /\
  sent w4
  = sent wo
      ++ [removed_reply alice
            (expenses.mk 4 alice (T "needs") (T "Transport") (Cents 200) None)].
Proof.
  destruct (undo_order with_bob alice
              (T "needs") (T "Food") (T "needs") (T "Food")
              (T "needs") (T "Transport")
              (Fin false 1000 (-2)) (Fin false 55 (-1)) (Fin false 2 0)
              None None None (Cents 1000) (Cents 550) (Cents 200)
              [(bob, Command (T "start")); (bob, Message (T "4"));
               (bob, Message (T "wants")); (bob, Message (T "Dates"))])
    as (_ & _ & (_ & H4 & _ & S4) & _).
  - split; vm_compute; repeat constructor. intros [].
  - constructor.
  - vm_compute. repeat constructor.
  - reflexivity.
  - reflexivity.
  - reflexivity.
  - reflexivity.
  - reflexivity.
  - reflexivity.
  - vm_compute. discriminate.
  - repeat constructor; compute; discriminate.
  - cbv zeta. split; [vm_compute; reflexivity|].
    split; [rewrite H4; vm_compute; reflexivity|exact S4].
Defined.
